(** * A shallow embedding of the T.LY Go client (client.go)

    The client is one dispatch function, [doRequestRaw], a decoding wrapper,
    [doRequest], and one thin method per remote endpoint.  Go strings and byte
    slices are byte sequences; both are embedded as [string] (a list of 8-bit
    characters).  Go [int] values are never used for arithmetic in the client,
    only printed, and are embedded as [Z].

    The standard-library functions the client calls (strings, strconv, bytes,
    unicode/utf8, net/url, encoding/json, net/http) are embedded next to it,
    each under the name of the Go function it stands for. *)

From Stdlib Require Import ZArith Strings.String Strings.Ascii.
From stdpp Require Import gmap strings list sorting pretty.

Open Scope Z_scope.
Set Warnings "-register-all".

(** ** Bytes *)

Definition byte_val (a : ascii) : Z := Z.of_N (N_of_ascii a).
Definition byte_of (z : Z) : ascii := ascii_of_N (Z.to_N z).

Definition in_range (lo hi : Z) (a : ascii) : bool :=
  (lo <=? byte_val a) && (byte_val a <=? hi).

Fixpoint string_of_bytes (l : list ascii) : string :=
  match l with
  | [] => ""
  | a :: l => String a (string_of_bytes l)
  end.

Fixpoint bytes_of_string (s : string) : list ascii :=
  match s with
  | "" => []
  | String a s => a :: bytes_of_string s
  end.

Definition ch (a : ascii) : string := String a "".

(** The sixteen digits of [upperhex] and of encoding/json's [hex]. *)
Definition upperhex (n : Z) : ascii :=
  if n <? 10 then byte_of (48 + n) else byte_of (55 + n).
Definition lowerhex (n : Z) : ascii :=
  if n <? 10 then byte_of (48 + n) else byte_of (87 + n).

(** ** strings and strconv *)

(** [strings.HasPrefix] and [strings.Contains]. *)
Fixpoint HasPrefix (s prefix : string) : bool :=
  match prefix, s with
  | "", _ => true
  | String p prefix, String a s => if Ascii.eqb a p then HasPrefix s prefix else false
  | String _ _, "" => false
  end.

Fixpoint Contains (s substr : string) : bool :=
  HasPrefix s substr ||
  match s with
  | "" => false
  | String _ s => Contains s substr
  end.

(** [strings.TrimRight(s, cutset)] for a cutset of ASCII bytes: the trailing
    bytes of [s] that occur in [cutset] are removed. *)
Fixpoint in_cutset (a : ascii) (cutset : string) : bool :=
  match cutset with
  | "" => false
  | String c cutset => Ascii.eqb a c || in_cutset a cutset
  end.

Fixpoint TrimRight (s cutset : string) : string :=
  match s with
  | "" => ""
  | String a s =>
      match TrimRight s cutset with
      | "" => if in_cutset a cutset then "" else ch a
      | t => String a t
      end
  end.

(** [strconv.Itoa], which is also what [fmt.Sprintf] prints for [%d]. *)
Definition Itoa (i : Z) : string := pretty i.

(** [strings.Join]. *)
Fixpoint Join (elems : list string) (sep : string) : string :=
  match elems with
  | [] => ""
  | [e] => e
  | e :: elems => e +:+ sep +:+ Join elems sep
  end.

(** ** net/url: query escaping and [url.Values] *)

(** [shouldEscape(c, encodeQueryComponent)]: letters, digits and the four
    marks [-_.~] are kept, every other byte is escaped. *)
Definition shouldEscape (c : ascii) : bool :=
  if in_range 97 122 c || in_range 65 90 c || in_range 48 57 c then false
  else if in_cutset c "-_.~" then false
  else true.

(** [url.QueryEscape]: a space becomes [+], an escaped byte becomes [%XX]
    with upper-case hexadecimal digits. *)
Fixpoint QueryEscape (s : string) : string :=
  match s with
  | "" => ""
  | String c s =>
      if Ascii.eqb c " " then String "+" (QueryEscape s)
      else if shouldEscape c then
        String "%" (String (upperhex (Z.shiftr (byte_val c) 4))
                   (String (upperhex (Z.land (byte_val c) 15)) (QueryEscape s)))
      else String c (QueryEscape s)
  end.

(** [url.Values] is [map[string][]string]. *)
Abbreviation Values := (gmap string (list string)).

(** [Values.Set]: the key is bound to the one-element list. *)
Definition Values_Set (v : Values) (key value : string) : Values :=
  <[key := [value]]> v.

(** The keys of a map, sorted bytewise, as [Values.Encode] and the JSON map
    encoder visit them. *)
Definition sorted_keys {A} (m : gmap string A) : list string :=
  merge_sort String.le (fst <$> map_to_list m).

(** The [key=value] pairs of [Values.Encode], in the order they are written. *)
Definition Encode_pairs (v : Values) : list string :=
  k ← sorted_keys v;
  (λ x, QueryEscape k +:+ "=" +:+ QueryEscape x) <$> (v !!! k).

(** [Values.Encode]: the pairs sorted by key and joined with [&]. *)
Definition Encode (v : Values) : string := Join (Encode_pairs v) "&".


(** ** unicode/utf8 and bytes.TrimSpace *)

Definition RuneError : Z := 0xFFFD.

Definition take_bytes (n : nat) (s : string) : string := String.substring 0 n s.
Definition drop_bytes (n : nat) (s : string) : string :=
  String.substring n (String.length s - n) s.

(** A continuation byte in [lo, hi], with its six payload bits. *)
Definition cont (lo hi : Z) (s : string) : option (Z * string) :=
  match s with
  | String b s => if in_range lo hi b then Some (Z.land (byte_val b) 0x3F, s) else None
  | "" => None
  end.

(** [utf8.DecodeRune]: the first rune of [s] and its width in bytes; an
    invalid or short encoding gives [(RuneError, 1)], the empty string
    [(RuneError, 0)]. *)
Definition DecodeRune (s : string) : Z * nat :=
  match s with
  | "" => (RuneError, 0%nat)
  | String b0 s =>
      let x := byte_val b0 in
      if x <? 0x80 then (x, 1%nat)
      else if in_range 0xC2 0xDF b0 then
        match cont 0x80 0xBF s with
        | Some (c1, _) => (Z.lor (Z.shiftl (Z.land x 0x1F) 6) c1, 2%nat)
        | None => (RuneError, 1%nat)
        end
      else if in_range 0xE0 0xEF b0 then
        let lo := if x =? 0xE0 then 0xA0 else 0x80 in
        let hi := if x =? 0xED then 0x9F else 0xBF in
        match cont lo hi s with
        | Some (c1, s) =>
            match cont 0x80 0xBF s with
            | Some (c2, _) =>
                (Z.lor (Z.shiftl (Z.land x 0x0F) 12) (Z.lor (Z.shiftl c1 6) c2), 3%nat)
            | None => (RuneError, 1%nat)
            end
        | None => (RuneError, 1%nat)
        end
      else if in_range 0xF0 0xF4 b0 then
        let lo := if x =? 0xF0 then 0x90 else 0x80 in
        let hi := if x =? 0xF4 then 0x8F else 0xBF in
        match cont lo hi s with
        | Some (c1, s) =>
            match cont 0x80 0xBF s with
            | Some (c2, s) =>
                match cont 0x80 0xBF s with
                | Some (c3, _) =>
                    (Z.lor (Z.shiftl (Z.land x 0x07) 18)
                       (Z.lor (Z.shiftl c1 12) (Z.lor (Z.shiftl c2 6) c3)), 4%nat)
                | None => (RuneError, 1%nat)
                end
            | None => (RuneError, 1%nat)
            end
        | None => (RuneError, 1%nat)
        end
      else (RuneError, 1%nat)
  end.

(** [utf8.EncodeRune] (surrogates and out-of-range values are written as
    [RuneError]). *)
Definition EncodeRune (r : Z) : string :=
  let r := if (r <? 0) || (0x10FFFF <? r) || ((0xD800 <=? r) && (r <=? 0xDFFF))
           then RuneError else r in
  let tx n := byte_of (Z.lor 0x80 (Z.land (Z.shiftr r n) 0x3F)) in
  if r <=? 0x7F then ch (byte_of r)
  else if r <=? 0x7FF then
    String (byte_of (Z.lor 0xC0 (Z.shiftr r 6))) (ch (tx 0))
  else if r <=? 0xFFFF then
    String (byte_of (Z.lor 0xE0 (Z.shiftr r 12))) (String (tx 6) (ch (tx 0)))
  else
    String (byte_of (Z.lor 0xF0 (Z.shiftr r 18)))
      (String (tx 12) (String (tx 6) (ch (tx 0)))).

(** [utf8.RuneStart]. *)
Definition RuneStart (b : ascii) : bool :=
  negb (Z.land (byte_val b) 0xC0 =? 0x80).

(** [utf8.DecodeLastRune]: the last rune of [s] and its width. *)
Definition DecodeLastRune (s : string) : Z * nat :=
  let p := bytes_of_string s in
  let end_ := Z.of_nat (length p) in
  match p !! Z.to_nat (end_ - 1) with
  | None => (RuneError, 0%nat)
  | Some b =>
      if byte_val b <? 0x80 then (byte_val b, 1%nat)
      else
        let lim := Z.max 0 (end_ - 4) in
        let is_start i :=
          (lim <=? i) && from_option RuneStart false (p !! Z.to_nat i) in
        let start :=
          if is_start (end_ - 2) then end_ - 2
          else if lim <=? end_ - 2 then
            if is_start (end_ - 3) then end_ - 3
            else if lim <=? end_ - 3 then
              if is_start (end_ - 4) then end_ - 4
              else if lim <=? end_ - 4 then end_ - 5 else end_ - 4
            else end_ - 3
          else end_ - 2 in
        let start := Z.max 0 start in
        let '(r, size) := DecodeRune (drop_bytes (Z.to_nat start) s) in
        if start + Z.of_nat size =? end_ then (r, size) else (RuneError, 1%nat)
  end.

(** [unicode.IsSpace]. *)
Definition IsSpace (r : Z) : bool :=
  if r <=? 0xFF then
    (r =? 9) || (r =? 10) || (r =? 11) || (r =? 12) || (r =? 13) || (r =? 32)
    || (r =? 0x85) || (r =? 0xA0)
  else
    (r =? 0x1680) || ((0x2000 <=? r) && (r <=? 0x200A)) || (r =? 0x2028)
    || (r =? 0x2029) || (r =? 0x202F) || (r =? 0x205F) || (r =? 0x3000).

(** [bytes.TrimLeftFunc(s, f)]: runes are dropped from the left while [f]
    holds.  The fuel is the number of bytes still to be looked at. *)
Fixpoint TrimLeftFunc_go (fuel : nat) (s : string) (f : Z -> bool) : string :=
  match fuel with
  | O => s
  | S fuel =>
      match s with
      | "" => ""
      | _ => let '(r, size) := DecodeRune s in
             if f r then TrimLeftFunc_go fuel (drop_bytes size s) f else s
      end
  end.
Definition TrimLeftFunc (s : string) (f : Z -> bool) : string :=
  TrimLeftFunc_go (String.length s) s f.

(** [bytes.TrimRightFunc(s, f)]: [lastIndexFunc] walks back over the runes
    on which [f] holds; the rune it stops at is kept with its forward
    width. *)
Fixpoint lastIndexFunc_go (fuel : nat) (s : string) (f : Z -> bool) : Z :=
  match fuel with
  | O => -1
  | S fuel =>
      match s with
      | "" => -1
      | _ => let '(r, size) := DecodeLastRune s in
             let i := (String.length s - size)%nat in
             if f r then lastIndexFunc_go fuel (take_bytes i s) f else Z.of_nat i
      end
  end.
Definition TrimRightFunc (s : string) (f : Z -> bool) : string :=
  let i := lastIndexFunc_go (String.length s) s f in
  if i <? 0 then ""
  else
    let i := Z.to_nat i in
    match String.get i s with
    | Some b =>
        if 0x80 <=? byte_val b
        then take_bytes (i + snd (DecodeRune (drop_bytes i s))) s
        else take_bytes (i + 1) s
    | None => take_bytes (i + 1) s
    end.

(** [bytes.TrimSpace]. *)
Definition TrimSpace (s : string) : string :=
  TrimRightFunc (TrimLeftFunc s IsSpace) IsSpace.

(** ** Errors and results *)

(** [APIError] is returned when the T.LY API responds with a non-2xx
    status. *)
Record APIError := { StatusCode : Z; Body : string }.

(** The [Error] method of [APIError]. *)
Definition APIError_Error (e : APIError) : string :=
  "API error (status " +:+ Itoa (StatusCode e) +:+ "): " +:+ Body e.

(** The Go [error] values the client can return, by origin. *)
Inductive error :=
  | ErrAPI (e : APIError)              (* an APIError, built by doRequestRaw *)
  | ErrMarshal (what : string)         (* json.Marshal *)
  | ErrSyntax                          (* json.Unmarshal: a json.SyntaxError *)
  | ErrUnmarshalType (what : string)   (* json.Unmarshal: a json.UnmarshalTypeError *)
  | ErrNewRequest (msg : string)       (* http.NewRequest *)
  | ErrTransport (msg : string)        (* the Do method of http.Client *)
  | ErrRead (msg : string)             (* ioutil.ReadAll *)
  | Errorf (msg : string).             (* fmt.Errorf *)

(** A Go result pair [(value, error)] in which exactly one side counts. *)
Inductive result (A : Type) :=
  | Ok (a : A)
  | Err (e : error).
Arguments Ok {A} a.
Arguments Err {A} e.

Global Instance result_ret : MRet result := fun _ a => Ok a.
Global Instance result_bind : MBind result := fun _ _ k r =>
  match r with
  | Ok a => k a
  | Err e => Err e
  end.

Definition is_Ok {A} (r : result A) : bool :=
  match r with Ok _ => true | Err _ => false end.

(** ** encoding/json: Go values as the package sees them through reflect *)

(** The Go types that occur in the client's JSON-facing declarations.  A
    struct field carries its Go name and its [json] tag (name and the
    [omitempty] option). *)
Inductive gotype :=
  | TInt | TBool | TString | TFloat64
  | TPtr (t : gotype)
  | TSlice (t : gotype)
  | TMap (t : gotype)                  (* map[string]t *)
  | TInterface                         (* interface{} *)
  | TStruct (fields : list field)
  | TChan                              (* a kind encoding/json does not support *)
with field :=
  | Field (name : string) (json : string) (omitempty : bool) (t : gotype).

Definition field_name (f : field) : string := let 'Field n _ _ _ := f in n.
Definition field_json (f : field) : string := let 'Field _ j _ _ := f in j.
Definition field_omitempty (f : field) : bool := let 'Field _ _ o _ := f in o.
Definition field_type (f : field) : gotype := let 'Field _ _ _ t := f in t.

(** Go values.  [VNil] is the nil pointer, slice, map or interface; a
    non-nil interface carries its dynamic type.  A map is given by its
    bindings, one per key.  [VFloat64 lit] is the float64 that the JSON
    number [lit] denotes: the client never computes with one, it only
    receives them inside [interface{}] results, so the number is kept as
    its text (Go would print the shortest text of the number).
    [VSliceCap l spare] is a slice of elements [l] whose backing array still
    holds the elements [spare] beyond its length; [VSlice l] is a slice with
    nothing but zeroes, or nothing at all, beyond its length. *)
Inductive govalue :=
  | VInt (i : Z)
  | VBool (b : bool)
  | VString (s : string)
  | VFloat64 (lit : string)
  | VNil
  | VPtr (v : govalue)
  | VSlice (l : list govalue)
  | VSliceCap (l spare : list govalue)
  | VMap (m : list (string * govalue))
  | VIface (t : gotype) (v : govalue)
  | VStruct (fields : list govalue)
  | VChan.

(** The zero value of a type. *)
Fixpoint zero (t : gotype) : govalue :=
  match t with
  | TInt => VInt 0
  | TBool => VBool false
  | TString => VString ""
  | TFloat64 => VFloat64 "0"
  | TPtr _ | TSlice _ | TMap _ | TInterface | TChan => VNil
  | TStruct fs => VStruct (map (fun f => let 'Field _ _ _ t := f in zero t) fs)
  end.

(** A composite literal [T{Name: v, ...}]: the named fields are set, the
    others keep their zero value. *)
Definition literal (t : gotype) (named : list (string * govalue)) : govalue :=
  match t with
  | TStruct fs =>
      VStruct (map (fun f =>
        match list_find (fun nv => fst nv = field_name f) named with
        | Some (_, (_, v)) => v
        | None => zero (field_type f)
        end) fs)
  | _ => zero t
  end.

(** Selecting the field [name] of a struct value. *)
Definition select (t : gotype) (v : govalue) (name : string) : govalue :=
  match t, v with
  | TStruct fs, VStruct vs =>
      match list_find (fun f => field_name f = name) fs with
      | Some (i, _) => default VNil (vs !! i)
      | None => VNil
      end
  | _, _ => VNil
  end.

(** The double quote, byte 34. *)
Definition dquote : ascii := "034"%char.

(** [appendString] of encoding/json with HTML escaping on, as [Marshal]
    uses it: the quoted form of a Go string.  Bytes that are not valid UTF-8
    are written as the replacement character.  (Backspace and form feed
    are written [\b] and [\f], as Go does from version 1.22 on; older
    versions write their [\u00XX] form.) *)
Definition htmlSafe (b : ascii) : bool :=
  in_range 0x20 0x7F b && negb (Ascii.eqb b dquote || in_cutset b "&<>\").

Fixpoint appendString_go (fuel : nat) (s : string) : string :=
  match fuel with
  | O => ""
  | S fuel =>
      match s with
      | "" => ""
      | String b rest =>
          if byte_val b <? 0x80 then
            (if htmlSafe b then ch b
             else if Ascii.eqb b dquote || Ascii.eqb b "\" then String "\" (ch b)
             else if byte_val b =? 8 then "\b"
             else if byte_val b =? 12 then "\f"
             else if byte_val b =? 10 then "\n"
             else if byte_val b =? 13 then "\r"
             else if byte_val b =? 9 then "\t"
             else "\u00" +:+ String (lowerhex (Z.shiftr (byte_val b) 4))
                                (ch (lowerhex (Z.land (byte_val b) 15))))
            +:+ appendString_go fuel rest
          else
            let '(c, size) := DecodeRune s in
            if (c =? RuneError) && (size =? 1)%nat then
              "\ufffd" +:+ appendString_go fuel rest
            else if c =? 0x2028 then "\u2028" +:+ appendString_go fuel (drop_bytes size s)
            else if c =? 0x2029 then "\u2029" +:+ appendString_go fuel (drop_bytes size s)
            else take_bytes size s +:+ appendString_go fuel (drop_bytes size s)
      end
  end.

Definition appendString (s : string) : string :=
  String dquote (appendString_go (String.length s) s +:+ ch dquote).

(** [isEmptyValue] of encoding/json, which decides [omitempty]: a string,
    slice or map of length 0, a false bool, a zero number, a nil pointer or
    interface. *)
Definition zero_literal (lit : string) : bool :=
  forallb (fun a => in_cutset a "0.") (bytes_of_string lit).

Definition isEmptyValue (v : govalue) : bool :=
  match v with
  | VInt i => i =? 0
  | VBool b => negb b
  | VString s => (String.length s =? 0)%nat
  | VFloat64 lit => zero_literal lit
  | VNil => true
  | VSlice l | VSliceCap l _ => (length l =? 0)%nat
  | VMap m => (length m =? 0)%nat
  | VPtr _ | VIface _ _ | VStruct _ | VChan => false
  end.

(** All results of a list, or the first error. *)
Fixpoint sequence {A} (l : list (result A)) : result (list A) :=
  match l with
  | [] => Ok []
  | r :: l => a ← r; l ← sequence l; Ok (a :: l)
  end.

Definition key_le {A} (x y : string * A) : Prop := String.le (fst x) (fst y).
Global Instance key_le_dec {A} (x y : string * A) : Decision (key_le x y).
Proof. unfold key_le. apply _. Defined.

(** One [key:value] member of a JSON object. *)
Definition member (kv : string * string) : string :=
  appendString (fst kv) +:+ ":" +:+ snd kv.

Definition object (members : list (string * string)) : string :=
  "{" +:+ Join (member <$> members) "," +:+ "}".

(** The encoder of encoding/json on a value of a given static type
    ([reflectValue]).  A nil pointer, slice, map or interface is written
    [null]; a map is written with its keys sorted; a struct is written field
    by field in declaration order, leaving out the [omitempty] fields whose
    value is empty; a channel is rejected with an UnsupportedTypeError.  A
    [VFloat64] is written as its literal. *)
Fixpoint marshal (v : govalue) (t : gotype) {struct v} : result string :=
  match v, t with
  | VInt i, TInt => Ok (Itoa i)
  | VBool b, TBool => Ok (if b then "true" else "false")
  | VString s, TString => Ok (appendString s)
  | VFloat64 lit, TFloat64 => Ok lit
  | VNil, (TPtr _ | TSlice _ | TMap _ | TInterface) => Ok "null"
  | VPtr v, TPtr t => marshal v t
  | VSlice l, TSlice t | VSliceCap l _, TSlice t =>
      elems ← sequence (map (fun v => marshal v t) l);
      Ok ("[" +:+ Join elems "," +:+ "]")
  | VMap m, TMap t =>
      let encoded := map (fun kv => (fst kv, marshal (snd kv) t)) m in
      members ← sequence (map (fun kr => e ← snd kr; Ok (fst kr, e))
                            (merge_sort key_le encoded));
      Ok (object members)
  | VIface t v, TInterface => marshal v t
  | VStruct vs, TStruct fs =>
      members ← sequence
        ((fix fields (vs : list govalue) (fs : list field) :=
            match vs, fs with
            | v :: vs, Field _ name omitempty t :: fs =>
                if omitempty && isEmptyValue v then fields vs fs
                else (e ← marshal v t; Ok (name, e)) :: fields vs fs
            | _, _ => []
            end) vs fs);
      Ok (object members)
  | _, _ => Err (ErrMarshal "json: unsupported type")
  end.

(** [json.Marshal(v)] for [v interface{}]. *)
Definition Marshal (v : govalue) : result string := marshal v TInterface.

(** ** encoding/json: reading JSON text *)

(** A parsed JSON text.  A number keeps its literal; a string and an object
    key are held unquoted. *)
Inductive jvalue :=
  | JNull
  | JBool (b : bool)
  | JNumber (lit : string)
  | JString (s : string)
  | JArray (elems : list jvalue)
  | JObject (members : list (string * jvalue)).

(** The scanner's [isSpace]: space, tab, carriage return, line feed. *)
Definition isSpace (c : ascii) : bool :=
  let x := byte_val c in (x =? 32) || (x =? 9) || (x =? 13) || (x =? 10).

Fixpoint skip_space (s : string) : string :=
  match s with
  | String c r => if isSpace c then skip_space r else s
  | "" => ""
  end.

Definition is_digit (c : ascii) : bool := in_range 48 57 c.

Definition hex_val (c : ascii) : option Z :=
  if in_range 48 57 c then Some (byte_val c - 48)
  else if in_range 97 102 c then Some (byte_val c - 87)
  else if in_range 65 70 c then Some (byte_val c - 55)
  else None.

(** [getu4]: the value of a leading [\uXXXX], or -1. *)
Definition getu4 (s : string) : Z :=
  match s with
  | String "\" (String "u" (String a (String b (String c (String d _))))) =>
      match hex_val a, hex_val b, hex_val c, hex_val d with
      | Some a, Some b, Some c, Some d => ((a * 16 + b) * 16 + c) * 16 + d
      | _, _, _, _ => -1
      end
  | _ => -1
  end.

(** [utf16.DecodeRune]. *)
Definition utf16_DecodeRune (r1 r2 : Z) : Z :=
  if (0xD800 <=? r1) && (r1 <? 0xDC00) && (0xDC00 <=? r2) && (r2 <? 0xE000)
  then Z.lor (Z.shiftl (r1 - 0xD800) 10) (r2 - 0xDC00) + 0x10000
  else RuneError.

(** The body of a string literal up to its closing quote, unquoted as
    [unquoteBytes] does, and the text after the quote.  Control bytes and
    unknown escapes are syntax errors; ill-formed UTF-8 and lone surrogates
    become the replacement character. *)
Fixpoint scan_string (fuel : nat) (s : string) : option (string * string) :=
  match fuel with
  | O => None
  | S fuel =>
      match s with
      | "" => None
      | String c r =>
          let more (out rest : string) :=
            match scan_string fuel rest with
            | Some (t, rest) => Some (out +:+ t, rest)
            | None => None
            end in
          if Ascii.eqb c dquote then Some ("", r)
          else if byte_val c <? 32 then None
          else if Ascii.eqb c "\" then
            match r with
            | String e r' =>
                if Ascii.eqb e dquote || in_cutset e "\/" then more (ch e) r'
                else if Ascii.eqb e "b" then more (ch (byte_of 8)) r'
                else if Ascii.eqb e "f" then more (ch (byte_of 12)) r'
                else if Ascii.eqb e "n" then more (ch (byte_of 10)) r'
                else if Ascii.eqb e "r" then more (ch (byte_of 13)) r'
                else if Ascii.eqb e "t" then more (ch (byte_of 9)) r'
                else if Ascii.eqb e "u" then
                  let rr := getu4 s in
                  if rr <? 0 then None
                  else
                    let r6 := drop_bytes 6 s in
                    if (0xD800 <=? rr) && (rr <? 0xE000) then
                      let dec := utf16_DecodeRune rr (getu4 r6) in
                      if dec =? RuneError then more (EncodeRune RuneError) r6
                      else more (EncodeRune dec) (drop_bytes 6 r6)
                    else more (EncodeRune rr) r6
                else None
            | "" => None
            end
          else if byte_val c <? 0x80 then more (ch c) r
          else
            let '(rr, size) := DecodeRune s in
            more (EncodeRune rr) (drop_bytes size s)
      end
  end.

Fixpoint span_digits (s : string) : string * string :=
  match s with
  | String c r =>
      if is_digit c then let '(d, rest) := span_digits r in (String c d, rest)
      else ("", s)
  | "" => ("", "")
  end.

(** A number literal: an optional minus, [0] or a digit string without
    leading zero, an optional fraction, an optional exponent. *)
Definition scan_number (s : string) : option (string * string) :=
  let '(sign, s) :=
    match s with String "-" r => ("-", r) | _ => ("", s) end in
  let int_part :=
    match s with
    | String "0" r => Some ("0", r)
    | String c _ =>
        if is_digit c then Some (span_digits s) else None
    | "" => None
    end in
  match int_part with
  | None => None
  | Some (i, s) =>
      let frac :=
        match s with
        | String "." r =>
            match span_digits r with
            | ("", _) => None
            | (d, rest) => Some ("." +:+ d, rest)
            end
        | _ => Some ("", s)
        end in
      match frac with
      | None => None
      | Some (f, s) =>
          let exp (e : ascii) (r : string) :=
            let '(sg, r) :=
              match r with
              | String "+" r' => ("+", r')
              | String "-" r' => ("-", r')
              | _ => ("", r)
              end in
            match span_digits r with
            | ("", _) => None
            | (d, rest) => Some (sign +:+ i +:+ f +:+ ch e +:+ sg +:+ d, rest)
            end in
          match s with
          | String "e" r => exp "e"%char r
          | String "E" r => exp "E"%char r
          | _ => Some (sign +:+ i +:+ f, s)
          end
      end
  end.

(** The scanner's [maxNestingDepth]. *)
Definition maxNestingDepth : Z := 10000.

(** One JSON value at the head of [s], and the text after it.  [depth] is
    the number of arrays and objects open around it. *)
Fixpoint parse_value (fuel : nat) (depth : Z) (s : string)
  : option (jvalue * string) :=
  match fuel with
  | O => None
  | S fuel =>
      match skip_space s with
      | "" => None
      | String c r as s =>
          if Ascii.eqb c "{" then
            if maxNestingDepth <? depth + 1 then None
            else
              match skip_space r with
              | String "}" r => Some (JObject [], r)
              | r =>
                  match parse_members fuel (depth + 1) r with
                  | Some (m, r) => Some (JObject m, r)
                  | None => None
                  end
              end
          else if Ascii.eqb c "[" then
            if maxNestingDepth <? depth + 1 then None
            else
              match skip_space r with
              | String "]" r => Some (JArray [], r)
              | r =>
                  match parse_elems fuel (depth + 1) r with
                  | Some (l, r) => Some (JArray l, r)
                  | None => None
                  end
              end
          else if Ascii.eqb c dquote then
            match scan_string (S (String.length r)) r with
            | Some (t, r) => Some (JString t, r)
            | None => None
            end
          else if Ascii.eqb c "-" || is_digit c then
            match scan_number s with
            | Some (lit, r) => Some (JNumber lit, r)
            | None => None
            end
          else if HasPrefix s "true" then Some (JBool true, drop_bytes 4 s)
          else if HasPrefix s "false" then Some (JBool false, drop_bytes 5 s)
          else if HasPrefix s "null" then Some (JNull, drop_bytes 4 s)
          else None
      end
  end
with parse_elems (fuel : nat) (depth : Z) (s : string)
  : option (list jvalue * string) :=
  match fuel with
  | O => None
  | S fuel =>
      match parse_value fuel depth s with
      | Some (v, r) =>
          match skip_space r with
          | String "," r =>
              match parse_elems fuel depth r with
              | Some (l, r) => Some (v :: l, r)
              | None => None
              end
          | String "]" r => Some ([v], r)
          | _ => None
          end
      | None => None
      end
  end
with parse_members (fuel : nat) (depth : Z) (s : string)
  : option (list (string * jvalue) * string) :=
  match fuel with
  | O => None
  | S fuel =>
      match skip_space s with
      | String c r =>
          if Ascii.eqb c dquote then
            match scan_string (S (String.length r)) r with
            | Some (k, r) =>
                match skip_space r with
                | String ":" r =>
                    match parse_value fuel depth r with
                    | Some (v, r) =>
                        match skip_space r with
                        | String "," r =>
                            match parse_members fuel depth r with
                            | Some (m, r) => Some ((k, v) :: m, r)
                            | None => None
                            end
                        | String "}" r => Some ([(k, v)], r)
                        | _ => None
                        end
                    | None => None
                    end
                | _ => None
                end
            | None => None
            end
          else None
      | "" => None
      end
  end.

(** [checkValid] followed by the reading of the one top-level value: the
    whole of [data] is one JSON value between optional white space.  Every
    step of the three functions above uses up a byte of input at least every
    second call, so twice the length is fuel enough. *)
Definition parse (data : string) : option jvalue :=
  match parse_value (2 * String.length data + 2) 0 data with
  | Some (v, r) => if String.eqb (skip_space r) "" then Some v else None
  | None => None
  end.

(** ** encoding/json: storing a parsed value into a Go value *)

Fixpoint digits_value (acc : Z) (s : string) : option Z :=
  match s with
  | "" => Some acc
  | String c r =>
      if is_digit c then digits_value (acc * 10 + (byte_val c - 48)) r else None
  end.

(** [strconv.ParseInt(lit, 10, 64)] on a JSON number literal: a literal with
    a fraction or an exponent, or outside the 64-bit range, is an error. *)
Definition ParseInt (lit : string) : option Z :=
  let v :=
    match lit with
    | String "-" (String _ _ as r) => Z.opp <$> digits_value 0 r
    | String _ _ => digits_value 0 lit
    | "" => None
    end in
  v ≫= (fun i => if (- 2 ^ 63 <=? i) && (i <? 2 ^ 63) then Some i else None).

(** [foldName]: the key under which a field is found when no field has the
    exact name.  ASCII letters are folded to upper case; the two runes
    outside ASCII whose simple fold is an ASCII letter, U+017F and U+212A,
    are folded to [S] and [K].  (Other runes fold among themselves and never
    meet the ASCII names of this client's fields.) *)
Fixpoint foldName (s : string) : string :=
  match s with
  | "" => ""
  | String c r =>
      if in_range 97 122 c then String (byte_of (byte_val c - 32)) (foldName r)
      else
        match s with
        | String "197" (String "191" r') => String "S" (foldName r')
        | String "226" (String "132" (String "170" r')) => String "K" (foldName r')
        | _ => String c (foldName r)
        end
  end.

(** The struct field a JSON object key is stored into: the field with that
    exact name, else the first one with the same folded name. *)
Definition find_field (fs : list field) (key : string) : option nat :=
  match list_find (fun f => field_json f = key) fs with
  | Some (i, _) => Some i
  | None => fst <$> list_find (fun f => foldName (field_json f) = foldName key) fs
  end.

(** Binding [k] in a map given by its bindings. *)
Fixpoint map_set {A} (m : list (string * A)) (k : string) (v : A)
  : list (string * A) :=
  match m with
  | [] => [(k, v)]
  | (k', v') :: m =>
      if String.eqb k' k then (k, v) :: m else (k', v') :: map_set m k v
  end.

(** The digits of a number literal read as one natural number, how many
    they are, and the power of ten they are to be scaled by: the literal
    denotes plus or minus [d * 10 ^ k]. *)
Definition decimal_parts (lit : string) : option (Z * Z * Z) :=
  let s := match lit with String "-" r => r | _ => lit end in
  let '(i, s) := span_digits s in
  let '(f, s) := match s with String "." r => span_digits r | _ => ("", s) end in
  let e :=
    match s with
    | "" => Some 0
    | String c r =>
        if in_cutset c "eE" then
          match r with
          | String "-" r' => Z.opp <$> digits_value 0 r'
          | String "+" r' => digits_value 0 r'
          | _ => digits_value 0 r
          end
        else None
    end in
  d ← digits_value 0 (i +:+ f);
  e ← e;
  Some (d, Z.of_nat (String.length (i +:+ f)), e - Z.of_nat (String.length f)).

(** [strconv.ParseFloat(lit, 64)] fails with a range error on a literal
    that rounds to an infinity: one whose magnitude is at least
    [2^1024 - 2^970], half a unit in the last place above the largest
    float64.  A literal far out of that range is settled by its exponent
    alone. *)
Definition float64_overflows (lit : string) : bool :=
  match decimal_parts lit with
  | None => true
  | Some (d, n, k) =>
      if d =? 0 then false
      else if 400 <? k then true
      else if k + n <? -400 then false
      else if 0 <=? k then 2 ^ 1024 - 2 ^ 970 <=? d * 10 ^ k
      else (2 ^ 1024 - 2 ^ 970) * 10 ^ (- k) <=? d
  end.

(** What a JSON value becomes when it is stored into an [interface{}]:
    nil, bool, float64, string, [[]interface{}] or
    [map[string]interface{}].  A number that [ParseFloat] rejects is an
    UnmarshalTypeError. *)
Fixpoint generic (j : jvalue) : result govalue :=
  match j with
  | JNull => Ok VNil
  | JBool b => Ok (VIface TBool (VBool b))
  | JNumber lit =>
      if float64_overflows lit then Err (ErrUnmarshalType ("number " +:+ lit))
      else Ok (VIface TFloat64 (VFloat64 lit))
  | JString s => Ok (VIface TString (VString s))
  | JArray l =>
      vs ← sequence (map generic l);
      Ok (VIface (TSlice TInterface) (VSlice vs))
  | JObject m =>
      kvs ← sequence (map (fun kv => v ← generic (snd kv); Ok (fst kv, v)) m);
      Ok (VIface (TMap TInterface)
            (VMap (fold_left (fun acc kv => map_set acc (fst kv) (snd kv))
                     kvs [])))
  end.

(** The kind of JSON value that an UnmarshalTypeError names. *)
Definition json_kind (j : jvalue) : string :=
  match j with
  | JNull => "null"
  | JBool _ => "bool"
  | JNumber _ => "number"
  | JString _ => "string"
  | JArray _ => "array"
  | JObject _ => "object"
  end.

(** The decoder of encoding/json on a target of static type [t] that
    currently holds [cur].  [null] sets a pointer, slice, map or interface
    to nil and leaves anything else as it is.  An object is stored into a
    struct key by key, in the order of the text; keys that name no field are
    skipped.  An array is stored into a slice element by element, each
    one into what the backing array holds at its index: an element of the
    slice, an element left beyond its length by an earlier, longer array, or
    a zero value; [[]] gives a new empty slice.  A value of the wrong JSON
    kind for the target is an UnmarshalTypeError that names the kind, and a
    number that its numeric target cannot hold is one that names the
    number; the first one is the error returned. *)
Fixpoint decode (t : gotype) (j : jvalue) (cur : govalue) {struct t}
  : result govalue :=
  let mismatch := Err (ErrUnmarshalType (json_kind j)) in
  match j with
  | JNull =>
      match t with
      | TPtr _ | TSlice _ | TMap _ | TInterface => Ok VNil
      | _ => Ok cur
      end
  | _ =>
      match t with
      | TPtr t =>
          v ← decode t j (match cur with VPtr p => p | _ => zero t end);
          Ok (VPtr v)
      | TInterface => generic j
      | TInt =>
          match j with
          | JNumber lit =>
              match ParseInt lit with
              | Some i => Ok (VInt i)
              | None => Err (ErrUnmarshalType ("number " +:+ lit))
              end
          | _ => mismatch
          end
      | TFloat64 =>
          match j with
          | JNumber lit =>
              if float64_overflows lit
              then Err (ErrUnmarshalType ("number " +:+ lit))
              else Ok (VFloat64 lit)
          | _ => mismatch
          end
      | TBool =>
          match j with JBool b => Ok (VBool b) | _ => mismatch end
      | TString =>
          match j with JString s => Ok (VString s) | _ => mismatch end
      | TSlice t =>
          match j with
          | JArray l =>
              let old :=
                match cur with
                | VSlice c => c
                | VSliceCap c spare => c ++ spare
                | _ => []
                end in
              vs ← sequence
                     (imap (fun i e => decode t e (default (zero t) (old !! i))) l);
              Ok (match l, drop (length l) old with
                  | [], _ | _, [] => VSlice vs
                  | _, spare => VSliceCap vs spare
                  end)
          | _ => mismatch
          end
      | TMap t =>
          match j with
          | JObject m =>
              let old := match cur with VMap c => c | _ => [] end in
              kvs ← sequence
                      (map (fun kv => v ← decode t (snd kv) (zero t);
                                      Ok (fst kv, v)) m);
              Ok (VMap (fold_left (fun acc kv => map_set acc (fst kv) (snd kv))
                          kvs old))
          | _ => mismatch
          end
      | TStruct fs =>
          match j with
          | JObject m =>
              let store := map (fun f => let 'Field _ _ _ t := f in decode t) fs in
              let old :=
                match cur with
                | VStruct vs => vs
                | _ => map (fun f => zero (field_type f)) fs
                end in
              vs ← fold_left
                     (fun acc kv =>
                        vs ← acc;
                        match find_field fs (fst kv) with
                        | Some i =>
                            match store !! i, vs !! i with
                            | Some d, Some v =>
                                v' ← d (snd kv) v; Ok (<[i := v']> vs)
                            | _, _ => Ok vs
                            end
                        | None => Ok vs
                        end)
                     m (Ok old);
              Ok (VStruct vs)
          | _ => mismatch
          end
      | TChan => mismatch
      end
  end.

(** [json.Unmarshal(data, &x)] for [x] of type [t] holding [cur]: the new
    value of [x], or the error. *)
Definition Unmarshal (data : string) (t : gotype) (cur : govalue)
  : result govalue :=
  match parse data with
  | Some j => decode t j cur
  | None => Err ErrSyntax
  end.

(** ** net/http *)

Module http.

(** A request as it is handed to the transport. *)
Record Request := {
  Method : string;
  URL : string;
  Header : gmap string (list string);
  Body : string
}.

(** A response: its status code and what reading its body to the end
    ([ioutil.ReadAll]) gives. *)
Record Response := {
  StatusCode : Z;
  ReadAll : result string
}.

(** The transport handle, [*http.Client], given by its [Do] method: a
    response or a transport error. *)
Record Client := { Do : Request -> result Response }.

Definition MethodGet : string := "GET".
Definition MethodPost : string := "POST".
Definition MethodPut : string := "PUT".
Definition MethodDelete : string := "DELETE".

(** [Header.Set] on a request. *)
Definition Header_Set (req : Request) (key value : string) : Request :=
  {| Method := Method req; URL := URL req;
     Header := <[key := [value]]> (Header req); Body := Body req |}.

End http.

(** The client makes its calls one after the other through the transport;
    the state threaded through them is the list of requests sent so far. *)
Definition M (A : Type) : Type :=
  list http.Request -> result A * list http.Request.

Global Instance M_ret : MRet M := fun _ a sent => (Ok a, sent).
Global Instance M_bind : MBind M := fun _ _ k m sent =>
  match m sent with
  | (Ok a, sent) => k a sent
  | (Err e, sent) => (Err e, sent)
  end.

(** A call that touches no transport. *)
Definition lift {A} (r : result A) : M A := fun sent => (r, sent).

(** [client.Do(req)]: the request goes out and is recorded. *)
Definition send (client : http.Client) (req : http.Request) : M http.Response :=
  fun sent => (http.Do client req, sent ++ [req]).

(** ** The client *)

(** [Client] is the main API client for T.LY.  (The Go field [Client] is
    named [HTTP] here: a record and its field cannot share a name.) *)
Record Client := {
  APIKey : string;
  BaseURL : string;
  HTTP : http.Client
}.

(** [NewClient] creates a new T.LY API client; the transport, which Go
    takes to be the default [&http.Client{}], is given. *)
Definition NewClient (transport : http.Client) (apiKey : string) : Client :=
  {| APIKey := apiKey; BaseURL := "https://api.t.ly"; HTTP := transport |}.

(** What [doRequest] is asked to fill in, [result interface{}]: nothing, a
    byte slice, or a value of a JSON-facing type; each pointer is given with
    the value it points at. *)
Inductive target :=
  | ResultNil
  | ResultBytes (cur : string)
  | ResultJSON (t : gotype) (cur : govalue).

Definition bytes_at (r : target) : string :=
  match r with ResultBytes b => b | _ => "" end.
Definition value_at (r : target) : govalue :=
  match r with ResultJSON _ v => v | _ => VNil end.

Definition int_of (v : govalue) : Z :=
  match v with VInt i => i | _ => 0 end.

Section client.

(** [http.NewRequest] fails on a method that is not a token and on a URL
    that [url.Parse] rejects.  That check is a parameter: the message of the
    error for the method and the URL it is called with, if there is one.
    The request of an empty method is a GET request. *)
Variable NewRequest_rejects : string -> string -> option string.

Definition NewRequest (method url body : string) : result http.Request :=
  match NewRequest_rejects method url with
  | Some msg => Err (ErrNewRequest msg)
  | None => Ok {| http.Method := if String.eqb method "" then "GET" else method;
                  http.URL := url; http.Header := ∅; http.Body := body |}
  end.

Definition doRequestRaw (c : Client) (method path : string)
    (query : option Values) (body : govalue) : M string :=
  let requestURL := TrimRight (BaseURL c) "/" +:+ path in
  let requestURL :=
    match query with
    | Some query =>
        if (0 <? size query)%nat then requestURL +:+ "?" +:+ Encode query
        else requestURL
    | None => requestURL
    end in
  reqBody ← match body with
            | VNil => mret ""
            | _ => lift (Marshal body)
            end;
  req ← lift (NewRequest method requestURL reqBody);
  let req := http.Header_Set req "Authorization" ("Bearer " +:+ APIKey c) in
  let req := http.Header_Set req "Content-Type" "application/json" in
  let req := http.Header_Set req "Accept" "application/json" in
  resp ← send (HTTP c) req;
  data ← lift (http.ReadAll resp);
  if (http.StatusCode resp <? 200) || (300 <=? http.StatusCode resp) then
    lift (Err (ErrAPI {| StatusCode := http.StatusCode resp; Body := data |}))
  else mret data.

(** [doRequest] is an internal helper for making API calls and decoding
    JSON responses.  It returns what [result] points at after the call. *)
Definition doRequest (c : Client) (method path : string)
    (query : option Values) (body : govalue) (result : target) : M target :=
  data ← doRequestRaw c method path query body;
  match result with
  | ResultNil => mret result
  | _ =>
      if (String.length (TrimSpace data) =? 0)%nat then mret result
      else
        match result with
        | ResultBytes _ => mret (ResultBytes data)
        | ResultJSON t cur =>
            v ← lift (Unmarshal data t cur); mret (ResultJSON t v)
        | ResultNil => mret result
        end
  end.

Definition queryFromMap (params : gmap string string) : Values :=
  map_fold (fun k v query => Values_Set query k v) ∅ params.

Fixpoint addIndexedIntSlice_from (i : Z) (query : Values) (key : string)
    (values : list Z) : Values :=
  match values with
  | [] => query
  | v :: values =>
      addIndexedIntSlice_from (i + 1)
        (Values_Set query (key +:+ "[" +:+ Itoa i +:+ "]") (Itoa v)) key values
  end.

Definition addIndexedIntSlice (query : Values) (key : string)
    (values : list Z) : Values :=
  addIndexedIntSlice_from 0 query key values.

(** *** Pixel management *)

(** [Pixel] represents a pixel object. *)
Definition Pixel : gotype := TStruct [
  Field "ID" "id" false TInt;
  Field "Name" "name" false TString;
  Field "PixelID" "pixel_id" false TString;
  Field "PixelType" "pixel_type" false TString;
  Field "CreatedAt" "created_at" false TString;
  Field "UpdatedAt" "updated_at" false TString ].

(** [PixelCreateRequest] is used to create a new pixel. *)
Definition PixelCreateRequest : gotype := TStruct [
  Field "Name" "name" false TString;
  Field "PixelID" "pixel_id" false TString;
  Field "PixelType" "pixel_type" false TString ].

(** [PixelUpdateRequest] is used to update a pixel. *)
Definition PixelUpdateRequest : gotype := TStruct [
  Field "ID" "id" false TInt;
  Field "Name" "name" false TString;
  Field "PixelID" "pixel_id" false TString;
  Field "PixelType" "pixel_type" false TString ].

Definition CreatePixel (c : Client) (reqData : govalue) : M govalue :=
  let out := zero Pixel in
  r ← doRequest c http.MethodPost "/api/v1/link/pixel" None (VIface PixelCreateRequest reqData)
         (ResultJSON Pixel out);
  mret (value_at r).

Definition ListPixels (c : Client) : M govalue :=
  let out := zero (TSlice Pixel) in
  r ← doRequest c http.MethodGet "/api/v1/link/pixel" None VNil
         (ResultJSON (TSlice Pixel) out);
  mret (value_at r).

Definition GetPixel (c : Client) (id : Z) : M govalue :=
  let path := "/api/v1/link/pixel/" +:+ Itoa id in
  let out := zero Pixel in
  r ← doRequest c http.MethodGet path None VNil
         (ResultJSON Pixel out);
  mret (value_at r).

Definition UpdatePixel (c : Client) (reqData : govalue) : M govalue :=
  let path :=
    "/api/v1/link/pixel/" +:+ Itoa (int_of (select PixelUpdateRequest reqData "ID")) in
  let out := zero Pixel in
  r ← doRequest c http.MethodPut path None (VIface PixelUpdateRequest reqData)
         (ResultJSON Pixel out);
  mret (value_at r).

Definition DeletePixel (c : Client) (id : Z) : M unit :=
  let path := "/api/v1/link/pixel/" +:+ Itoa id in
  _ ← doRequest c http.MethodDelete path None VNil ResultNil;
  mret ().

(** *** Short link management *)

(** [ShortLink] represents a shortened URL. *)
Definition ShortLink : gotype := TStruct [
  Field "ShortURL" "short_url" false TString;
  Field "Description" "description" false (TPtr TString);
  Field "LongURL" "long_url" false TString;
  Field "Domain" "domain" false TString;
  Field "ShortID" "short_id" false TString;
  Field "ExpireAtViews" "expire_at_views" false TInterface;
  Field "ExpireAtDatetime" "expire_at_datetime" false TInterface;
  Field "PublicStats" "public_stats" false TBool;
  Field "CreatedAt" "created_at" false TString;
  Field "UpdatedAt" "updated_at" false TString;
  Field "Meta" "meta" false TInterface;
  Field "QRCodeURL" "qr_code_url" true TString;
  Field "QRCodeBase64" "qr_code_base64" true TString;
  Field "Tags" "tags" true (TSlice TInterface);
  Field "Pixels" "pixels" true (TSlice TInterface) ].

(** [ShortLinkCreateRequest] is used to create a short link. *)
Definition ShortLinkCreateRequest : gotype := TStruct [
  Field "LongURL" "long_url" false TString;
  Field "ShortID" "short_id" true (TPtr TString);
  Field "Domain" "domain" false TString;
  Field "ExpireAtDatetime" "expire_at_datetime" true (TPtr TString);
  Field "ExpireAtViews" "expire_at_views" true (TPtr TInt);
  Field "Description" "description" true (TPtr TString);
  Field "PublicStats" "public_stats" true (TPtr TBool);
  Field "Password" "password" true (TPtr TString);
  Field "Tags" "tags" true (TSlice TInt);
  Field "Pixels" "pixels" true (TSlice TInt);
  Field "Meta" "meta" true TInterface ].

(** [ShortLinkUpdateRequest] is used to update a short link. *)
Definition ShortLinkUpdateRequest : gotype := TStruct [
  Field "ShortURL" "short_url" false TString;
  Field "ShortID" "short_id" true (TPtr TString);
  Field "LongURL" "long_url" false TString;
  Field "ExpireAtDatetime" "expire_at_datetime" true (TPtr TString);
  Field "ExpireAtViews" "expire_at_views" true (TPtr TInt);
  Field "Description" "description" true (TPtr TString);
  Field "PublicStats" "public_stats" true (TPtr TBool);
  Field "Password" "password" true (TPtr TString);
  Field "Tags" "tags" true (TSlice TInt);
  Field "Pixels" "pixels" true (TSlice TInt);
  Field "Meta" "meta" true TInterface ].

Definition CreateShortLink (c : Client) (reqData : govalue) : M govalue :=
  let out := zero ShortLink in
  r ← doRequest c http.MethodPost "/api/v1/link/shorten" None (VIface ShortLinkCreateRequest reqData)
         (ResultJSON ShortLink out);
  mret (value_at r).

Definition GetShortLink (c : Client) (shortURL : string) : M govalue :=
  let query : Values := ∅ in
  let query := Values_Set query "short_url" shortURL in
  let out := zero ShortLink in
  r ← doRequest c http.MethodGet "/api/v1/link" (Some query) VNil
         (ResultJSON ShortLink out);
  mret (value_at r).

Definition UpdateShortLink (c : Client) (reqData : govalue) : M govalue :=
  let out := zero ShortLink in
  r ← doRequest c http.MethodPut "/api/v1/link" None (VIface ShortLinkUpdateRequest reqData)
         (ResultJSON ShortLink out);
  mret (value_at r).

Definition DeleteShortLink (c : Client) (shortURL : string) : M unit :=
  let reqBody := VIface (TMap TString) (VMap [("short_url", VString shortURL)]) in
  _ ← doRequest c http.MethodDelete "/api/v1/link" None reqBody ResultNil;
  mret ().

(** [ExpandRequest] is used to expand a short link. *)
Definition ExpandRequest : gotype := TStruct [
  Field "ShortURL" "short_url" false TString;
  Field "Password" "password" true (TPtr TString) ].

(** [ExpandResponse] represents the response when expanding a short link. *)
Definition ExpandResponse : gotype := TStruct [
  Field "LongURL" "long_url" false TString;
  Field "Expired" "expired" false TBool ].

Definition ExpandShortLink (c : Client) (reqData : govalue) : M govalue :=
  let out := zero ExpandResponse in
  r ← doRequest c http.MethodPost "/api/v1/link/expand" None (VIface ExpandRequest reqData)
         (ResultJSON ExpandResponse out);
  mret (value_at r).

(** [ListShortLinksOptions] includes optional filters for list endpoint. *)
Record ListShortLinksOptions := {
  Search : string;
  TagIDs : list Z;
  PixelIDs : list Z;
  StartDate : string;
  EndDate : string;
  Domains : list Z;
  Page : Z
}.

(** [ShortLinkListResponse] is the paginated response for listing short
    links. *)
Definition ShortLinkListResponse : gotype := TStruct [
  Field "CurrentPage" "current_page" false TInt;
  Field "Data" "data" false (TSlice ShortLink);
  Field "LastPage" "last_page" true TInt;
  Field "PerPage" "per_page" true TInt;
  Field "Total" "total" true TInt ].

Definition nonempty (s : string) : bool := negb (String.eqb s "").

Definition ListShortLinksDetailed (c : Client) (options : ListShortLinksOptions)
  : M govalue :=
  let query : Values := ∅ in
  let query :=
    if nonempty (Search options) then Values_Set query "search" (Search options)
    else query in
  let query := addIndexedIntSlice query "tag_ids" (TagIDs options) in
  let query := addIndexedIntSlice query "pixel_ids" (PixelIDs options) in
  let query :=
    if nonempty (StartDate options)
    then Values_Set query "start_date" (StartDate options) else query in
  let query :=
    if nonempty (EndDate options)
    then Values_Set query "end_date" (EndDate options) else query in
  let query := addIndexedIntSlice query "domains" (Domains options) in
  let query :=
    if 0 <? Page options then Values_Set query "page" (Itoa (Page options))
    else query in
  let out := zero ShortLinkListResponse in
  r ← doRequest c http.MethodGet "/api/v1/link/list" (Some query) VNil
         (ResultJSON ShortLinkListResponse out);
  mret (value_at r).

Definition ListShortLinks (c : Client) (queryParams : gmap string string)
  : M string :=
  let raw := "" in
  r ← doRequest c http.MethodGet "/api/v1/link/list" (Some (queryFromMap queryParams)) VNil
         (ResultBytes raw);
  mret (bytes_at r).

(** [BulkShortenLink] represents one entry in a bulk shorten request. *)
Definition BulkShortenLink : gotype := TStruct [
  Field "LongURL" "long_url" false TString;
  Field "Backhalf" "backhalf" true (TPtr TString);
  Field "Password" "password" true (TPtr TString);
  Field "Description" "description" true (TPtr TString) ].

(** [BulkShortenRequest] is used for bulk shortening of links. *)
Definition BulkShortenRequest : gotype := TStruct [
  Field "Domain" "domain" false TString;
  Field "Links" "links" false TInterface;
  Field "Tags" "tags" true (TSlice TInt);
  Field "Pixels" "pixels" true (TSlice TInt) ].

Definition BulkShortenLinks (c : Client) (reqData : govalue) : M string :=
  let raw := "" in
  r ← doRequest c http.MethodPost "/api/v1/link/bulk" None (VIface BulkShortenRequest reqData)
         (ResultBytes raw);
  mret (bytes_at r).

(** [BulkUpdateLink] represents one entry in a bulk update request. *)
Definition BulkUpdateLink : gotype := TStruct [
  Field "ShortURL" "short_url" false TString;
  Field "LongURL" "long_url" true TString;
  Field "Backhalf" "backhalf" true (TPtr TString);
  Field "Password" "password" true (TPtr TString);
  Field "Description" "description" true (TPtr TString) ].

(** [BulkUpdateRequest] is used for bulk updating links. *)
Definition BulkUpdateRequest : gotype := TStruct [
  Field "Links" "links" false TInterface;
  Field "Tags" "tags" true (TSlice TInt);
  Field "Pixels" "pixels" true (TSlice TInt) ].

Definition BulkUpdateLinks (c : Client) (reqData : govalue) : M string :=
  let raw := "" in
  r ← doRequest c http.MethodPost "/api/v1/link/bulk/update" None (VIface BulkUpdateRequest reqData)
         (ResultBytes raw);
  mret (bytes_at r).

(** *** Stats management *)

(** [Stats] represents link stats. *)
Definition Stats : gotype := TStruct [
  Field "Clicks" "clicks" false TInt;
  Field "UniqueClicks" "unique_clicks" false TInt;
  Field "TotalQRScans" "total_qr_scans" true TInt;
  Field "Browsers" "browsers" false (TSlice (TMap TInterface));
  Field "Countries" "countries" false (TSlice (TMap TInterface));
  Field "Cities" "cities" true (TSlice (TMap TInterface));
  Field "Referrers" "referrers" false (TSlice (TMap TInterface));
  Field "Platforms" "platforms" false (TSlice (TMap TInterface));
  Field "DailyClicks" "daily_clicks" false (TSlice (TMap TInterface));
  Field "LinkClicks" "link_clicks" true (TSlice (TMap TInterface));
  Field "Data" "data" false (TMap TInterface) ].

(** [StatsRequest] includes parameters for the stats endpoints.  (Its
    fields are prefixed: [ListShortLinksOptions] has the same date fields.) *)
Record StatsRequest := {
  Stats_ShortURL : string;
  Stats_StartDate : string;
  Stats_EndDate : string
}.

(** [GetStatsWithRange] retrieves statistics for a short link with an
    optional date range. *)
Definition GetStatsWithRange (c : Client) (reqData : StatsRequest) : M govalue :=
  let query : Values := ∅ in
  let query := Values_Set query "short_url" (Stats_ShortURL reqData) in
  let query :=
    if nonempty (Stats_StartDate reqData)
    then Values_Set query "start_date" (Stats_StartDate reqData) else query in
  let query :=
    if nonempty (Stats_EndDate reqData)
    then Values_Set query "end_date" (Stats_EndDate reqData) else query in
  let stats := zero Stats in
  r ← doRequest c http.MethodGet "/api/v1/link/stats" (Some query) VNil
         (ResultJSON Stats stats);
  mret (value_at r).

(** [GetStats] retrieves statistics for a short link. *)
Definition GetStats (c : Client) (shortURL : string) : M govalue :=
  GetStatsWithRange c
    {| Stats_ShortURL := shortURL; Stats_StartDate := ""; Stats_EndDate := "" |}.

(** *** OneLink management *)

(** [OneLinkStatsRequest] includes parameters for OneLink stats.  (Its
    fields are prefixed, as those of [StatsRequest].) *)
Record OneLinkStatsRequest := {
  OneLink_ShortURL : string;
  OneLink_StartDate : string;
  OneLink_EndDate : string
}.

(** [OneLinkStats] represents OneLink statistics. *)
Definition OneLinkStats : gotype := TStruct [
  Field "Clicks" "clicks" false TInt;
  Field "UniqueClicks" "unique_clicks" false TInt;
  Field "TotalQRScans" "total_qr_scans" false TInt;
  Field "Browsers" "browsers" false (TSlice (TMap TInterface));
  Field "Countries" "countries" false (TSlice (TMap TInterface));
  Field "Cities" "cities" false (TSlice (TMap TInterface));
  Field "Referrers" "referrers" false (TSlice (TMap TInterface));
  Field "Platforms" "platforms" false (TSlice (TMap TInterface));
  Field "DailyClicks" "daily_clicks" false (TSlice (TMap TInterface));
  Field "LinkClicks" "link_clicks" false (TSlice (TMap TInterface));
  Field "Data" "data" false (TMap TInterface) ].

Definition GetOneLinkStats (c : Client) (reqData : OneLinkStatsRequest)
  : M govalue :=
  let query : Values := ∅ in
  let query := Values_Set query "short_url" (OneLink_ShortURL reqData) in
  let query :=
    if nonempty (OneLink_StartDate reqData)
    then Values_Set query "start_date" (OneLink_StartDate reqData) else query in
  let query :=
    if nonempty (OneLink_EndDate reqData)
    then Values_Set query "end_date" (OneLink_EndDate reqData) else query in
  let stats := zero OneLinkStats in
  r ← doRequest c http.MethodGet "/api/v1/onelink/stats" (Some query) VNil
         (ResultJSON OneLinkStats stats);
  mret (value_at r).

Definition DeleteOneLinkStats (c : Client) (shortURL : string) : M unit :=
  let reqBody := VIface (TMap TString) (VMap [("short_url", VString shortURL)]) in
  _ ← doRequest c http.MethodDelete "/api/v1/onelink/stat" None reqBody ResultNil;
  mret ().

(** [OneLink] represents a OneLink item. *)
Definition OneLink : gotype := TStruct [
  Field "ID" "id" false TInt;
  Field "ShortID" "short_id" false TString;
  Field "ShortURL" "short_url" false TString;
  Field "Domain" "domain" false TString;
  Field "Title" "title" false TString;
  Field "Description" "description" false TString;
  Field "AvatarURL" "avatar_url" false TString;
  Field "Meta" "meta" false TInterface;
  Field "CreatedAt" "created_at" false TString;
  Field "UpdatedAt" "updated_at" false TString;
  Field "LastClicked" "last_clicked" true TString ].

(** [OneLinkListResponse] is a paginated OneLink response. *)
Definition OneLinkListResponse : gotype := TStruct [
  Field "CurrentPage" "current_page" false TInt;
  Field "Data" "data" false (TSlice OneLink);
  Field "LastPage" "last_page" true TInt;
  Field "PerPage" "per_page" true TInt;
  Field "Total" "total" true TInt ].

Definition ListOneLinks (c : Client) (page : Z) : M govalue :=
  let query : Values := ∅ in
  let query :=
    if 0 <? page then Values_Set query "page" (Itoa page) else query in
  let result := zero OneLinkListResponse in
  r ← doRequest c http.MethodGet "/api/v1/onelink/list" (Some query) VNil
         (ResultJSON OneLinkListResponse result);
  mret (value_at r).

(** *** UTM preset management *)

(** [UTMPreset] represents a UTM preset object. *)
Definition UTMPreset : gotype := TStruct [
  Field "ID" "id" false TInt;
  Field "Name" "name" false TString;
  Field "Source" "source" false TString;
  Field "Medium" "medium" false TString;
  Field "Campaign" "campaign" false TString;
  Field "Content" "content" false TString;
  Field "Term" "term" false TString;
  Field "CreatedAt" "created_at" false TString;
  Field "UpdatedAt" "updated_at" false TString ].

(** [UTMPresetRequest] is used to create/update a UTM preset. *)
Definition UTMPresetRequest : gotype := TStruct [
  Field "Name" "name" false TString;
  Field "Source" "source" false TString;
  Field "Medium" "medium" false TString;
  Field "Campaign" "campaign" false TString;
  Field "Content" "content" false TString;
  Field "Term" "term" false TString ].

(** The anonymous [struct { Data UTMPreset `json:"data"` }] of
    [decodeUTMPreset]. *)
Definition wrapped_UTMPreset : gotype :=
  TStruct [ Field "Data" "data" false UTMPreset ].

Definition decodeUTMPreset (data : string) : result govalue :=
  let preset := zero UTMPreset in
  match Unmarshal data UTMPreset preset with
  | Ok preset => Ok preset
  | Err _ =>
      let wrapped := zero wrapped_UTMPreset in
      match Unmarshal data wrapped_UTMPreset wrapped with
      | Ok wrapped => Ok (select wrapped_UTMPreset wrapped "Data")
      | Err _ => Err (Errorf "unable to decode UTM preset response")
      end
  end.

Definition CreateUTMPreset (c : Client) (reqData : govalue) : M govalue :=
  data ← doRequestRaw c http.MethodPost "/api/v1/link/utm-preset" None
           (VIface UTMPresetRequest reqData);
  lift (decodeUTMPreset data).

(** The anonymous [struct { Data []UTMPreset `json:"data"` }] of
    [ListUTMPresets]. *)
Definition wrapped_UTMPresets : gotype :=
  TStruct [ Field "Data" "data" false (TSlice UTMPreset) ].

(** What [ListUTMPresets] does with the bytes it received (the part of the
    method after the call). *)
Definition ListUTMPresets_decode (data : string) : result govalue :=
  let presets := zero (TSlice UTMPreset) in
  match Unmarshal data (TSlice UTMPreset) presets with
  | Ok presets => Ok presets
  | Err _ =>
      let wrapped := zero wrapped_UTMPresets in
      match Unmarshal data wrapped_UTMPresets wrapped with
      | Ok wrapped => Ok (select wrapped_UTMPresets wrapped "Data")
      | Err _ => Err (Errorf "unable to decode UTM preset list response")
      end
  end.

Definition ListUTMPresets (c : Client) : M govalue :=
  data ← doRequestRaw c http.MethodGet "/api/v1/link/utm-preset" None VNil;
  lift (ListUTMPresets_decode data).

Definition GetUTMPreset (c : Client) (id : Z) : M govalue :=
  let path := "/api/v1/link/utm-preset/" +:+ Itoa id in
  data ← doRequestRaw c http.MethodGet path None VNil;
  lift (decodeUTMPreset data).

Definition UpdateUTMPreset (c : Client) (id : Z) (reqData : govalue)
  : M govalue :=
  let path := "/api/v1/link/utm-preset/" +:+ Itoa id in
  data ← doRequestRaw c http.MethodPut path None
           (VIface UTMPresetRequest reqData);
  lift (decodeUTMPreset data).

Definition DeleteUTMPreset (c : Client) (id : Z) : M unit :=
  let path := "/api/v1/link/utm-preset/" +:+ Itoa id in
  _ ← doRequest c http.MethodDelete path None VNil ResultNil;
  mret ().

(** *** QR code management *)

(** [QRCodeRequest] includes query options for retrieving a QR code.
    (The field [ShortURL] is prefixed.) *)
Record QRCodeRequest := {
  QR_ShortURL : string;
  Output : string;
  Format : string
}.

(** [GetQRCode] retrieves QR code bytes (image or raw payload based on
    output parameter). *)
Definition GetQRCode (c : Client) (reqData : QRCodeRequest) : M string :=
  let query : Values := ∅ in
  let query := Values_Set query "short_url" (QR_ShortURL reqData) in
  let query :=
    if nonempty (Output reqData)
    then Values_Set query "output" (Output reqData) else query in
  let query :=
    if nonempty (Format reqData)
    then Values_Set query "format" (Format reqData) else query in
  doRequestRaw c http.MethodGet "/api/v1/link/qr-code" (Some query) VNil.

(** [QRCodeUpdateRequest] includes QR code customization options. *)
Definition QRCodeUpdateRequest : gotype := TStruct [
  Field "ShortURL" "short_url" false TString;
  Field "Image" "image" true (TPtr TString);
  Field "BackgroundColor" "background_color" true (TPtr TString);
  Field "CornerDotsColor" "corner_dots_color" true (TPtr TString);
  Field "DotsColor" "dots_color" true (TPtr TString);
  Field "DotsStyle" "dots_style" true (TPtr TString);
  Field "CornerStyle" "corner_style" true (TPtr TString) ].

(** [QRCode] represents a QR code record. *)
Definition QRCode : gotype := TStruct [
  Field "ID" "id" false TInt;
  Field "ShortURL" "short_url" false TString;
  Field "QRCodeOptions" "qr_code_options" false (TMap TInterface);
  Field "TeamID" "team_id" false TInt;
  Field "UserID" "user_id" false TInt;
  Field "UpdatedAt" "updated_at" false TString ].

Definition UpdateQRCode (c : Client) (reqData : govalue) : M govalue :=
  let qrCode := zero QRCode in
  r ← doRequest c http.MethodPut "/api/v1/link/qr-code" None
         (VIface QRCodeUpdateRequest reqData) (ResultJSON QRCode qrCode);
  mret (value_at r).

(** *** Tag management *)

(** [Tag] represents a tag. *)
Definition Tag : gotype := TStruct [
  Field "ID" "id" false TInt;
  Field "Tag" "tag" false TString;
  Field "CreatedAt" "created_at" false TString;
  Field "UpdatedAt" "updated_at" false TString ].

Definition ListTags (c : Client) : M govalue :=
  let tags := zero (TSlice Tag) in
  r ← doRequest c http.MethodGet "/api/v1/link/tag" None VNil
         (ResultJSON (TSlice Tag) tags);
  mret (value_at r).

Definition CreateTag (c : Client) (tagValue : string) : M govalue :=
  let reqBody := VIface (TMap TString) (VMap [("tag", VString tagValue)]) in
  let tag := zero Tag in
  r ← doRequest c http.MethodPost "/api/v1/link/tag" None reqBody
         (ResultJSON Tag tag);
  mret (value_at r).

Definition GetTag (c : Client) (id : Z) : M govalue :=
  let path := "/api/v1/link/tag/" +:+ Itoa id in
  let tag := zero Tag in
  r ← doRequest c http.MethodGet path None VNil (ResultJSON Tag tag);
  mret (value_at r).

Definition UpdateTag (c : Client) (id : Z) (tagValue : string) : M govalue :=
  let path := "/api/v1/link/tag/" +:+ Itoa id in
  let reqBody := VIface (TMap TString) (VMap [("tag", VString tagValue)]) in
  let tag := zero Tag in
  r ← doRequest c http.MethodPut path None reqBody (ResultJSON Tag tag);
  mret (value_at r).

Definition DeleteTag (c : Client) (id : Z) : M unit :=
  let path := "/api/v1/link/tag/" +:+ Itoa id in
  _ ← doRequest c http.MethodDelete path None VNil ResultNil;
  mret ().

(** ** Definitions used in the statements *)

(** [s] between double quotes. *)
Definition quoted (s : string) : string := String dquote (s +:+ ch dquote).

(** The URL [doRequestRaw] builds. *)
Definition requestURL (c : Client) (path : string) (query : option Values)
  : string :=
  TrimRight (BaseURL c) "/" +:+ path +:+
  match query with
  | Some query => if (0 <? size query)%nat then "?" +:+ Encode query else ""
  | None => ""
  end.

(** The request [doRequestRaw] hands to the transport for a method, a URL
    and a body: the three headers are set on it, and an empty method has
    become GET. *)
Definition outgoing (c : Client) (method url body : string) : http.Request :=
  {| http.Method := if String.eqb method "" then "GET" else method;
     http.URL := url;
     http.Header :=
       <["Accept" := ["application/json"]]>
         (<["Content-Type" := ["application/json"]]>
            (<["Authorization" := ["Bearer " +:+ APIKey c]]> ∅));
     http.Body := body |}.

(** The request body: empty for a nil [body], its JSON otherwise. *)
Definition body_bytes (body : govalue) : result string :=
  match body with
  | VNil => Ok ""
  | _ => Marshal body
  end.

(** How [doRequestRaw] classifies what came back from the transport. *)
Definition classify (r : result http.Response) : result string :=
  resp ← r;
  data ← http.ReadAll resp;
  if (http.StatusCode resp <? 200) || (300 <=? http.StatusCode resp)
  then Err (ErrAPI {| StatusCode := http.StatusCode resp; Body := data |})
  else Ok data.

(** A client for examples: the production base URL, a given transport. *)
Definition example_client (transport : http.Client) : Client :=
  NewClient transport "secret".

(** A transport that answers every request with the same status and body. *)
Definition always (code : Z) (body : string) : http.Client :=
  {| http.Do := fun _ => Ok {| http.StatusCode := code; http.ReadAll := Ok body |} |}.

(** The members the struct encoder writes for the values [vs] of the fields
    [fs], each with its encoded value or the error of encoding it. *)
Fixpoint struct_members (vs : list govalue) (fs : list field)
  : list (result (string * string)) :=
  match vs, fs with
  | v :: vs, Field _ name omitempty t :: fs =>
      if omitempty && isEmptyValue v then struct_members vs fs
      else (e ← marshal v t; Ok (name, e)) :: struct_members vs fs
  | _, _ => []
  end.

(** The keys of those members. *)
Fixpoint written_keys (vs : list govalue) (fs : list field) : list string :=
  match vs, fs with
  | v :: vs, Field _ name omitempty _ :: fs =>
      if omitempty && isEmptyValue v then written_keys vs fs
      else name :: written_keys vs fs
  | _, _ => []
  end.

(** The create and update request structs of the client, with the entry
    structs of the bulk requests. *)
Definition request_structs : list gotype := [
  PixelCreateRequest; PixelUpdateRequest;
  ShortLinkCreateRequest; ShortLinkUpdateRequest; ExpandRequest;
  BulkShortenLink; BulkShortenRequest; BulkUpdateLink; BulkUpdateRequest;
  UTMPresetRequest; QRCodeUpdateRequest ].

(** The tags of a struct are in order when no two fields share a JSON name
    and the zero value of every [omitempty] field counts as empty. *)
Definition tags_ok (fs : list field) : bool :=
  bool_decide (NoDup (field_json <$> fs))
  && forallb (fun f => implb (field_omitempty f) (isEmptyValue (zero (field_type f)))) fs.

(** The short link of the scenario: only the long URL and the domain are
    set. *)
Definition example_link : govalue :=
  literal ShortLinkCreateRequest
    [("LongURL", VString "https://example.com"); ("Domain", VString "t.ly")].

Definition example_link_body : string :=
  "{" +:+ quoted "long_url" +:+ ":" +:+ quoted "https://example.com" +:+ ","
  +:+ quoted "domain" +:+ ":" +:+ quoted "t.ly" +:+ "}".

(** The keys of a JSON text that is an object. *)
Definition object_keys (data : string) : option (list string) :=
  match parse data with
  | Some (JObject m) => Some (m.*1)
  | _ => None
  end.

(** The bytes of the scenarios of UTM preset decoding. *)
Definition preset_bytes : string :=
  "{" +:+ quoted "id" +:+ ":1," +:+ quoted "name" +:+ ":" +:+ quoted "x" +:+ "}".
Definition wrapped_preset_bytes : string :=
  "{" +:+ quoted "data" +:+ ":" +:+ preset_bytes +:+ "}".
Definition wrapped_list_bytes : string :=
  "{" +:+ quoted "data" +:+ ":[" +:+ preset_bytes +:+ "]}".
Definition foo_bytes : string := "{" +:+ quoted "foo" +:+ ":1}".

(** The preset with identifier 1 and name [x]. *)
Definition preset_x : govalue :=
  literal UTMPreset [("ID", VInt 1); ("Name", VString "x")].

(** A preset answer whose [id] is a string and which also has a [data]
    member: the bytes fail to decode as a preset and decode as a wrapper. *)
Definition mistyped_wrapped_bytes : string :=
  "{" +:+ quoted "id" +:+ ":" +:+ quoted "7" +:+ "," +:+ quoted "data" +:+ ":"
  +:+ preset_bytes +:+ "}".

(** [http.NewRequest] accepting every method and URL. *)
Definition no_rejection : string -> string -> option string := fun _ _ => None.

(** The query [ListShortLinksDetailed] builds from its options. *)
Definition ListShortLinksDetailed_query (options : ListShortLinksOptions)
  : Values :=
  let query : Values := ∅ in
  let query :=
    if nonempty (Search options) then Values_Set query "search" (Search options)
    else query in
  let query := addIndexedIntSlice query "tag_ids" (TagIDs options) in
  let query := addIndexedIntSlice query "pixel_ids" (PixelIDs options) in
  let query :=
    if nonempty (StartDate options)
    then Values_Set query "start_date" (StartDate options) else query in
  let query :=
    if nonempty (EndDate options)
    then Values_Set query "end_date" (EndDate options) else query in
  let query := addIndexedIntSlice query "domains" (Domains options) in
  if 0 <? Page options then Values_Set query "page" (Itoa (Page options))
  else query.

(** A body made of ASCII white space only: space, tab, line feed, vertical
    tab, form feed, carriage return. *)
Definition blank (data : string) : bool :=
  forallb (fun c => in_range 9 13 c || (byte_val c =? 32)) (bytes_of_string data).

(** A body of spaces, a line feed and a tab. *)
Definition blank_body : string := "  " +:+ ch (byte_of 10) +:+ ch (byte_of 9).

(** A create request whose [Meta] holds a channel, which [json.Marshal]
    rejects. *)
Definition chan_link : govalue :=
  literal ShortLinkCreateRequest
    [("LongURL", VString "https://example.com"); ("Meta", VIface TChan VChan)].

(** The field values of [example_link]. *)
Definition example_link_fields : list govalue :=
  match example_link with VStruct vs => vs | _ => [] end.

(** The QR code request of the scenario: format [eps], no output. *)
Definition qr_eps : QRCodeRequest :=
  {| QR_ShortURL := "https://t.ly/abc"; Output := ""; Format := "eps" |}.

(** List options with the tag filter [[5, 9]] and nothing else. *)
Definition tag_filter : ListShortLinksOptions :=
  {| Search := ""; TagIDs := [5; 9]; PixelIDs := []; StartDate := "";
     EndDate := ""; Domains := []; Page := 0 |}.

(** A client whose base URL was overridden with one that ends in a slash. *)
Definition slash_client (transport : http.Client) : Client :=
  {| APIKey := "secret"; BaseURL := "https://api.t.ly/"; HTTP := transport |}.

(** *** Transports and inputs of further examples *)

(** A transport that cannot connect. *)
Definition refusing : http.Client :=
  {| http.Do := fun _ => Err (ErrTransport "connection refused") |}.

(** A transport whose answer has the given status and a body that cannot
    be read to the end. *)
Definition unreadable (code : Z) : http.Client :=
  {| http.Do := fun _ =>
       Ok {| http.StatusCode := code; http.ReadAll := Err (ErrRead "unexpected EOF") |} |}.

(** [http.NewRequest] rejecting every method and URL. *)
Definition reject_all : string -> string -> option string :=
  fun _ _ => Some "invalid URL".

(** The fields of [UTMPreset]. *)
Definition UTMPreset_fields : list field :=
  match UTMPreset with TStruct fs => fs | _ => [] end.

(** A client like [c] whose base URL has one more slash at its end. *)
Definition with_slash (c : Client) : Client :=
  {| APIKey := APIKey c; BaseURL := BaseURL c +:+ "/"; HTTP := HTTP c |}.


(** The text of a query with a short URL and an optional date range, as it
    is written: the keys in byte order. *)
Definition range_query (shortURL startDate endDate : string) : string :=
  (if nonempty endDate then "end_date=" +:+ QueryEscape endDate +:+ "&" else "")
  +:+ "short_url=" +:+ QueryEscape shortURL
  +:+ (if nonempty startDate then "&start_date=" +:+ QueryEscape startDate else "").

(** A UTM preset request with only its name set. *)
Definition named_preset : govalue :=
  literal UTMPresetRequest [("Name", VString "x")].

(** A bulk shorten request with only its domain set. *)
Definition bulk_without_links : govalue :=
  literal BulkShortenRequest [("Domain", VString "t.ly")].


(** The text of the query of [GetQRCode], as it is written: the keys in
    byte order. *)
Definition qr_query (reqData : QRCodeRequest) : string :=
  (if nonempty (Format reqData)
   then "format=" +:+ QueryEscape (Format reqData) +:+ "&" else "")
  +:+ (if nonempty (Output reqData)
       then "output=" +:+ QueryEscape (Output reqData) +:+ "&" else "")
  +:+ "short_url=" +:+ QueryEscape (QR_ShortURL reqData).


(** The fields of a struct type and the field values of a struct value. *)
Definition fields_of (t : gotype) : list field :=
  match t with TStruct fs => fs | _ => [] end.
Definition values_of (v : govalue) : list govalue :=
  match v with VStruct vs => vs | _ => [] end.

(** List options with nothing set and a negative page. *)
Definition no_filter : ListShortLinksOptions :=
  {| Search := ""; TagIDs := []; PixelIDs := []; StartDate := "";
     EndDate := ""; Domains := []; Page := -1 |}.

(** The body of [named_preset]. *)
Definition named_preset_body : string :=
  "{" +:+ quoted "name" +:+ ":" +:+ quoted "x" +:+ ","
  +:+ quoted "source" +:+ ":" +:+ quoted "" +:+ ","
  +:+ quoted "medium" +:+ ":" +:+ quoted "" +:+ ","
  +:+ quoted "campaign" +:+ ":" +:+ quoted "" +:+ ","
  +:+ quoted "content" +:+ ":" +:+ quoted "" +:+ ","
  +:+ quoted "term" +:+ ":" +:+ quoted "" +:+ "}".

(** The bytes of a tag answer. *)
Definition tag_bytes : string :=
  "{" +:+ quoted "id" +:+ ":3," +:+ quoted "tag" +:+ ":" +:+ quoted "news" +:+ "}".

(** A QR code request with an output and a format. *)
Definition qr_base64 : QRCodeRequest :=
  {| QR_ShortURL := "https://t.ly/abc"; Output := "base64"; Format := "eps" |}.

(** An update of a short link that sets nothing but the short URL. *)
Definition bare_update : govalue :=
  literal ShortLinkUpdateRequest [("ShortURL", VString "https://t.ly/abc")].


(** *** Answers, kept fields and further inputs *)

(** The request of a method to a URL with a body is built, the transport
    answers it with [resp], and the body of [resp] reads as [data]. *)
Definition answered (c : Client) (method url body : string)
    (resp : http.Response) (data : string) : Prop :=
  NewRequest_rejects method url = None
  ∧ http.Do (HTTP c) (outgoing c method url body) = Ok resp
  ∧ http.ReadAll resp = Ok data.

(** The fields of a struct that the encoder does not leave out, each with
    its value: all but the [omitempty] fields whose value is empty. *)
Fixpoint kept (vs : list govalue) (fs : list field) : list (field * govalue) :=
  match vs, fs with
  | v :: vs, f :: fs =>
      if field_omitempty f && isEmptyValue v then kept vs fs
      else (f, v) :: kept vs fs
  | _, _ => []
  end.

(** A member is the JSON name of a field with the encoding of its value. *)
Definition member_of (m : string * string) (fv : field * govalue) : Prop :=
  fst m = field_json (fst fv)
  ∧ marshal (snd fv) (field_type (fst fv)) = Ok (snd m).

(** An update of a short link that sets the short URL, and the tags to the
    empty list. *)
Definition empty_tags_update : govalue :=
  literal ShortLinkUpdateRequest
    [("ShortURL", VString "https://t.ly/abc"); ("Tags", VSlice [])].

(** The body of [bare_update], and of [empty_tags_update]. *)
Definition bare_update_body : string :=
  "{" +:+ quoted "short_url" +:+ ":" +:+ quoted "https://t.ly/abc" +:+ ","
  +:+ quoted "long_url" +:+ ":" +:+ quoted "" +:+ "}".

(** The pairs of the scalar filters of a list request, as they are written:
    the keys in byte order. *)
Definition scalar_filters (options : ListShortLinksOptions) : list string :=
  (if nonempty (EndDate options)
   then ["end_date=" +:+ QueryEscape (EndDate options)] else [])
  ++ (if 0 <? Page options then ["page=" +:+ Itoa (Page options)] else [])
  ++ (if nonempty (Search options)
      then ["search=" +:+ QueryEscape (Search options)] else [])
  ++ (if nonempty (StartDate options)
      then ["start_date=" +:+ QueryEscape (StartDate options)] else []).

(** List options with a search text, an end date and a page. *)
Definition scalar_filter : ListShortLinksOptions :=
  {| Search := "a b"; TagIDs := []; PixelIDs := []; StartDate := "";
     EndDate := "2025-08-31"; Domains := []; Page := 2 |}.


(** *** Reading an encoded body back *)

(** What [scan_string] returns after it has read [out] and goes on. *)
Definition scan_more (out : string) (r : option (string * string)) :=
  match r with
  | Some (t, rest) => Some (out +:+ t, rest)
  | None => None
  end.

(** A string of ASCII bytes that the encoder writes as they are. *)
Definition plain (s : string) : bool :=
  forallb (fun b => (byte_val b <? 0x80) && htmlSafe b) (bytes_of_string s).

(** What may follow a value inside a JSON text: nothing, a comma, or a
    closing brace or bracket. *)
Definition follows (rest : string) : Prop :=
  rest = "" ∨ ∃ r, rest = String "," r ∨ rest = String "}" r ∨ rest = String "]" r.

(** A string of decimal digits. *)
Definition all_digits (d : string) : bool := forallb is_digit (bytes_of_string d).

(** A value holds no floating-point number. *)
Fixpoint no_float (v : govalue) : bool :=
  match v with
  | VFloat64 _ => false
  | VPtr v | VIface _ v => no_float v
  | VSlice l | VSliceCap l _ | VStruct l => forallb no_float l
  | VMap m => forallb (fun kv => no_float (snd kv)) m
  | _ => true
  end.

(** How deep the arrays and objects of the encoding of a value nest. *)
Fixpoint nesting (v : govalue) : Z :=
  match v with
  | VPtr v | VIface _ v => nesting v
  | VSlice l | VSliceCap l _ | VStruct l =>
      1 + foldr (fun v n => Z.max (nesting v) n) 0 l
  | VMap m => 1 + foldr (fun kv n => Z.max (nesting (snd kv)) n) 0 m
  | _ => 0
  end.

(** A text whose first byte is neither white space nor a closing
    bracket. *)
Definition starts_value (e : string) : Prop :=
  match e with
  | String c _ => isSpace c = false ∧ Ascii.eqb c "]" = false
  | "" => False
  end.

(** The text [e] is read by the scanner as one value, at a given depth,
    whatever follows it. *)
Definition readable (depth : Z) (e : string) : Prop :=
  starts_value e
  ∧ ∀ rest fuel, follows rest -> (String.length e < fuel)%nat ->
      ∃ j, parse_value fuel depth (e +:+ rest) = Some (j, rest).

(** Every value without floating-point numbers that nests within the
    limit of the scanner is encoded to a text the scanner reads. *)
Definition encodes_readable (v : govalue) : Prop :=
  ∀ t e depth, marshal v t = Ok e -> no_float v = true ->
    depth + nesting v <= maxNestingDepth -> readable depth e.

(** ** Properties of the dispatch core *)

Lemma append_cons a (s t : string) : String a s +:+ t = String a (s +:+ t).
Proof. reflexivity. Qed.

Lemma byte_val_inv (c : ascii) (n : Z) :
  byte_val c = n -> c = ascii_of_N (Z.to_N n).
Proof.
  intros <-. unfold byte_val. by rewrite N2Z.id, ascii_N_embedding.
Qed.

Lemma append_empty_r (s : string) : s +:+ "" = s.
Proof. induction s as [|a s IH]; [done | by rewrite append_cons, IH]. Qed.

Lemma append_assoc (s1 s2 s3 : string) : (s1 +:+ s2) +:+ s3 = s1 +:+ s2 +:+ s3.
Proof. induction s1 as [|a s1 IH]; [done | by rewrite !append_cons, IH]. Qed.

(** [doRequestRaw], step by step: the body is encoded, the request is
    built, and only then is it sent, once. *)
Lemma doRequestRaw_run c method path query body sent :
  doRequestRaw c method path query body sent =
  match body_bytes body with
  | Err e => (Err e, sent)
  | Ok reqBody =>
      match NewRequest_rejects method (requestURL c path query) with
      | Some msg => (Err (ErrNewRequest msg), sent)
      | None =>
          let req := outgoing c method (requestURL c path query) reqBody in
          (classify (http.Do (HTTP c) req), sent ++ [req])
      end
  end.
Proof.
  unfold doRequestRaw.
  assert (Hbody : match body with
                  | VNil => (mret "" : M string)
                  | _ => lift (Marshal body)
                  end = lift (body_bytes body)) by (by destruct body).
  rewrite Hbody. clear Hbody.
  match goal with
  | |- context [NewRequest method ?u] =>
      replace u with (requestURL c path query)
  end.
  2:{ unfold requestURL. destruct query as [q|]; [destruct (0 <? size q)%nat|];
      by rewrite ?append_assoc, ?append_empty_r. }
  generalize (requestURL c path query). intros url.
  unfold mbind, M_bind, lift, send, NewRequest, mret, M_ret.
  destruct (body_bytes body) as [reqBody|e]; [|done].
  destruct (NewRequest_rejects method url) as [msg|]; [done|].
  unfold classify, outgoing, http.Header_Set. simpl.
  destruct (http.Do (HTTP c) _) as [resp|e]; [|done]. simpl.
  destruct (http.ReadAll resp) as [data|e]; [|done]. simpl.
  by destruct ((http.StatusCode resp <? 200) || (300 <=? http.StatusCode resp)).
Qed.

Lemma Marshal_fails_not_nil body e : Marshal body = Err e -> body_bytes body = Err e.
Proof. by destruct body. Qed.

(** [doRequest] passes every error of [doRequestRaw] on, with the same
    requests sent. *)
Lemma doRequest_error c method path query body result sent e sent' :
  doRequestRaw c method path query body sent = (Err e, sent') ->
  doRequest c method path query body result sent = (Err e, sent').
Proof. intros H. unfold doRequest, mbind, M_bind. by rewrite H. Qed.

(** What [doRequest] does with the bytes of a successful call. *)
Lemma doRequest_ok c method path query body result sent data sent' :
  doRequestRaw c method path query body sent = (Ok data, sent') ->
  doRequest c method path query body result sent =
  match result with
  | ResultNil => (Ok result, sent')
  | ResultBytes _ =>
      if (String.length (TrimSpace data) =? 0)%nat then (Ok result, sent')
      else (Ok (ResultBytes data), sent')
  | ResultJSON t cur =>
      if (String.length (TrimSpace data) =? 0)%nat then (Ok result, sent')
      else (v ← Unmarshal data t cur; Ok (ResultJSON t v), sent')
  end.
Proof.
  intros H. unfold doRequest, mbind at 1, M_bind at 1. rewrite H.
  destruct result as [|cur|t cur]; [done| |];
    destruct (String.length (TrimSpace data) =? 0)%nat; try done.
  unfold mbind, M_bind, lift, mret, M_ret, result_bind.
  by destruct (Unmarshal data t cur).
Qed.

(** The outcome of [doRequestRaw] once a response has come back and its
    body has been read. *)
Lemma doRequestRaw_answer c method path query body sent reqBody resp data :
  body_bytes body = Ok reqBody ->
  NewRequest_rejects method (requestURL c path query) = None ->
  http.Do (HTTP c) (outgoing c method (requestURL c path query) reqBody) = Ok resp ->
  http.ReadAll resp = Ok data ->
  doRequestRaw c method path query body sent =
  (if (http.StatusCode resp <? 200) || (300 <=? http.StatusCode resp)
   then Err (ErrAPI {| StatusCode := http.StatusCode resp; Body := data |})
   else Ok data,
   sent ++ [outgoing c method (requestURL c path query) reqBody]).
Proof.
  intros Hbody Hreq Hdo Hread.
  rewrite doRequestRaw_run, Hbody, Hreq. simpl. rewrite Hdo.
  unfold classify. simpl. by rewrite Hread.
Qed.

(** C2. Once a response has come back (the body was encoded, the request
    built, the transport answered and the response body was read), a status
    code outside 200-299 makes [doRequestRaw], and so [doRequest] whatever
    its result shape, fail with the [APIError] that carries exactly that
    status code and exactly the bytes read; a status code in 200-299 makes
    [doRequestRaw] succeed with exactly those bytes. *)
Theorem doRequestRaw_status c method path query body sent reqBody resp data :
  body_bytes body = Ok reqBody ->
  NewRequest_rejects method (requestURL c path query) = None ->
  http.Do (HTTP c) (outgoing c method (requestURL c path query) reqBody) = Ok resp ->
  http.ReadAll resp = Ok data ->
  let code := http.StatusCode resp in
  let err := ErrAPI {| StatusCode := code; Body := data |} in
  (code < 200 ∨ 300 <= code ->
     fst (doRequestRaw c method path query body sent) = Err err
     ∧ ∀ result, fst (doRequest c method path query body result sent) = Err err)
  ∧ (200 <= code < 300 ->
     fst (doRequestRaw c method path query body sent) = Ok data).
Proof.
  intros Hbody Hreq Hdo Hread code err.
  pose proof (doRequestRaw_answer c method path query body sent reqBody resp
                data Hbody Hreq Hdo Hread) as Hrun.
  fold code in Hrun. fold err in Hrun.
  split.
  - intros Hcode.
    assert ((code <? 200) || (300 <=? code) = true) as Hb.
    { apply orb_true_iff. destruct Hcode; [left; lia | right; lia]. }
    rewrite Hb in Hrun. split.
    + by rewrite Hrun.
    + intros result. by rewrite (doRequest_error _ _ _ _ _ result _ _ _ Hrun).
  - intros Hcode.
    assert ((code <? 200) || (300 <=? code) = false) as Hb.
    { apply orb_false_iff. split; lia. }
    rewrite Hb in Hrun. by rewrite Hrun.
Qed.

(** C6. A body whose JSON serialization fails makes [doRequestRaw] return
    that error at once: the requests sent so far are unchanged, so nothing
    went to the transport.  [doRequest] passes the same outcome on. *)
Theorem doRequestRaw_marshal_error c method path query body sent e :
  Marshal body = Err e ->
  doRequestRaw c method path query body sent = (Err e, sent)
  ∧ ∀ result, doRequest c method path query body result sent = (Err e, sent).
Proof.
  intros H%Marshal_fails_not_nil.
  assert (doRequestRaw c method path query body sent = (Err e, sent)) as Hrun.
  { by rewrite doRequestRaw_run, H. }
  split; [done|]. intros result. by apply doRequest_error.
Qed.

Lemma substring_all (s : string) : String.substring 0 (String.length s) s = s.
Proof. induction s as [|a s IH]; [done|]. simpl. by rewrite IH. Qed.

Lemma drop_bytes_1 a (s : string) : drop_bytes 1 (String a s) = s.
Proof.
  unfold drop_bytes. simpl. rewrite Nat.sub_0_r. destruct s as [|b s]; [done|].
  apply (substring_all (String b s)).
Qed.

(** A body of ASCII white space is trimmed to nothing. *)
Lemma TrimSpace_blank (data : string) :
  blank data = true -> TrimSpace data = "".
Proof.
  intros Hb. unfold TrimSpace.
  assert (TrimLeftFunc data IsSpace = "") as ->; [|done].
  unfold TrimLeftFunc. unfold blank in Hb.
  induction data as [|c data IH]; [done|].
  simpl in Hb. apply andb_prop in Hb as [Hc Hb].
  cbn [String.length TrimLeftFunc_go].
  assert (DecodeRune (String c data) = (byte_val c, 1%nat) ∧ IsSpace (byte_val c) = true)
    as [-> ->].
  { unfold in_range in Hc.
    assert (byte_val c = 9 ∨ byte_val c = 10 ∨ byte_val c = 11 ∨ byte_val c = 12
            ∨ byte_val c = 13 ∨ byte_val c = 32) as H by lia.
    unfold DecodeRune.
    destruct H as [H|[H|[H|[H|[H|H]]]]]; rewrite H; by split. }
  rewrite drop_bytes_1. by apply IH.
Qed.

(** C4. When the call succeeded and the response body is empty or white
    space only, [doRequest] with a typed result returns without error and
    leaves the result as the caller set it up, whatever its type: the body
    is not decoded. *)
Theorem doRequest_blank_body c method path query body t cur sent data sent' :
  doRequestRaw c method path query body sent = (Ok data, sent') ->
  blank data = true ∨ String.length (TrimSpace data) = 0%nat ->
  doRequest c method path query body (ResultJSON t cur) sent
  = (Ok (ResultJSON t cur), sent').
Proof.
  intros Hraw Hblank. rewrite (doRequest_ok _ _ _ _ _ _ _ _ _ Hraw).
  assert (String.length (TrimSpace data) = 0%nat) as ->; [|done].
  destruct Hblank as [Hb|Hb]; [by rewrite (TrimSpace_blank _ Hb)|done].
Qed.

(** C9, as amended. The request URL is the base URL without its trailing
    slashes, followed by the path; [?] and the encoded query follow exactly
    when the query has at least one key.  Every request [doRequestRaw]
    sends carries that URL, and without a query it contains nothing after
    the path. *)
Theorem doRequestRaw_url c method path query body sent :
  (snd (doRequestRaw c method path query body sent) = sent
   ∨ ∃ req, snd (doRequestRaw c method path query body sent) = sent ++ [req]
            ∧ http.URL req = requestURL c path query)
  ∧ requestURL c path None = TrimRight (BaseURL c) "/" +:+ path
  ∧ requestURL c path (Some ∅) = TrimRight (BaseURL c) "/" +:+ path
  ∧ ∀ q : Values, q ≠ ∅ ->
      requestURL c path (Some q)
      = TrimRight (BaseURL c) "/" +:+ path +:+ "?" +:+ Encode q.
Proof.
  split; [|split; [|split]].
  - rewrite doRequestRaw_run.
    destruct (body_bytes body); [|by left].
    destruct (NewRequest_rejects _ _); [by left|].
    right. eexists. split; [reflexivity|done].
  - unfold requestURL. by rewrite append_empty_r.
  - unfold requestURL. rewrite map_size_empty. simpl. by rewrite append_empty_r.
  - intros q Hq. unfold requestURL.
    assert (size q ≠ 0%nat) as Hs by (by intros ?%map_size_empty_inv).
    destruct (0 <? size q)%nat eqn:E; [done|].
    apply Nat.ltb_ge in E. lia.
Qed.

(** Decoding sends nothing: [doRequest] has sent what [doRequestRaw] sent. *)
Lemma doRequest_sent c method path query body result sent :
  snd (doRequest c method path query body result sent)
  = snd (doRequestRaw c method path query body sent).
Proof.
  destruct (doRequestRaw c method path query body sent) as [[data|e] sent'] eqn:E.
  - rewrite (doRequest_ok _ _ _ _ _ result _ _ _ E).
    destruct result as [|cur|t cur]; [done|by case_match|].
    case_match; [done|]. by destruct (Unmarshal data t cur).
  - by rewrite (doRequest_error _ _ _ _ _ result _ _ _ E).
Qed.

Lemma bind_ret_sent {A B} (m : M A) (f : A -> B) sent :
  snd ((x ← m; mret (f x)) sent) = snd (m sent).
Proof.
  unfold mbind, M_bind, mret, M_ret. by destruct (m sent) as [[a|e] sent'].
Qed.

(** The one request [doRequestRaw] sends when the body can be encoded and
    the request can be built. *)
Lemma doRequestRaw_sent c method path query body sent reqBody :
  body_bytes body = Ok reqBody ->
  NewRequest_rejects method (requestURL c path query) = None ->
  snd (doRequestRaw c method path query body sent)
  = sent ++ [outgoing c method (requestURL c path query) reqBody].
Proof. intros Hb Hr. by rewrite doRequestRaw_run, Hb, Hr. Qed.

(** ** Properties of the query encoding *)

Lemma bytes_of_string_app (s t : string) :
  bytes_of_string (s +:+ t) = bytes_of_string s ++ bytes_of_string t.
Proof. induction s as [|a s IH]; [done|]. rewrite append_cons. simpl. by f_equal. Qed.

Lemma bytes_of_string_inj (s t : string) :
  bytes_of_string s = bytes_of_string t -> s = t.
Proof.
  revert t. induction s as [|a s IH]; intros [|b t] H; simplify_eq/=; [done|].
  f_equal. by apply IH.
Qed.

Lemma append_inj_r (s s' t : string) : s +:+ t = s' +:+ t -> s = s'.
Proof.
  intros H. apply bytes_of_string_inj.
  apply (f_equal bytes_of_string) in H. rewrite !bytes_of_string_app in H.
  by apply app_inv_tail in H.
Qed.

(** The key [fmt.Sprintf] builds for an index determines the index. *)
Lemma indexed_key_inj key (i j : Z) :
  key +:+ "[" +:+ Itoa i +:+ "]" = key +:+ "[" +:+ Itoa j +:+ "]" -> i = j.
Proof.
  intros H. apply String.app_inj in H. apply (String.app_inj "[") in H.
  apply append_inj_r in H. unfold Itoa in H. by apply (inj pretty) in H.
Qed.

(** [addIndexedIntSlice] leaves a key alone that is not one of its indexed
    keys. *)
Lemma addIndexedIntSlice_from_other values : ∀ i0 (query : Values) key k,
  (∀ j, i0 <= j -> k ≠ key +:+ "[" +:+ Itoa j +:+ "]") ->
  addIndexedIntSlice_from i0 query key values !! k = query !! k.
Proof.
  induction values as [|v values IH]; intros i0 query key k Hk; [done|].
  simpl. rewrite IH.
  - unfold Values_Set. rewrite lookup_insert_ne; [done|].
    intros Heq. by apply (Hk i0); [lia|].
  - intros j Hj. apply Hk. lia.
Qed.

(** [addIndexedIntSlice] binds the key of index [i] to the [i]-th value. *)
Lemma addIndexedIntSlice_from_lookup values : ∀ i0 (query : Values) key i v,
  values !! i = Some v ->
  addIndexedIntSlice_from i0 query key values
    !! (key +:+ "[" +:+ Itoa (i0 + Z.of_nat i) +:+ "]") = Some [Itoa v].
Proof.
  induction values as [|v0 values IH]; intros i0 query key i v Hi; [done|].
  cbn [addIndexedIntSlice_from]. destruct i as [|i]; simpl in Hi.
  - simplify_eq. rewrite Z.add_0_r. rewrite addIndexedIntSlice_from_other.
    + unfold Values_Set. by rewrite lookup_insert_eq.
    + intros j Hj Heq. apply indexed_key_inj in Heq. lia.
  - replace (i0 + Z.of_nat (S i)) with (i0 + 1 + Z.of_nat i) by lia.
    by apply IH.
Qed.

(** Every binding of a query shows in [Encode_pairs] as its escaped
    [key=value] pair. *)
Lemma Encode_pairs_elem (v : Values) k xs x :
  v !! k = Some xs -> x ∈ xs ->
  QueryEscape k +:+ "=" +:+ QueryEscape x ∈ Encode_pairs v.
Proof.
  intros Hk Hx. unfold Encode_pairs. apply list_elem_of_bind.
  exists k. split.
  - rewrite (lookup_total_correct _ _ _ Hk).
    apply (list_elem_of_fmap_2 (λ x, QueryEscape k +:+ "=" +:+ QueryEscape x)), Hx.
  - unfold sorted_keys. rewrite merge_sort_Permutation.
    apply list_elem_of_fmap. exists (k, xs). split; [done|].
    by apply elem_of_map_to_list.
Qed.

Lemma QueryEscape_app (s t : string) :
  QueryEscape (s +:+ t) = QueryEscape s +:+ QueryEscape t.
Proof.
  induction s as [|a s IH]; [done|]. rewrite append_cons. simpl.
  destruct (Ascii.eqb a " "); [by rewrite IH|].
  destruct (shouldEscape a); by rewrite IH.
Qed.

(** A decimal numeral needs no escaping. *)
Lemma QueryEscape_digit (d : N) (s : string) :
  QueryEscape (String (pretty_N_char d) s) = String (pretty_N_char d) (QueryEscape s).
Proof. unfold pretty_N_char. by repeat case_match. Qed.

Lemma QueryEscape_pretty_N_go (x : N) : ∀ s,
  QueryEscape s = s -> QueryEscape (pretty_N_go x s) = pretty_N_go x s.
Proof.
  induction (N.lt_wf_0 x) as [x _ IH]; intros s Hs.
  assert (x = 0 ∨ 0 < x)%N as [->|?] by lia; [by rewrite pretty_N_go_0|].
  rewrite pretty_N_go_step by done. apply IH.
  - by apply N.div_lt.
  - by rewrite QueryEscape_digit, Hs.
Qed.

Lemma QueryEscape_Itoa (i : Z) : QueryEscape (Itoa i) = Itoa i.
Proof.
  assert (∀ p : positive, QueryEscape (pretty p) = pretty p) as Hp.
  { intros p. unfold pretty, pretty_positive, pretty, pretty_N.
    case_decide; [done|]. by apply QueryEscape_pretty_N_go. }
  unfold Itoa, pretty, pretty_Z. destruct i as [|p|p]; [done|apply Hp|].
  rewrite QueryEscape_app, Hp. done.
Qed.

(** The escaped form of an indexed key: the brackets are percent-encoded. *)
Lemma QueryEscape_indexed_key key (i : Z) :
  QueryEscape (key +:+ "[" +:+ Itoa i +:+ "]")
  = QueryEscape key +:+ "%5B" +:+ Itoa i +:+ "%5D".
Proof. by rewrite !QueryEscape_app, QueryEscape_Itoa. Qed.

(** A binding survives the later steps of a query that use other keys. *)
Lemma Values_Set_if_other (b : bool) (query : Values) k v k' :
  k ≠ k' -> (if b then Values_Set query k v else query) !! k' = query !! k'.
Proof. intros H. destruct b; [|done]. unfold Values_Set. by rewrite lookup_insert_ne. Qed.

Lemma addIndexedIntSlice_other (query : Values) key values k :
  (∀ j, k ≠ key +:+ "[" +:+ Itoa j +:+ "]") ->
  addIndexedIntSlice query key values !! k = query !! k.
Proof. intros H. apply addIndexedIntSlice_from_other. intros j _. apply H. Qed.

Lemma addIndexedIntSlice_lookup (query : Values) key values i v :
  values !! i = Some v ->
  addIndexedIntSlice query key values
    !! (key +:+ "[" +:+ Itoa (Z.of_nat i) +:+ "]") = Some [Itoa v].
Proof.
  intros Hi. unfold addIndexedIntSlice.
  by rewrite <- (addIndexedIntSlice_from_lookup values 0 query key i v Hi).
Qed.

(** Two keys that differ within their literal prefixes. *)
Ltac distinct_keys :=
  repeat intro;
  match goal with
  | H : _ = _ |- False => rewrite ?append_cons in H; discriminate H
  end.

(** [ListShortLinksDetailed] is its query handed to [doRequest]. *)
Lemma ListShortLinksDetailed_unfold c options :
  ListShortLinksDetailed c options =
  (r ← doRequest c http.MethodGet "/api/v1/link/list"
         (Some (ListShortLinksDetailed_query options)) VNil
         (ResultJSON ShortLinkListResponse (zero ShortLinkListResponse));
   mret (value_at r)).
Proof. reflexivity. Qed.

(** The three filters of [ListShortLinksDetailed] keep their bindings up to
    the end of the query. *)
Lemma ListShortLinksDetailed_query_lookup options i v :
  (TagIDs options !! i = Some v ->
   ListShortLinksDetailed_query options
     !! ("tag_ids" +:+ "[" +:+ Itoa (Z.of_nat i) +:+ "]") = Some [Itoa v])
  ∧ (PixelIDs options !! i = Some v ->
     ListShortLinksDetailed_query options
       !! ("pixel_ids" +:+ "[" +:+ Itoa (Z.of_nat i) +:+ "]") = Some [Itoa v])
  ∧ (Domains options !! i = Some v ->
     ListShortLinksDetailed_query options
       !! ("domains" +:+ "[" +:+ Itoa (Z.of_nat i) +:+ "]") = Some [Itoa v]).
Proof.
  unfold ListShortLinksDetailed_query. split; [|split]; intros Hi.
  - rewrite Values_Set_if_other by distinct_keys.
    rewrite addIndexedIntSlice_other by distinct_keys.
    rewrite !Values_Set_if_other by distinct_keys.
    rewrite addIndexedIntSlice_other by distinct_keys.
    by apply addIndexedIntSlice_lookup.
  - rewrite Values_Set_if_other by distinct_keys.
    rewrite addIndexedIntSlice_other by distinct_keys.
    rewrite !Values_Set_if_other by distinct_keys.
    by apply addIndexedIntSlice_lookup.
  - rewrite Values_Set_if_other by distinct_keys.
    by apply addIndexedIntSlice_lookup.
Qed.

Lemma Encode_pairs_indexed (query : Values) key i v :
  query !! (key +:+ "[" +:+ Itoa i +:+ "]") = Some [Itoa v] ->
  QueryEscape key +:+ "%5B" +:+ Itoa i +:+ "%5D" +:+ "=" +:+ Itoa v
  ∈ Encode_pairs query.
Proof.
  intros Hk.
  assert (Itoa v ∈ [Itoa v]) as Hin by apply list_elem_of_here.
  pose proof (Encode_pairs_elem _ _ _ _ Hk Hin) as H.
  rewrite QueryEscape_indexed_key, QueryEscape_Itoa in H.
  by rewrite !append_assoc in H.
Qed.

(** C3, as amended. [addIndexedIntSlice] binds, for each position [i] of
    the input, the key [key[i]] to the [i]-th value, in input order, and
    the encoded query holds for it the pair whose key has its brackets
    percent-encoded, [key%5Bi%5D=v].  So does the query of the URL that
    [ListShortLinksDetailed] requests, for its tag, pixel and domain
    filters.  Encoding [[5, 9]] under [tag_ids] gives exactly
    [tag_ids%5B0%5D=5&tag_ids%5B1%5D=9]. *)
Theorem addIndexedIntSlice_encoded (query : Values) key values i v :
  values !! i = Some v ->
  addIndexedIntSlice query key values
    !! (key +:+ "[" +:+ Itoa (Z.of_nat i) +:+ "]") = Some [Itoa v]
  ∧ QueryEscape key +:+ "%5B" +:+ Itoa (Z.of_nat i) +:+ "%5D" +:+ "=" +:+ Itoa v
    ∈ Encode_pairs (addIndexedIntSlice query key values)
  ∧ (∀ c options sent,
       let q := ListShortLinksDetailed_query options in
       let url := TrimRight (BaseURL c) "/" +:+ "/api/v1/link/list" +:+ "?"
                  +:+ Join (Encode_pairs q) "&" in
       (TagIDs options = values ->
          "tag_ids%5B" +:+ Itoa (Z.of_nat i) +:+ "%5D" +:+ "=" +:+ Itoa v
          ∈ Encode_pairs q)
       ∧ (PixelIDs options = values ->
          "pixel_ids%5B" +:+ Itoa (Z.of_nat i) +:+ "%5D" +:+ "=" +:+ Itoa v
          ∈ Encode_pairs q)
       ∧ (Domains options = values ->
          "domains%5B" +:+ Itoa (Z.of_nat i) +:+ "%5D" +:+ "=" +:+ Itoa v
          ∈ Encode_pairs q)
       ∧ (TagIDs options = values ∨ PixelIDs options = values
          ∨ Domains options = values ->
          NewRequest_rejects http.MethodGet url = None ->
          snd (ListShortLinksDetailed c options sent)
          = sent ++ [outgoing c "GET" url ""]))
  ∧ Encode (addIndexedIntSlice ∅ "tag_ids" [5; 9])
    = "tag_ids%5B0%5D=5&tag_ids%5B1%5D=9".
Proof.
  intros Hi.
  pose proof (addIndexedIntSlice_lookup query key values i v Hi) as Hk.
  split; [done|]. split; [by apply Encode_pairs_indexed|]. split; [|by vm_compute].
  intros c options sent q url.
  destruct (ListShortLinksDetailed_query_lookup options i v) as (Ht & Hp & Hd).
  split; [|split; [|split]].
  - intros Heq. rewrite <- Heq in Hi.
    apply (Encode_pairs_indexed q "tag_ids"), Ht, Hi.
  - intros Heq. rewrite <- Heq in Hi.
    apply (Encode_pairs_indexed q "pixel_ids"), Hp, Hi.
  - intros Heq. rewrite <- Heq in Hi.
    apply (Encode_pairs_indexed q "domains"), Hd, Hi.
  - intros Hsome Hreq.
    assert (q ≠ ∅) as Hq.
    { intros Hempty. subst q.
      destruct Hsome as [Heq|[Heq|Heq]]; rewrite <- Heq in Hi;
        [apply Ht in Hi|apply Hp in Hi|apply Hd in Hi];
        by rewrite Hempty, lookup_empty in Hi. }
    assert (requestURL c "/api/v1/link/list" (Some q) = url) as Hurl.
    { unfold requestURL.
      assert (size q ≠ 0%nat) as Hs by (by intros ?%map_size_empty_inv).
      destruct (0 <? size q)%nat eqn:E; [done|].
      apply Nat.ltb_ge in E. lia. }
    rewrite ListShortLinksDetailed_unfold, (bind_ret_sent _ value_at), doRequest_sent.
    fold q.
    rewrite (doRequestRaw_sent c http.MethodGet "/api/v1/link/list" (Some q)
               VNil sent "" eq_refl); by rewrite Hurl.
Qed.

(** ** Properties of the endpoint methods *)

(** C8, as amended. For a [QRCodeRequest] with format [eps] and no output,
    [GetQRCode] sends one GET whose query is
    [format=eps&short_url=<escaped short URL>]: the keys come in sorted
    order, and there is no [output] parameter.  When the response has a
    2xx status, the bytes read from it are returned as they are. *)
Theorem GetQRCode_eps c reqData sent :
  Format reqData = "eps" -> Output reqData = "" ->
  let url := TrimRight (BaseURL c) "/"
             +:+ "/api/v1/link/qr-code?format=eps&short_url="
             +:+ QueryEscape (QR_ShortURL reqData) in
  NewRequest_rejects http.MethodGet url = None ->
  snd (GetQRCode c reqData sent) = sent ++ [outgoing c http.MethodGet url ""]
  ∧ ∀ resp data,
      http.Do (HTTP c) (outgoing c http.MethodGet url "") = Ok resp ->
      http.ReadAll resp = Ok data ->
      200 <= http.StatusCode resp < 300 ->
      fst (GetQRCode c reqData sent) = Ok data.
Proof.
  destruct reqData as [shortURL output format]. simpl.
  intros -> -> Hreq. unfold GetQRCode. simpl.
  set (query := Values_Set (Values_Set ∅ "short_url" shortURL) "format" "eps").
  assert (requestURL c "/api/v1/link/qr-code" (Some query)
          = TrimRight (BaseURL c) "/"
            +:+ "/api/v1/link/qr-code?format=eps&short_url="
            +:+ QueryEscape shortURL) as Hurl by reflexivity.
  split.
  - rewrite (doRequestRaw_sent c http.MethodGet "/api/v1/link/qr-code"
               (Some query) VNil sent "" eq_refl); by rewrite Hurl.
  - intros resp data Hdo Hread Hcode.
    rewrite <- Hurl in Hreq, Hdo.
    rewrite (doRequestRaw_answer c _ _ _ VNil sent "" resp data eq_refl Hreq Hdo Hread).
    assert ((http.StatusCode resp <? 200) || (300 <=? http.StatusCode resp) = false)
      as -> by (apply orb_false_iff; split; lia).
    done.
Qed.

(** C7. [DeleteShortLink] sends one DELETE to [/api/v1/link], without a
    query, whose body is the JSON object with the one key [short_url] bound
    to the short URL; the pixel, tag and UTM preset deletes send a DELETE
    whose path ends in the numeric identifier and whose body is empty.
    Each of them holds when [http.NewRequest] accepts the URL of that one
    request. *)
Theorem delete_requests c sent :
  let base := TrimRight (BaseURL c) "/" in
  (∀ shortURL,
     NewRequest_rejects http.MethodDelete (base +:+ "/api/v1/link") = None ->
     snd (DeleteShortLink c shortURL sent)
     = sent ++ [outgoing c "DELETE" (base +:+ "/api/v1/link")
                  ("{" +:+ quoted "short_url" +:+ ":" +:+ appendString shortURL +:+ "}")])
  ∧ appendString "https://t.ly/abc" = quoted "https://t.ly/abc"
  ∧ (∀ id,
       NewRequest_rejects http.MethodDelete (base +:+ "/api/v1/link/pixel/" +:+ Itoa id)
       = None ->
       snd (DeletePixel c id sent)
       = sent ++ [outgoing c "DELETE" (base +:+ "/api/v1/link/pixel/" +:+ Itoa id) ""])
  ∧ (∀ id,
       NewRequest_rejects http.MethodDelete (base +:+ "/api/v1/link/tag/" +:+ Itoa id)
       = None ->
       snd (DeleteTag c id sent)
       = sent ++ [outgoing c "DELETE" (base +:+ "/api/v1/link/tag/" +:+ Itoa id) ""])
  ∧ (∀ id,
       NewRequest_rejects http.MethodDelete
         (base +:+ "/api/v1/link/utm-preset/" +:+ Itoa id) = None ->
       snd (DeleteUTMPreset c id sent)
       = sent ++ [outgoing c "DELETE" (base +:+ "/api/v1/link/utm-preset/" +:+ Itoa id) ""]).
Proof.
  intros base.
  assert (∀ path, requestURL c path None = base +:+ path) as Hurl.
  { intros path. unfold requestURL. by rewrite append_empty_r. }
  split; [|split; [by vm_compute|split; [|split]]].
  - intros shortURL Hreq. unfold DeleteShortLink.
    rewrite (bind_ret_sent _ (fun _ => ())), doRequest_sent.
    erewrite doRequestRaw_sent; [by rewrite Hurl|reflexivity|by rewrite Hurl].
  - intros id Hreq. unfold DeletePixel.
    rewrite (bind_ret_sent _ (fun _ => ())), doRequest_sent.
    erewrite doRequestRaw_sent; [by rewrite Hurl|reflexivity|by rewrite Hurl].
  - intros id Hreq. unfold DeleteTag.
    rewrite (bind_ret_sent _ (fun _ => ())), doRequest_sent.
    erewrite doRequestRaw_sent; [by rewrite Hurl|reflexivity|by rewrite Hurl].
  - intros id Hreq. unfold DeleteUTMPreset.
    rewrite (bind_ret_sent _ (fun _ => ())), doRequest_sent.
    erewrite doRequestRaw_sent; [by rewrite Hurl|reflexivity|by rewrite Hurl].
Qed.

(** C10. [GetStats] on a short URL is [GetStatsWithRange] on the request
    that carries this short URL and no dates: same result, same requests
    sent.  The request is one GET to [/api/v1/link/stats] whose query holds
    [short_url] only. *)
Theorem GetStats_GetStatsWithRange c shortURL sent :
  let reqData := {| Stats_ShortURL := shortURL;
                    Stats_StartDate := ""; Stats_EndDate := "" |} in
  let url := TrimRight (BaseURL c) "/" +:+ "/api/v1/link/stats?short_url="
             +:+ QueryEscape shortURL in
  GetStats c shortURL sent = GetStatsWithRange c reqData sent
  ∧ (NewRequest_rejects http.MethodGet url = None ->
     snd (GetStats c shortURL sent) = sent ++ [outgoing c "GET" url ""]
     ∧ snd (GetStatsWithRange c reqData sent) = sent ++ [outgoing c "GET" url ""]).
Proof.
  intros reqData url. split; [reflexivity|].
  intros Hreq.
  assert (snd (GetStatsWithRange c reqData sent) = sent ++ [outgoing c "GET" url ""]) as H.
  { unfold GetStatsWithRange. simpl.
    rewrite (bind_ret_sent _ value_at), doRequest_sent.
    erewrite doRequestRaw_sent; [done|reflexivity|apply Hreq]. }
  split; [exact H|exact H].
Qed.

(** ** Properties of the request bodies *)

Lemma marshal_struct vs fs :
  marshal (VStruct vs) (TStruct fs)
  = (members ← sequence (struct_members vs fs); Ok (object members)).
Proof.
  reflexivity.
Qed.

Lemma sequence_struct_members vs : ∀ fs members,
  sequence (struct_members vs fs) = Ok members ->
  members.*1 = written_keys vs fs.
Proof.
  induction vs as [|v vs IH]; intros [|[n j o t] fs] members; simpl;
    try (by intros [= <-]).
  destruct (o && isEmptyValue v); [by apply IH|].
  simpl. destruct (marshal v t) as [e|err]; simpl; [|done].
  destruct (sequence (struct_members vs fs)) as [ms|err] eqn:E; simpl; [|done].
  intros [= <-]. simpl. f_equal. by apply IH.
Qed.

Lemma written_keys_subseteq vs : ∀ fs k,
  k ∈ written_keys vs fs -> k ∈ field_json <$> fs.
Proof.
  induction vs as [|v vs IH]; intros [|[n j o t] fs] k; simpl;
    try (by intros ?%elem_of_nil).
  destruct (o && isEmptyValue v).
  - intros H. right. by apply IH.
  - intros [->|H]%elem_of_cons; [left|right; by apply IH].
Qed.

(** An [omitempty] field whose value is empty is not written. *)
Lemma written_keys_omitted fs : ∀ vs i f v,
  NoDup (field_json <$> fs) ->
  fs !! i = Some f -> vs !! i = Some v ->
  field_omitempty f = true -> isEmptyValue v = true ->
  field_json f ∉ written_keys vs fs.
Proof.
  induction fs as [|[n j o t] fs IH]; intros vs i f v Hnd Hf Hv Ho He; [done|].
  apply NoDup_cons in Hnd as [Hj Hnd].
  destruct vs as [|v0 vs]; [done|]. destruct i as [|i]; simplify_eq/=.
  - rewrite He. simpl. intros H%written_keys_subseteq. done.
  - assert (field_json f ∈ field_json <$> fs) as Hin.
    { apply list_elem_of_fmap_2. by eapply list_elem_of_lookup_2. }
    destruct (o && isEmptyValue v0); [by eapply IH|].
    intros [Heq|H]%elem_of_cons.
    + by rewrite Heq in Hin.
    + by eapply IH.
Qed.

(** A field whose value is not empty is written. *)
Lemma written_keys_present fs : ∀ vs i f v,
  fs !! i = Some f -> vs !! i = Some v -> isEmptyValue v = false ->
  field_json f ∈ written_keys vs fs.
Proof.
  induction fs as [|[n j o t] fs IH]; intros vs i f v Hf Hv He; [done|].
  destruct vs as [|v0 vs]; [done|]. destruct i as [|i]; simplify_eq/=.
  - rewrite He, andb_false_r. by left.
  - destruct (o && isEmptyValue v0); [|right]; by eapply IH.
Qed.

(** A field without [omitempty] is written. *)
Lemma written_keys_required fs : ∀ vs i f v,
  fs !! i = Some f -> vs !! i = Some v -> field_omitempty f = false ->
  field_json f ∈ written_keys vs fs.
Proof.
  induction fs as [|[n j o t] fs IH]; intros vs i f v Hf Hv Ho; [done|].
  destruct vs as [|v0 vs]; [done|]. destruct i as [|i]; simplify_eq/=.
  - by left.
  - destruct (o && isEmptyValue v0); [|right]; by eapply IH.
Qed.

Lemma request_structs_tags_ok T fs :
  T ∈ request_structs -> T = TStruct fs -> tags_ok fs = true.
Proof.
  unfold request_structs. intros H ->.
  repeat (apply elem_of_cons in H as [H|H];
          [cbv delta in H; injection H as ->; by vm_compute|]).
  by apply elem_of_nil in H.
Qed.

(** *** The scanner reads what the encoder writes

    The following lemmas follow [appendString], [Itoa] and [marshal] through
    [scan_string], [scan_number] and [parse_value]: the text of a value is
    read as one value, up to what follows it. *)

Lemma length_app (s t : string) :
  String.length (s +:+ t) = (String.length s + String.length t)%nat.
Proof.
  induction s as [|a s IH]; [done|]. rewrite append_cons. simpl. by rewrite IH.
Qed.

Lemma drop_bytes_app (p t : string) : drop_bytes (String.length p) (p +:+ t) = t.
Proof.
  unfold drop_bytes. rewrite length_app.
  replace (String.length p + String.length t - String.length p)%nat
    with (String.length t) by lia.
  induction p as [|a p IH]; [apply substring_all|].
  rewrite append_cons. simpl. exact IH.
Qed.

Lemma eqb_byte_val (a b : ascii) : byte_val a ≠ byte_val b -> Ascii.eqb a b = false.
Proof. intros H. apply Ascii.eqb_neq. by intros ->. Qed.

(** One step of [scan_string] over a byte that stands for itself. *)
Lemma scan_string_plain fuel c r :
  32 <= byte_val c < 0x80 -> byte_val c ≠ 34 -> byte_val c ≠ 92 ->
  scan_string (S fuel) (String c r)
  = match scan_string fuel r with
    | Some (t, rest) => Some (String c t, rest)
    | None => None
    end.
Proof.
  intros Hr Hq Hb. cbn [scan_string].
  rewrite (eqb_byte_val c dquote) by done.
  assert ((byte_val c <? 32) = false) as -> by lia.
  rewrite (eqb_byte_val c "\") by done.
  assert ((byte_val c <? 128) = true) as -> by lia.
  done.
Qed.

Lemma htmlSafe_inv b :
  htmlSafe b = true -> 32 <= byte_val b <= 0x7F ∧ byte_val b ≠ 34 ∧ byte_val b ≠ 92.
Proof.
  unfold htmlSafe, in_range. intros [Hr Hn]%andb_prop.
  apply negb_true_iff, orb_false_iff in Hn as [Hq Hc].
  cbn [in_cutset] in Hc. repeat (apply orb_false_iff in Hc as [? Hc]).
  split; [lia|]. split.
  - intros Hv. apply byte_val_inv in Hv. by subst b.
  - intros Hv. apply byte_val_inv in Hv. by subst b.
Qed.

(** One step of [scan_string] over an escape. *)
Lemma scan_string_escape fuel (e : ascii) X :
  Ascii.eqb e dquote || Ascii.eqb e "\" = true ->
  scan_string (S fuel) (String "\" (String e X)) = scan_more (ch e) (scan_string fuel X).
Proof.
  intros He.
  assert (Ascii.eqb e dquote || in_cutset e "\/" = true) as H.
  { cbn [in_cutset]. destruct (Ascii.eqb e dquote); [done|].
    simpl in He. by rewrite He. }
  transitivity (if Ascii.eqb e dquote || in_cutset e "\/"
                then scan_more (ch e) (scan_string fuel X) else None);
    [|by rewrite H].
  cbn [scan_string]. rewrite H. reflexivity.
Qed.

Lemma scan_string_b fuel X :
  scan_string (S fuel) ("\b" +:+ X) = scan_more (ch (byte_of 8)) (scan_string fuel X).
Proof. reflexivity. Qed.
Lemma scan_string_f fuel X :
  scan_string (S fuel) ("\f" +:+ X) = scan_more (ch (byte_of 12)) (scan_string fuel X).
Proof. reflexivity. Qed.
Lemma scan_string_n fuel X :
  scan_string (S fuel) ("\n" +:+ X) = scan_more (ch (byte_of 10)) (scan_string fuel X).
Proof. reflexivity. Qed.
Lemma scan_string_r fuel X :
  scan_string (S fuel) ("\r" +:+ X) = scan_more (ch (byte_of 13)) (scan_string fuel X).
Proof. reflexivity. Qed.
Lemma scan_string_t fuel X :
  scan_string (S fuel) ("\t" +:+ X) = scan_more (ch (byte_of 9)) (scan_string fuel X).
Proof. reflexivity. Qed.

Lemma scan_string_u (a b c d : ascii) fuel X :
  let p := String "\" (String "u" (String a (String b (String c (ch d))))) in
  0 <= getu4 p < 0xD800 ∨ 0xE000 <= getu4 p ->
  scan_string (S fuel) (p +:+ X) = scan_more (EncodeRune (getu4 p)) (scan_string fuel X).
Proof.
  intros p Hr.
  transitivity
    (let rr := getu4 p in
     if rr <? 0 then None
     else if (0xD800 <=? rr) && (rr <? 0xE000) then None
     else scan_more (EncodeRune rr)
            (scan_string fuel (drop_bytes (String.length p) (p +:+ X)))).
  - assert (getu4 (p +:+ X) = getu4 p) as Hg by reflexivity.
    change (scan_string (S fuel) (p +:+ X))
      with (let rr := getu4 (p +:+ X) in
            if rr <? 0 then None
            else
              let r6 := drop_bytes 6 (p +:+ X) in
              if (0xD800 <=? rr) && (rr <? 0xE000) then
                let dec := utf16_DecodeRune rr (getu4 r6) in
                if dec =? RuneError then scan_more (EncodeRune RuneError) (scan_string fuel r6)
                else scan_more (EncodeRune dec) (scan_string fuel (drop_bytes 6 r6))
              else scan_more (EncodeRune rr) (scan_string fuel r6)).
    cbv zeta. rewrite Hg.
    destruct (getu4 p <? 0); [done|].
    assert ((0xD800 <=? getu4 p) && (getu4 p <? 0xE000) = false) as ->; [|done].
    apply andb_false_iff. lia.
  - cbv zeta. rewrite drop_bytes_app.
    assert ((getu4 p <? 0) = false) as -> by lia.
    assert ((0xD800 <=? getu4 p) && (getu4 p <? 0xE000) = false) as ->; [|done].
    apply andb_false_iff. lia.
Qed.

Lemma hex_val_lowerhex n : 0 <= n < 16 -> hex_val (lowerhex n) = Some n.
Proof.
  intros Hn.
  assert (n = 0 ∨ n = 1 ∨ n = 2 ∨ n = 3 ∨ n = 4 ∨ n = 5 ∨ n = 6 ∨ n = 7 ∨ n = 8
          ∨ n = 9 ∨ n = 10 ∨ n = 11 ∨ n = 12 ∨ n = 13 ∨ n = 14 ∨ n = 15) as H by lia.
  repeat (destruct H as [->|H]; [reflexivity|]). by subst.
Qed.

(** One step of [scan_string] over a byte outside ASCII. *)
Lemma scan_string_high fuel c r :
  0x80 <= byte_val c ->
  scan_string (S fuel) (String c r)
  = scan_more (EncodeRune (fst (DecodeRune (String c r))))
      (scan_string fuel (drop_bytes (snd (DecodeRune (String c r))) (String c r))).
Proof.
  intros Hc. cbn [scan_string].
  rewrite (eqb_byte_val c dquote) by (change (byte_val dquote) with 34; lia).
  assert ((byte_val c <? 32) = false) as -> by lia.
  rewrite (eqb_byte_val c "\") by (change (byte_val "\") with 92; lia).
  assert ((byte_val c <? 128) = false) as -> by lia.
  by destruct (DecodeRune (String c r)).
Qed.

Lemma substring_0_0 (s : string) : substring 0 0 s = "".
Proof. by destruct s. Qed.

(** A rune of more than one byte is decoded from its own bytes alone. *)
Lemma DecodeRune_high b r :
  0x80 <= byte_val b ->
  DecodeRune (String b r) = (RuneError, 1%nat)
  ∨ ∃ p, take_bytes (snd (DecodeRune (String b r))) (String b r) = String b p
         ∧ String.length (String b p) = snd (DecodeRune (String b r))
         ∧ ∀ X, DecodeRune (String b p +:+ X) = DecodeRune (String b r).
Proof.
  intros Hb. unfold DecodeRune at 1 2 3.
  assert ((byte_val b <? 128) = false) as Hlt by lia.
  rewrite Hlt.
  destruct (in_range 194 223 b) eqn:E2.
  { destruct r as [|b1 r1]; [by left|]. cbn [cont].
    destruct (in_range 128 191 b1) eqn:E; [|by left].
    right. exists (ch b1). split; [cbn [snd]; unfold take_bytes; cbn [substring];
             by rewrite substring_0_0|]. split; [reflexivity|].
    intros X. unfold ch. rewrite !append_cons. cbn [DecodeRune cont].
    by rewrite Hlt, E2, E. }
  destruct (in_range 224 239 b) eqn:E3.
  { destruct r as [|b1 r1]; [by left|]. cbn [cont].
    destruct (in_range _ _ b1) eqn:E; [|by left].
    destruct r1 as [|b2 r2]; [by left|]. cbn [cont].
    destruct (in_range 128 191 b2) eqn:E'; [|by left].
    right. exists (String b1 (ch b2)). split; [cbn [snd]; unfold take_bytes; cbn [substring];
             by rewrite substring_0_0|]. split; [reflexivity|].
    intros X. unfold ch. rewrite !append_cons. cbn [DecodeRune cont].
    rewrite Hlt, E2, E3, E. cbn [cont]. by rewrite E'. }
  destruct (in_range 240 244 b) eqn:E4; [|by left].
  destruct r as [|b1 r1]; [by left|]. cbn [cont].
  destruct (in_range _ _ b1) eqn:E; [|by left].
  destruct r1 as [|b2 r2]; [by left|]. cbn [cont].
  destruct (in_range 128 191 b2) eqn:E'; [|by left].
  destruct r2 as [|b3 r3]; [by left|]. cbn [cont].
  destruct (in_range 128 191 b3) eqn:E''; [|by left].
  right. exists (String b1 (String b2 (ch b3))).
  split; [cbn [snd]; unfold take_bytes; cbn [substring];
             by rewrite substring_0_0|]. split; [reflexivity|].
  intros X. unfold ch. rewrite !append_cons. cbn [DecodeRune cont].
  rewrite Hlt, E2, E3, E4, E. cbn [cont]. rewrite E'. cbn [cont]. by rewrite E''.
Qed.

Lemma ch_app b (X : string) : ch b +:+ X = String b X.
Proof. reflexivity. Qed.

Lemma scan_more_Some out r t rest :
  r = Some (t, rest) -> scan_more out r = Some (out +:+ t, rest).
Proof. by intros ->. Qed.

(** The scanner reads the quoted form of a string up to its closing
    quote, whatever follows. *)
Lemma scan_appendString n : ∀ s rest fuel,
  (String.length (appendString_go n s) < fuel)%nat ->
  ∃ t, scan_string fuel (appendString_go n s +:+ String dquote rest) = Some (t, rest)
       ∧ (plain s = true -> (String.length s <= n)%nat -> t = s).
Proof.
  induction n as [|n IH]; intros s rest fuel Hf.
  { destruct fuel as [|fuel]; [simpl in Hf; lia|]. exists "". split; [reflexivity|].
    intros _ Hl. destruct s; [done|]. simpl in Hl. lia. }
  destruct s as [|b s].
  { destruct fuel as [|fuel]; [simpl in Hf; lia|]. exists "". split; [reflexivity|done]. }
  destruct fuel as [|fuel]; [lia|].
  cbn [appendString_go] in *.
  destruct (byte_val b <? 128) eqn:Hb.
  - rewrite length_app in Hf.
    destruct (htmlSafe b) eqn:Hs.
    { destruct (htmlSafe_inv b Hs) as (Hr & Hq & Hbs).
      destruct (IH s rest fuel) as (t & Ht & Hsimple); [simpl in Hf; lia|].
      exists (String b t). split.
      - rewrite append_assoc, ch_app.
        rewrite scan_string_plain by (try done; lia).
        by rewrite Ht.
      - intros Hsim Hl. unfold plain in Hsim. cbn [bytes_of_string forallb] in Hsim.
        apply andb_prop in Hsim as [_ Hsim]. simpl in Hl.
        f_equal. apply Hsimple; [done|lia]. }
    assert (plain (String b s) = true -> False) as Hns.
    { unfold plain. cbn [bytes_of_string forallb]. rewrite Hs, Hb. done. }
    destruct (IH s rest fuel) as (t & Ht & _).
    { repeat case_match; simpl in Hf; lia. }
    destruct (Ascii.eqb b dquote || Ascii.eqb b "\") eqn:He.
    { eexists. split; [|intros []%Hns].
      rewrite append_assoc, append_cons, ch_app.
      rewrite scan_string_escape by done. by apply scan_more_Some. }
    destruct (byte_val b =? 8).
    { eexists. split; [|intros []%Hns].
      rewrite append_assoc, scan_string_b. by apply scan_more_Some. }
    destruct (byte_val b =? 12).
    { eexists. split; [|intros []%Hns].
      rewrite append_assoc, scan_string_f. by apply scan_more_Some. }
    destruct (byte_val b =? 10).
    { eexists. split; [|intros []%Hns].
      rewrite append_assoc, scan_string_n. by apply scan_more_Some. }
    destruct (byte_val b =? 13).
    { eexists. split; [|intros []%Hns].
      rewrite append_assoc, scan_string_r. by apply scan_more_Some. }
    destruct (byte_val b =? 9).
    { eexists. split; [|intros []%Hns].
      rewrite append_assoc, scan_string_t. by apply scan_more_Some. }
    eexists. split; [|intros []%Hns].
    rewrite append_assoc.
    assert (0 <= byte_val b < 128) as Hrange.
    { apply Z.ltb_lt in Hb. unfold byte_val in *. lia. }
    assert (0 <= Z.shiftr (byte_val b) 4 < 16) as Hhi.
    { rewrite Z.shiftr_div_pow2 by lia. change (2 ^ 4) with 16.
      split; [apply Z.div_pos; lia|apply Z.div_lt_upper_bound; lia]. }
    assert (0 <= Z.land (byte_val b) 15 < 16) as Hlo.
    { change 15 with (Z.ones 4). rewrite Z.land_ones by lia.
      apply Z.mod_pos_bound. lia. }
    pose proof (scan_string_u "0" "0" (lowerhex (Z.shiftr (byte_val b) 4))
                  (lowerhex (Z.land (byte_val b) 15)) fuel
                  (appendString_go n s +:+ String dquote rest)) as Hu.
    cbv zeta in Hu.
    assert (getu4 (String "\" (String "u" (String "0" (String "0"
              (String (lowerhex (Z.shiftr (byte_val b) 4))
                 (ch (lowerhex (Z.land (byte_val b) 15))))))))
            = Z.shiftr (byte_val b) 4 * 16 + Z.land (byte_val b) 15) as Hg.
    { cbn [getu4 ch]. rewrite !hex_val_lowerhex by done.
      change (hex_val "0") with (Some 0). cbv beta iota. lia. }
    rewrite Hg in Hu.
    etransitivity; [apply Hu; lia|]. by apply scan_more_Some.
  - assert (0x80 <= byte_val b) as Hhigh by lia.
    destruct (DecodeRune (String b s)) as [c size] eqn:Hd.
    assert (plain (String b s) = true -> False) as Hns.
    { unfold plain. cbn [bytes_of_string forallb]. rewrite Hb. done. }
    destruct ((c =? RuneError) && (size =? 1)%nat) eqn:Herr.
    { destruct (IH s rest fuel) as (t & Ht & _).
      { rewrite length_app in Hf. simpl in Hf. lia. }
      eexists. split; [|intros []%Hns].
      rewrite append_assoc.
      etransitivity; [apply (scan_string_u "f" "f" "f" "d"); right; by vm_compute|].
      by apply scan_more_Some. }
    assert (∃ p, take_bytes size (String b s) = String b p
                 ∧ String.length (String b p) = size
                 ∧ ∀ X, DecodeRune (String b p +:+ X) = (c, size)) as (p & Hp & Hlen & HX).
    { destruct (DecodeRune_high b s Hhigh) as [H|(p & H1 & H2 & H3)].
      - rewrite Hd in H. injection H as -> ->. by vm_compute in Herr.
      - rewrite Hd in H1, H2, H3. by exists p. }
    destruct (c =? 8232).
    { destruct (IH (drop_bytes size (String b s)) rest fuel) as (t & Ht & _).
      { rewrite length_app in Hf. simpl in Hf. lia. }
      eexists. split; [|intros []%Hns].
      rewrite append_assoc.
      etransitivity;
        [apply (scan_string_u "2" "0" "2" "8"); left; change (getu4 _) with 8232; lia|].
      by apply scan_more_Some. }
    destruct (c =? 8233).
    { destruct (IH (drop_bytes size (String b s)) rest fuel) as (t & Ht & _).
      { rewrite length_app in Hf. simpl in Hf. lia. }
      eexists. split; [|intros []%Hns].
      rewrite append_assoc.
      etransitivity;
        [apply (scan_string_u "2" "0" "2" "9"); left; change (getu4 _) with 8233; lia|].
      by apply scan_more_Some. }
    destruct (IH (drop_bytes size (String b s)) rest fuel) as (t & Ht & _).
    { rewrite length_app, Hp in Hf. simpl in Hf. lia. }
    eexists. split; [|intros []%Hns].
    rewrite append_assoc, Hp, append_cons, scan_string_high by done.
    rewrite <- append_cons, HX. cbn [fst snd].
    assert (drop_bytes size (String b p +:+
                 appendString_go n (drop_bytes size (String b s)) +:+ String dquote rest)
            = appendString_go n (drop_bytes size (String b s)) +:+ String dquote rest)
      as ->.
    { rewrite <- Hlen at 1. apply drop_bytes_app. }
    by apply scan_more_Some.
Qed.

Lemma span_digits_app d rest :
  all_digits d = true -> follows rest -> span_digits (d +:+ rest) = (d, rest).
Proof.
  intros Hd Hrest. induction d as [|c d IH].
  - destruct Hrest as [->|(r & [->|[->| ->]])]; reflexivity.
  - unfold all_digits in Hd. cbn [bytes_of_string forallb] in Hd.
    apply andb_prop in Hd as [Hc Hd]. rewrite append_cons. cbn [span_digits].
    by rewrite Hc, IH.
Qed.

Lemma is_digit_pretty_N_char x : is_digit (pretty_N_char x) = true.
Proof. unfold pretty_N_char. by repeat case_match. Qed.

(** The decimal digits of a positive number: a digit that is not zero,
    followed by all_digits. *)
Lemma pretty_N_go_digits (x : N) : ∀ s,
  (0 < x)%N ->
  ∃ y d, pretty_N_go x s = String (pretty_N_char y) (d +:+ s)
         ∧ (1 <= y <= 9)%N ∧ all_digits d = true.
Proof.
  induction (N.lt_wf_0 x) as [x _ IH]; intros s Hx.
  rewrite pretty_N_go_step by done.
  destruct (N.eq_0_gt_0_cases (x `div` 10)) as [H0|Hpos].
  - rewrite H0, pretty_N_go_0. exists (x `mod` 10)%N, "". split; [done|].
    split; [|done].
    pose proof (N.mod_upper_bound x 10). pose proof (N.div_mod x 10). lia.
  - destruct (IH (x `div` 10)%N) with (s := String (pretty_N_char (x `mod` 10)) s)
      as (y & d & Heq & Hy & Hd); [by apply N.div_lt|done|].
    exists y, (d +:+ ch (pretty_N_char (x `mod` 10))). split; [|split; [done|]].
    + rewrite Heq. f_equal. by rewrite append_assoc.
    + unfold all_digits in *. rewrite bytes_of_string_app, forallb_app, Hd.
      cbn. by rewrite is_digit_pretty_N_char.
Qed.

Lemma Itoa_shape (i : Z) :
  i = 0
  ∨ ∃ sign y d, Itoa i = sign +:+ String (pretty_N_char y) d
                ∧ (sign = "" ∨ sign = "-") ∧ (1 <= y <= 9)%N ∧ all_digits d = true.
Proof.
  assert (∀ p : positive, ∃ y d, pretty p = String (pretty_N_char y) d
                                 ∧ (1 <= y <= 9)%N ∧ all_digits d = true) as Hp.
  { intros p. unfold pretty, pretty_positive, pretty, pretty_N.
    case_decide; [done|].
    destruct (pretty_N_go_digits (N.pos p) "") as (y & d & Heq & Hy & Hd); [lia|].
    exists y, d. by rewrite Heq, append_empty_r. }
  destruct i as [|p|p]; [by left|right..].
  - destruct (Hp p) as (y & d & Heq & Hy & Hd). exists "", y, d.
    split; [done|]. split; [by left|done].
  - destruct (Hp p) as (y & d & Heq & Hy & Hd). exists "-", y, d.
    unfold Itoa, pretty, pretty_Z. split; [by rewrite Heq|]. split; [by right|done].
Qed.

(** The scanner reads a decimal integer as one number, up to what follows. *)
Lemma parse_value_Itoa (i : Z) fuel depth rest :
  follows rest ->
  parse_value (S fuel) depth (Itoa i +:+ rest) = Some (JNumber (Itoa i), rest).
Proof.
  intros Hrest.
  destruct (Itoa_shape i) as [->|(sign & y & d & -> & Hsign & Hy & Hd)].
  { destruct Hrest as [->|(r & [->|[->| ->]])]; reflexivity. }
  assert (y = 1 ∨ y = 2 ∨ y = 3 ∨ y = 4 ∨ y = 5 ∨ y = 6 ∨ y = 7 ∨ y = 8 ∨ y = 9)%N
    as Hcase by lia.
  pose proof (span_digits_app d rest Hd Hrest) as Hspan.
  unfold pretty_N_char.
  destruct Hcase as [->|[->|[->|[->|[->|[->|[->|[->| ->]]]]]]]];
    destruct Hsign as [-> | ->];
    rewrite ?append_cons; change ("" +:+ String ?a ?x) with (String a x);
    rewrite ?append_cons;
    destruct Hrest as [->|(r & [->|[->| ->]])];
    simpl; unfold scan_number; simpl; rewrite Hspan; simpl;
    rewrite ?append_empty_r; reflexivity.
Qed.

Lemma follows_comma r : follows (String "," r).
Proof. right. exists r. by left. Qed.
Lemma follows_brace r : follows (String "}" r).
Proof. right. exists r. right. by left. Qed.
Lemma follows_bracket r : follows (String "]" r).
Proof. right. exists r. right. by right. Qed.

(** [parse_value] on a text that can only be [true], [false] or [null]. *)
Lemma parse_value_word fuel depth c r :
  isSpace c = false -> Ascii.eqb c "{" = false -> Ascii.eqb c "[" = false ->
  Ascii.eqb c dquote = false -> Ascii.eqb c "-" || is_digit c = false ->
  parse_value (S fuel) depth (String c r)
  = if HasPrefix (String c r) "true" then Some (JBool true, drop_bytes 4 (String c r))
    else if HasPrefix (String c r) "false"
         then Some (JBool false, drop_bytes 5 (String c r))
         else if HasPrefix (String c r) "null"
              then Some (JNull, drop_bytes 4 (String c r))
              else None.
Proof.
  intros Hs H1 H2 H3 H4. cbn [parse_value skip_space].
  rewrite Hs. cbv iota. by rewrite H1, H2, H3, H4.
Qed.

Lemma HasPrefix_app (p rest : string) : HasPrefix (p +:+ rest) p = true.
Proof.
  induction p as [|a p IH]; [by destruct rest|].
  rewrite append_cons. cbn [HasPrefix]. by rewrite Ascii.eqb_refl.
Qed.

Lemma readable_true depth : readable depth "true".
Proof.
  split; [done|].
  intros rest [|fuel] _ Hf; [simpl in Hf; lia|]. exists (JBool true).
  rewrite append_cons, parse_value_word by reflexivity.
  rewrite <- append_cons.
  rewrite HasPrefix_app.
  by rewrite (drop_bytes_app "true").
Qed.
Lemma readable_false depth : readable depth "false".
Proof.
  split; [done|].
  intros rest [|fuel] _ Hf; [simpl in Hf; lia|]. exists (JBool false).
  rewrite append_cons, parse_value_word by reflexivity.
  rewrite <- append_cons.
  change (HasPrefix ("false" +:+ rest) "true") with false.
  rewrite HasPrefix_app.
  by rewrite (drop_bytes_app "false").
Qed.
Lemma readable_null depth : readable depth "null".
Proof.
  split; [done|].
  intros rest [|fuel] _ Hf; [simpl in Hf; lia|]. exists JNull.
  rewrite append_cons, parse_value_word by reflexivity.
  rewrite <- append_cons.
  change (HasPrefix ("null" +:+ rest) "true") with false.
  change (HasPrefix ("null" +:+ rest) "false") with false.
  rewrite HasPrefix_app.
  by rewrite (drop_bytes_app "null").
Qed.

Lemma starts_value_Itoa i : starts_value (Itoa i).
Proof.
  destruct (Itoa_shape i) as [->|(sign & y & d & -> & Hsign & Hy & Hd)]; [done|].
  destruct Hsign as [-> | ->]; [|done].
  change ("" +:+ ?x) with x. cbn [starts_value].
  pose proof (is_digit_pretty_N_char y) as Hc.
  unfold is_digit, in_range in Hc. split.
  - unfold isSpace. lia.
  - apply eqb_byte_val. change (byte_val "]") with 93. lia.
Qed.

Lemma readable_Itoa depth i : readable depth (Itoa i).
Proof.
  split; [apply starts_value_Itoa|].
  intros rest [|fuel] Hrest Hf; [lia|]. eexists. by apply parse_value_Itoa.
Qed.

Lemma scan_quoted s rest :
  ∃ t, scan_string (S (String.length (appendString_go (String.length s) s
                                      +:+ String dquote rest)))
         (appendString_go (String.length s) s +:+ String dquote rest) = Some (t, rest)
       ∧ (plain s = true -> t = s).
Proof.
  destruct (scan_appendString (String.length s) s rest
              (S (String.length (appendString_go (String.length s) s
                                 +:+ String dquote rest)))) as (t & Ht & Hs).
  { rewrite length_app. lia. }
  exists t. split; [done|]. intros H. by apply Hs.
Qed.

Lemma readable_string depth s : readable depth (appendString s).
Proof.
  split; [done|].
  intros rest [|fuel] _ Hf; [lia|].
  destruct (scan_quoted s rest) as (t & Ht & _). exists (JString t).
  unfold appendString. rewrite append_cons, append_assoc, ch_app.
  cbn [parse_value skip_space].
  change (isSpace dquote) with false. cbv iota.
  change (Ascii.eqb dquote "{") with false.
  change (Ascii.eqb dquote "[") with false.
  change (Ascii.eqb dquote dquote) with true. cbv iota.
  by rewrite Ht.
Qed.

(** The elements of an array, after the first. *)
Lemma parse_elems_ok depth : ∀ elems rest fuel,
  elems ≠ [] -> Forall (readable depth) elems ->
  (String.length (Join elems "," +:+ "]") < fuel)%nat ->
  ∃ js, parse_elems fuel depth (Join elems "," +:+ "]" +:+ rest) = Some (js, rest).
Proof.
  induction elems as [|e elems IH]; intros rest fuel Hne Hall Hf; [done|].
  apply Forall_cons in Hall as [[_ He] Hall].
  destruct fuel as [|fuel]; [lia|].
  destruct elems as [|e' elems].
  - cbn [Join] in *. rewrite length_app in Hf. simpl in Hf.
    destruct (He (String "]" rest) fuel (follows_bracket _)) as (j & Hj); [lia|].
    exists [j]. cbn [parse_elems].
    change ("]" +:+ rest) with (String "]" rest). rewrite Hj. reflexivity.
  - change (Join (e :: e' :: elems) ",") with (e +:+ "," +:+ Join (e' :: elems) ",") in *.
    rewrite !length_app in Hf. simpl in Hf.
    rewrite !append_assoc.
    change ("," +:+ ?x) with (String "," x).
    destruct (He (String "," (Join (e' :: elems) "," +:+ "]" +:+ rest)) fuel
                (follows_comma _)) as (j & Hj); [lia|].
    destruct (IH rest fuel) as (js & Hjs); [done|done|rewrite length_app; simpl; lia|].
    exists (j :: js). cbn [parse_elems]. rewrite Hj.
    cbn [skip_space]. change (isSpace ",") with false. cbv iota.
    by rewrite Hjs.
Qed.

(** [parse_value] on an opening bracket. *)
Lemma parse_value_bracket fuel depth r :
  parse_value (S fuel) depth (String "[" r)
  = if maxNestingDepth <? depth + 1 then None
    else match skip_space r with
         | "" => match parse_elems fuel (depth + 1) "" with
                 | Some (l, r) => Some (JArray l, r)
                 | None => None
                 end
         | String c r' =>
             if Ascii.eqb c "]" then Some (JArray [], r')
             else match parse_elems fuel (depth + 1) (String c r') with
                  | Some (l, r) => Some (JArray l, r)
                  | None => None
                  end
         end.
Proof.
  cbn [parse_value skip_space]. change (isSpace "[") with false. cbv iota.
  change (Ascii.eqb "[" "{") with false. change (Ascii.eqb "[" "[") with true.
  cbv iota. destruct (maxNestingDepth <? depth + 1); [done|].
  destruct (skip_space r) as [|c r']; [done|].
  destruct c as [[] [] [] [] [] [] [] []]; reflexivity.
Qed.

Lemma skip_space_starts e rest : starts_value e -> skip_space (e +:+ rest) = e +:+ rest.
Proof.
  destruct e as [|c e]; [done|]. intros [Hs _]. rewrite append_cons.
  cbn [skip_space]. by rewrite Hs.
Qed.

Lemma readable_array depth elems :
  depth + 1 <= maxNestingDepth ->
  Forall (readable (depth + 1)) elems ->
  readable depth ("[" +:+ Join elems "," +:+ "]").
Proof.
  intros Hd Hall. split; [done|]. intros rest [|fuel] _ Hf; [lia|].
  change ("[" +:+ ?x) with (String "[" x) in *. cbn [String.length] in Hf.
  rewrite append_cons, parse_value_bracket.
  assert ((maxNestingDepth <? depth + 1) = false) as -> by lia.
  destruct elems as [|e elems].
  - exists (JArray []). reflexivity.
  - destruct (parse_elems_ok (depth + 1) (e :: elems) rest fuel) as (js & Hjs);
      [done|done|lia|].
    exists (JArray js). rewrite append_assoc.
    assert (starts_value (Join (e :: elems) "," +:+ "]" +:+ rest)) as Hst.
    { apply Forall_cons in Hall as [[Hst _] _].
      destruct e as [|c e]; [done|]. by destruct elems. }
    destruct (Join (e :: elems) "," +:+ "]" +:+ rest) as [|c r] eqn:E; [done|].
    destruct Hst as [Hs Hb]. cbn [skip_space]. rewrite Hs, Hb. by rewrite Hjs.
Qed.

(** [parse_value] on an opening brace. *)
Lemma parse_value_brace fuel depth r :
  parse_value (S fuel) depth (String "{" r)
  = if maxNestingDepth <? depth + 1 then None
    else match skip_space r with
         | "" => match parse_members fuel (depth + 1) "" with
                 | Some (m, r) => Some (JObject m, r)
                 | None => None
                 end
         | String c r' =>
             if Ascii.eqb c "}" then Some (JObject [], r')
             else match parse_members fuel (depth + 1) (String c r') with
                  | Some (m, r) => Some (JObject m, r)
                  | None => None
                  end
         end.
Proof.
  cbn [parse_value skip_space]. change (isSpace "{") with false. cbv iota.
  change (Ascii.eqb "{" "{") with true. cbv iota.
  destruct (maxNestingDepth <? depth + 1); [done|].
  destruct (skip_space r) as [|c r']; [done|].
  destruct c as [[] [] [] [] [] [] [] []]; reflexivity.
Qed.

Lemma member_text k v (X : string) :
  member (k, v) +:+ X
  = String dquote (appendString_go (String.length k) k
                   +:+ String dquote (String ":" (v +:+ X))).
Proof.
  unfold member, appendString. cbn [fst snd].
  rewrite !append_cons, !append_assoc. reflexivity.
Qed.

(** The head of [parse_members] on the text of one member. *)
Lemma parse_members_member fuel depth k v X :
  (String.length v < fuel)%nat -> readable depth v -> follows X ->
  ∃ t j, parse_members (S fuel) depth (member (k, v) +:+ X)
         = match parse_value fuel depth (v +:+ X) with
           | Some (v, r) =>
               match skip_space r with
               | String "," r =>
                   match parse_members fuel depth r with
                   | Some (m, r) => Some ((t, v) :: m, r)
                   | None => None
                   end
               | String "}" r => Some ([(t, v)], r)
               | _ => None
               end
           | None => None
           end
         ∧ parse_value fuel depth (v +:+ X) = Some (j, X)
         ∧ (plain k = true -> t = k).
Proof.
  intros Hf [_ Hv] HX.
  destruct (scan_quoted k (String ":" (v +:+ X))) as (t & Ht & Hs).
  destruct (Hv X fuel HX Hf) as (j & Hj).
  exists t, j. split; [|done].
  rewrite member_text. cbn [parse_members skip_space].
  change (isSpace dquote) with false. cbv iota.
  change (Ascii.eqb dquote dquote) with true. cbv iota.
  rewrite Ht. cbn [skip_space]. change (isSpace ":") with false. cbv iota.
  reflexivity.
Qed.

Lemma parse_members_ok depth : ∀ members rest fuel,
  members ≠ [] -> Forall (fun kv : string * string => readable depth (snd kv)) members ->
  (String.length (Join (member <$> members) "," +:+ "}") < fuel)%nat ->
  ∃ m, parse_members fuel depth (Join (member <$> members) "," +:+ "}" +:+ rest)
       = Some (m, rest)
       ∧ (Forall (fun kv : string * string => plain (fst kv) = true) members ->
          m.*1 = members.*1).
Proof.
  induction members as [|[k v] members IH]; intros rest fuel Hne Hall Hf; [done|].
  apply Forall_cons in Hall as [Hv Hall]. cbn [snd] in Hv.
  destruct fuel as [|fuel]; [lia|].
  assert (String.length v < String.length (member (k, v)))%nat as Hlen.
  { unfold member. cbn [fst snd]. rewrite !length_app. simpl. lia. }
  destruct members as [|kv' members].
  - cbn [fmap list_fmap Join] in *. rewrite length_app in Hf.
    change (String.length "}") with 1%nat in Hf.
    change ("}" +:+ rest) with (String "}" rest).
    destruct (parse_members_member fuel depth k v (String "}" rest))
      as (t & j & Heq & Hj & Ht); [lia|done|apply follows_brace|].
    exists [(t, j)]. split.
    + rewrite Heq, Hj. reflexivity.
    + intros Hs. apply Forall_cons in Hs as [Hs _]. cbn. by rewrite (Ht Hs).
  - change (Join (member <$> (k, v) :: kv' :: members) ",")
      with (member (k, v) +:+ "," +:+ Join (member <$> kv' :: members) ",") in *.
    rewrite !length_app in Hf.
    change (String.length "}") with 1%nat in Hf.
    change (String.length ",") with 1%nat in Hf.
    rewrite !append_assoc. change ("," +:+ ?x) with (String "," x).
    destruct (parse_members_member fuel depth k v
                (String "," (Join (member <$> kv' :: members) "," +:+ "}" +:+ rest)))
      as (t & j & Heq & Hj & Ht); [lia|done|apply follows_comma|].
    destruct (IH rest fuel) as (m & Hm & Hkeys);
      [done|done|rewrite length_app; change (String.length "}") with 1%nat; lia|].
    exists ((t, j) :: m). split.
    + rewrite Heq, Hj. cbn [skip_space]. change (isSpace ",") with false. cbv iota.
      by rewrite Hm.
    + intros Hs. apply Forall_cons in Hs as [Hs Hs']. cbn.
      rewrite (Ht Hs). f_equal. by apply Hkeys.
Qed.

(** An object is read back member by member; the keys that need no
    escaping are read back as they are. *)
Lemma parse_object depth members rest fuel :
  depth + 1 <= maxNestingDepth ->
  Forall (fun kv : string * string => readable (depth + 1) (snd kv)) members ->
  (String.length (object members) < fuel)%nat ->
  ∃ m, parse_value fuel depth (object members +:+ rest) = Some (JObject m, rest)
       ∧ (Forall (fun kv : string * string => plain (fst kv) = true) members ->
          m.*1 = members.*1).
Proof.
  intros Hd Hall Hf. unfold object in *.
  change ("{" +:+ ?x) with (String "{" x) in *. cbn [String.length] in Hf.
  destruct fuel as [|fuel]; [lia|].
  rewrite append_cons, parse_value_brace.
  assert ((maxNestingDepth <? depth + 1) = false) as -> by lia.
  destruct members as [|[k v] members].
  - exists []. split; [reflexivity|done].
  - destruct (parse_members_ok (depth + 1) ((k, v) :: members) rest fuel)
      as (m & Hm & Hkeys); [done|done|lia|].
    exists m. split; [|done]. rewrite append_assoc.
    assert (∃ r, Join (member <$> (k, v) :: members) "," +:+ "}" +:+ rest
                 = String dquote r) as [r Hr].
    { destruct members as [|kv' members]; cbn [fmap list_fmap Join].
      - rewrite member_text. by eexists.
      - rewrite append_assoc, member_text. by eexists. }
    rewrite Hr in *. cbn [skip_space]. change (isSpace dquote) with false. cbv iota.
    change (Ascii.eqb dquote "}") with false. cbv iota. by rewrite Hm.
Qed.

Lemma readable_object depth members :
  depth + 1 <= maxNestingDepth ->
  Forall (fun kv : string * string => readable (depth + 1) (snd kv)) members ->
  readable depth (object members).
Proof.
  intros Hd Hall. split; [done|]. intros rest fuel _ Hf.
  destruct (parse_object depth members rest fuel Hd Hall Hf) as (m & Hm & _).
  by exists (JObject m).
Qed.

(** Induction on a value, with the property at hand for the values inside
    it. *)
Lemma govalue_induction (P : govalue -> Prop) :
  (∀ i, P (VInt i)) -> (∀ b, P (VBool b)) -> (∀ s, P (VString s)) ->
  (∀ lit, P (VFloat64 lit)) -> P VNil -> (∀ v, P v -> P (VPtr v)) ->
  (∀ l, Forall P l -> P (VSlice l)) ->
  (∀ l spare, Forall P l -> P (VSliceCap l spare)) ->
  (∀ m, Forall (fun kv : string * govalue => P (snd kv)) m -> P (VMap m)) ->
  (∀ t v, P v -> P (VIface t v)) ->
  (∀ vs, Forall P vs -> P (VStruct vs)) -> P VChan ->
  ∀ v, P v.
Proof.
  intros HInt HBool HString HFloat HNil HPtr HSlice HSliceCap HMap HIface HStruct HChan.
  fix IH 1. intros [i|b|s|lit| |v|l|l spare|m|t v|vs| ].
  - apply HInt.
  - apply HBool.
  - apply HString.
  - apply HFloat.
  - apply HNil.
  - apply HPtr, IH.
  - apply HSlice. induction l as [|x l IHl]; constructor; [apply IH|apply IHl].
  - apply HSliceCap. induction l as [|x l IHl]; constructor; [apply IH|apply IHl].
  - apply HMap. induction m as [|[k x] m IHm]; constructor; [apply IH|apply IHm].
  - apply HIface, IH.
  - apply HStruct. induction vs as [|x l IHl]; constructor; [apply IH|apply IHl].
  - apply HChan.
Qed.

Lemma sequence_cons_inv {A} (r : result A) l xs :
  sequence (r :: l) = Ok xs ->
  ∃ x xs', r = Ok x ∧ sequence l = Ok xs' ∧ xs = x :: xs'.
Proof.
  cbn [sequence]. destruct r as [x|e]; [|done]. cbn.
  destruct (sequence l) as [xs'|e]; [|done]. cbn. intros [= <-]. by exists x, xs'.
Qed.

Lemma elems_readable t depth : ∀ l elems,
  Forall encodes_readable l ->
  sequence (map (fun v => marshal v t) l) = Ok elems ->
  forallb no_float l = true ->
  depth + foldr (fun v n => Z.max (nesting v) n) 0 l <= maxNestingDepth ->
  Forall (readable depth) elems.
Proof.
  induction l as [|v l IH]; intros elems Hall Hseq Hnf Hd.
  - injection Hseq as <-. constructor.
  - apply Forall_cons in Hall as [Hv Hall].
    cbn [map] in Hseq. apply sequence_cons_inv in Hseq as (x & xs & Hx & Hxs & ->).
    cbn [forallb] in Hnf. apply andb_prop in Hnf as [Hnv Hnf].
    cbn [foldr] in Hd.
    constructor; [apply (Hv t); [done|done|lia]|apply IH; [done|done|done|lia]].
Qed.

Lemma struct_members_readable depth : ∀ vs fs members,
  Forall encodes_readable vs ->
  sequence (struct_members vs fs) = Ok members ->
  forallb no_float vs = true ->
  depth + foldr (fun v n => Z.max (nesting v) n) 0 vs <= maxNestingDepth ->
  Forall (fun kv : string * string => readable depth (snd kv)) members.
Proof.
  induction vs as [|v vs IH]; intros [|[n j o t] fs] members Hall Hseq Hnf Hd;
    try (injection Hseq as <-; by constructor).
  apply Forall_cons in Hall as [Hv Hall].
  cbn [forallb] in Hnf. apply andb_prop in Hnf as [Hnv Hnf].
  cbn [foldr] in Hd. cbn [struct_members] in Hseq.
  destruct (o && isEmptyValue v).
  { apply (IH fs); [done|done|done|lia]. }
  apply sequence_cons_inv in Hseq as ([k e] & xs & Hx & Hxs & ->).
  destruct (marshal v t) as [e'|err] eqn:He; [|done]. injection Hx as <- <-.
  constructor; [apply (Hv t); [done|done|lia]|apply (IH fs); [done|done|done|lia]].
Qed.

Lemma map_members_readable t depth (m : list (string * govalue)) members :
  Forall (fun kv : string * govalue => encodes_readable (snd kv)) m ->
  sequence (map (fun kr : string * result string => e ← snd kr; Ok (fst kr, e))
              (merge_sort key_le (map (fun kv => (fst kv, marshal (snd kv) t)) m)))
  = Ok members ->
  forallb (fun kv => no_float (snd kv)) m = true ->
  depth + foldr (fun kv n => Z.max (nesting (snd kv)) n) 0 m <= maxNestingDepth ->
  Forall (fun kv : string * string => readable depth (snd kv)) members.
Proof.
  intros Hall Hseq Hnf Hd.
  assert (Forall (fun kr : string * result string =>
                    ∀ e, snd kr = Ok e -> readable depth e)
            (map (fun kv => (fst kv, marshal (snd kv) t)) m)) as Henc.
  { clear Hseq. induction m as [|[k v] m IH]; [constructor|].
    apply Forall_cons in Hall as [Hv Hall].
    cbn [forallb] in Hnf. apply andb_prop in Hnf as [Hnv Hnf].
    cbn [foldr] in Hd. cbn [snd] in Hd, Hv, Hnv. cbn [map]. constructor.
    - cbn [snd]. intros e He. apply (Hv t); [done|done|lia].
    - apply IH; [done|done|lia]. }
  rewrite <- (merge_sort_Permutation key_le) in Henc.
  revert members Hseq.
  induction Henc as [|[k r] sorted Hr Hsorted IH]; intros members Hseq.
  - injection Hseq as <-. constructor.
  - cbn [map] in Hseq. apply sequence_cons_inv in Hseq as ([k' e] & xs & Hx & Hxs & ->).
    cbn [fst snd] in Hx. destruct r as [e'|err]; [|done]. injection Hx as <- <-.
    constructor; [by apply Hr|by apply IH].
Qed.

(** The encoder writes texts that the scanner reads. *)
Lemma marshal_readable v : encodes_readable v.
Proof.
  induction v as [i|b|s|lit| |v IH|l IH|l spare IH|m IH|t0 v IH|vs IH| ]
    using govalue_induction; intros t e depth Hm Hnf Hd.
  - destruct t; try done. injection Hm as <-. apply readable_Itoa.
  - destruct t; try done. injection Hm as <-.
    destruct b; [apply readable_true|apply readable_false].
  - destruct t; try done. injection Hm as <-. apply readable_string.
  - done.
  - destruct t; try done; injection Hm as <-; apply readable_null.
  - destruct t; try done. by apply (IH t).
  - destruct t; try done. cbn [marshal] in Hm. cbn [no_float nesting] in *.
    destruct (sequence (map (fun v => marshal v t) l)) as [elems|err] eqn:E; [|done].
    injection Hm as <-. apply readable_array; [|eapply elems_readable; eauto; lia].
    assert (0 <= foldr (fun v n => Z.max (nesting v) n) 0 l); [|lia].
    clear. induction l; simpl; lia.
  - destruct t; try done. cbn [marshal] in Hm. cbn [no_float nesting] in *.
    destruct (sequence (map (fun v => marshal v t) l)) as [elems|err] eqn:E; [|done].
    injection Hm as <-. apply readable_array; [|eapply elems_readable; eauto; lia].
    assert (0 <= foldr (fun v n => Z.max (nesting v) n) 0 l); [|lia].
    clear. induction l; simpl; lia.
  - destruct t; try done. cbn [marshal] in Hm. cbn [no_float nesting] in *.
    match type of Hm with
    | mbind _ ?s = _ => destruct s as [members|err] eqn:E; [|done]
    end.
    injection Hm as <-. apply readable_object; [|eapply map_members_readable; eauto; lia].
    assert (0 <= foldr (fun kv n => Z.max (nesting (snd kv)) n) 0 m); [|lia].
    clear. induction m; simpl; lia.
  - destruct t; try done. by apply (IH t0).
  - destruct t as [| | | | | | | |fs| ]; try done. rewrite marshal_struct in Hm.
    cbn [no_float nesting] in *.
    destruct (sequence (struct_members vs fs)) as [members|err] eqn:E; [|done].
    injection Hm as <-.
    apply readable_object; [|eapply struct_members_readable; eauto; lia].
    assert (0 <= foldr (fun v n => Z.max (nesting v) n) 0 vs); [|lia].
    clear. induction vs; simpl; lia.
  - by destruct t.
Qed.

(** The body of a struct, read back by the scanner, is an object with the
    keys of the members that were written, in their order. *)
Lemma struct_body_keys fs vs members :
  sequence (struct_members vs fs) = Ok members ->
  no_float (VStruct vs) = true ->
  nesting (VStruct vs) <= maxNestingDepth ->
  forallb plain (field_json <$> fs) = true ->
  object_keys (object members) = Some (members.*1).
Proof.
  intros Hseq Hnf Hd Hplain.
  assert (Forall (fun kv : string * string => readable 1 (snd kv)) members) as Hall.
  { cbn [no_float nesting] in Hnf, Hd.
    eapply (struct_members_readable 1); [|done|done|lia].
    apply Forall_forall. intros v _. apply marshal_readable. }
  destruct (parse_object 0 members "" (2 * String.length (object members) + 2))
    as (m & Hm & Hkeys); [done|done|lia|].
  rewrite append_empty_r in Hm.
  unfold object_keys, parse. rewrite Hm. cbn [skip_space String.eqb].
  f_equal. apply Hkeys.
  apply Forall_forall. intros [k e] Hin. cbn [fst].
  assert (k ∈ field_json <$> fs) as Hk.
  { apply (written_keys_subseteq vs). rewrite <- (sequence_struct_members _ _ _ Hseq).
    by apply (list_elem_of_fmap_2 fst) in Hin. }
  rewrite forallb_forall in Hplain. apply Hplain. by apply list_elem_of_In.
Qed.

(** The JSON names of the request structs need no escaping. *)
Lemma request_structs_plain T fs :
  T ∈ request_structs -> T = TStruct fs -> forallb plain (field_json <$> fs) = true.
Proof.
  unfold request_structs. intros H ->.
  repeat (apply elem_of_cons in H as [H|H];
          [cbv delta in H; injection H as ->; by vm_compute|]).
  by apply elem_of_nil in H.
Qed.

(** The members written are those of the kept fields, each the JSON name
    of its field with the encoding of its value. *)
Lemma sequence_struct_members_kept vs : ∀ fs members,
  sequence (struct_members vs fs) = Ok members ->
  Forall2 member_of members (kept vs fs).
Proof.
  induction vs as [|v vs IH]; intros [|[n j o t] fs] members; simpl;
    try (intros [= <-]; by constructor).
  destruct (o && isEmptyValue v); [by apply IH|].
  simpl. destruct (marshal v t) as [e|err] eqn:Ee; simpl; [|done].
  destruct (sequence (struct_members vs fs)) as [ms|err] eqn:E; simpl; [|done].
  intros [= <-]. constructor; [done|]. by apply IH.
Qed.

(** A field has its key written exactly when it is not an [omitempty]
    field with an empty value. *)
Lemma written_keys_iff fs vs i f v :
  NoDup (field_json <$> fs) ->
  fs !! i = Some f -> vs !! i = Some v ->
  field_json f ∈ written_keys vs fs ↔ field_omitempty f && isEmptyValue v = false.
Proof.
  intros Hnd Hf Hv. split.
  - intros Hin. destruct (field_omitempty f) eqn:Ho; [|done].
    destruct (isEmptyValue v) eqn:He; [|done].
    by destruct (written_keys_omitted fs vs i f v Hnd Hf Hv Ho He).
  - intros [Ho|He]%andb_false_iff.
    + by eapply written_keys_required.
    + by eapply written_keys_present.
Qed.

(** C5, as amended. In the JSON body of every create and update request
    struct, the members are exactly those of the fields that are not
    optional ([omitempty]) fields with an empty value, each the JSON name
    of its field with the encoding of its value; read back by the JSON
    scanner, the body is an object with exactly the keys of these members
    (for a request that holds no floating-point number and nests within
    the limit of the scanner).  So an optional field that is left unset,
    that is at its zero value, has no member at all: its key is absent.  A
    pointer or interface field that is set has its member whatever it
    holds; for these it is the presence of the field that decides.  An
    optional list or string field set to the empty list or the empty string
    has no member, like an unset one.  A short link created with only the
    long URL [https://example.com] and the domain [t.ly] is sent as the
    object with exactly the keys [long_url] and [domain]. *)
Theorem optional_fields_omitted T fs vs body :
  T ∈ request_structs -> T = TStruct fs ->
  Marshal (VIface T (VStruct vs)) = Ok body ->
  (∃ members,
     body = object members
     ∧ Forall2 member_of members (kept vs fs)
     ∧ (no_float (VStruct vs) = true -> nesting (VStruct vs) <= maxNestingDepth ->
        object_keys body = Some (members.*1))
     ∧ (∀ i f v, fs !! i = Some f -> vs !! i = Some v ->
          field_json f ∈ members.*1
          ↔ field_omitempty f && isEmptyValue v = false)
     ∧ (∀ i f, fs !! i = Some f -> field_omitempty f = true ->
               vs !! i = Some (zero (field_type f)) ->
               field_json f ∉ members.*1)
     ∧ (∀ i f v, fs !! i = Some f -> vs !! i = Some (VPtr v) ->
                 field_json f ∈ members.*1)
     ∧ (∀ i f t v, fs !! i = Some f -> vs !! i = Some (VIface t v) ->
                   field_json f ∈ members.*1)
     ∧ (∀ i f, fs !! i = Some f -> field_omitempty f = true ->
               vs !! i = Some (VSlice []) ∨ vs !! i = Some (VString "") ->
               field_json f ∉ members.*1))
  ∧ Marshal (VIface ShortLinkCreateRequest example_link) = Ok example_link_body
  ∧ object_keys example_link_body = Some ["long_url"; "domain"]
  ∧ ∀ c sent,
      let url := TrimRight (BaseURL c) "/" +:+ "/api/v1/link/shorten" in
      NewRequest_rejects http.MethodPost url = None ->
      snd (CreateShortLink c example_link sent)
      = sent ++ [outgoing c "POST" url example_link_body].
Proof.
  intros HT -> Hm. split; [|split; [by vm_compute|split; [by vm_compute|]]].
  - pose proof (request_structs_tags_ok _ fs HT eq_refl) as Hok.
    apply andb_prop in Hok as [Hnd Hzero].
    apply bool_decide_eq_true in Hnd.
    change (Marshal (VIface (TStruct fs) (VStruct vs)))
      with (marshal (VStruct vs) (TStruct fs)) in Hm.
    rewrite marshal_struct in Hm.
    destruct (sequence (struct_members vs fs)) as [members|e] eqn:E; [|done].
    injection Hm as <-. exists members. split; [done|].
    split; [by apply sequence_struct_members_kept|].
    split.
    { intros Hnf Hd. eapply struct_body_keys; [done..|].
      by eapply request_structs_plain. }
    rewrite (sequence_struct_members _ _ _ E).
    split; [|split; [|split; [|split]]].
    + intros i f v Hf Hv. by apply (written_keys_iff fs vs i).
    + intros i f Hf Ho Hv. eapply written_keys_omitted; [done..|].
      rewrite forallb_forall in Hzero.
      assert (In f fs) as Hin.
      { apply list_elem_of_In. by eapply list_elem_of_lookup_2. }
      specialize (Hzero f Hin). by rewrite Ho in Hzero.
    + intros i f v Hf Hv. by eapply written_keys_present.
    + intros i f t v Hf Hv. by eapply written_keys_present.
    + intros i f Hf Ho [Hv|Hv]; by eapply written_keys_omitted.
  - intros c sent url Hreq. unfold CreateShortLink.
    rewrite (bind_ret_sent _ value_at), doRequest_sent.
    assert (requestURL c "/api/v1/link/shorten" None = url) as Hurl.
    { unfold requestURL. by rewrite append_empty_r. }
    rewrite (doRequestRaw_sent c http.MethodPost "/api/v1/link/shorten" None
               (VIface ShortLinkCreateRequest example_link) sent example_link_body).
    + by rewrite Hurl.
    + by vm_compute.
    + by rewrite Hurl.
Qed.

(** ** Properties of the UTM preset decoding *)

(** C1, as amended. Decoding a UTM preset, or a list of them, first tries
    the bytes as the target itself; only when that fails does it try them
    as an object whose [data] member is the target, and unwrap; when both
    fail the error names the preset response.  The bytes
    [{"id":1,"name":"x"}] decode at the first attempt; for the list, the
    bytes [{"data":[{"id":1,"name":"x"}]}] decode at the second.  The bytes
    [{"foo":1}] do not fail: a key that names no field is skipped, so they
    decode to the zero preset, and to the nil list.  Bytes that are not
    JSON fail with the error. *)
Theorem decodeUTMPreset_attempts data :
  (∀ preset, Unmarshal data UTMPreset (zero UTMPreset) = Ok preset ->
     decodeUTMPreset data = Ok preset)
  ∧ (∀ e wrapped,
       Unmarshal data UTMPreset (zero UTMPreset) = Err e ->
       Unmarshal data wrapped_UTMPreset (zero wrapped_UTMPreset) = Ok wrapped ->
       decodeUTMPreset data = Ok (select wrapped_UTMPreset wrapped "Data"))
  ∧ (∀ e e',
       Unmarshal data UTMPreset (zero UTMPreset) = Err e ->
       Unmarshal data wrapped_UTMPreset (zero wrapped_UTMPreset) = Err e' ->
       decodeUTMPreset data = Err (Errorf "unable to decode UTM preset response"))
  ∧ (∀ presets, Unmarshal data (TSlice UTMPreset) VNil = Ok presets ->
       ListUTMPresets_decode data = Ok presets)
  ∧ (∀ e wrapped,
       Unmarshal data (TSlice UTMPreset) VNil = Err e ->
       Unmarshal data wrapped_UTMPresets (zero wrapped_UTMPresets) = Ok wrapped ->
       ListUTMPresets_decode data = Ok (select wrapped_UTMPresets wrapped "Data"))
  ∧ (∀ e e',
       Unmarshal data (TSlice UTMPreset) VNil = Err e ->
       Unmarshal data wrapped_UTMPresets (zero wrapped_UTMPresets) = Err e' ->
       ListUTMPresets_decode data
       = Err (Errorf "unable to decode UTM preset list response"))
  ∧ Unmarshal preset_bytes UTMPreset (zero UTMPreset) = Ok preset_x
  ∧ decodeUTMPreset preset_bytes = Ok preset_x
  ∧ is_Ok (Unmarshal wrapped_list_bytes (TSlice UTMPreset) VNil) = false
  ∧ ListUTMPresets_decode wrapped_list_bytes = Ok (VSlice [preset_x])
  ∧ decodeUTMPreset foo_bytes = Ok (zero UTMPreset)
  ∧ ListUTMPresets_decode foo_bytes = Ok VNil
  ∧ decodeUTMPreset "not json" = Err (Errorf "unable to decode UTM preset response")
  ∧ ListUTMPresets_decode "not json"
    = Err (Errorf "unable to decode UTM preset list response").
Proof.
  split; [|split; [|split; [|split; [|split; [|split]]]]].
  - intros preset H. unfold decodeUTMPreset. by rewrite H.
  - intros e wrapped H1 H2. unfold decodeUTMPreset. by rewrite H1, H2.
  - intros e e' H1 H2. unfold decodeUTMPreset. by rewrite H1, H2.
  - intros presets H. unfold ListUTMPresets_decode.
    change (zero (TSlice UTMPreset)) with VNil. by rewrite H.
  - intros e wrapped H1 H2. unfold ListUTMPresets_decode.
    change (zero (TSlice UTMPreset)) with VNil. by rewrite H1, H2.
  - intros e e' H1 H2. unfold ListUTMPresets_decode.
    change (zero (TSlice UTMPreset)) with VNil. by rewrite H1, H2.
  - clear data. repeat split; by vm_compute.
Qed.

(** ** Further properties of the dispatch core *)

(** X1. The failures of [doRequestRaw] after the body is encoded, in the
    order the code meets them.  A request that cannot be built is an error
    and nothing is sent.  A transport error is returned as it is, after the
    one send.  An error of reading the response body is returned as it is
    whatever the status code: a status outside 200-299 gives no [APIError]
    then. *)
Theorem doRequestRaw_failures c method path query body sent reqBody :
  body_bytes body = Ok reqBody ->
  let url := requestURL c path query in
  let req := outgoing c method url reqBody in
  (∀ msg, NewRequest_rejects method url = Some msg ->
     doRequestRaw c method path query body sent = (Err (ErrNewRequest msg), sent))
  ∧ (NewRequest_rejects method url = None ->
     (∀ e, http.Do (HTTP c) req = Err e ->
        doRequestRaw c method path query body sent = (Err e, sent ++ [req]))
     ∧ (∀ resp e, http.Do (HTTP c) req = Ok resp -> http.ReadAll resp = Err e ->
        doRequestRaw c method path query body sent = (Err e, sent ++ [req]))).
Proof.
  intros Hbody url req. split; [|intros Hreq; split].
  - intros msg Hmsg. subst url. by rewrite doRequestRaw_run, Hbody, Hmsg.
  - intros e Hdo. subst req url. rewrite doRequestRaw_run, Hbody, Hreq. simpl.
    by rewrite Hdo.
  - intros resp e Hdo Hread. subst req url.
    rewrite doRequestRaw_run, Hbody, Hreq. simpl. rewrite Hdo.
    unfold classify. simpl. by rewrite Hread.
Qed.

(** X2. A call of [doRequest] or [doRequestRaw] sends at most one request,
    and decoding sends nothing more.  The request sent has the method asked
    for, or GET when that is the empty string, the body encoded from
    [body], and exactly three headers: the bearer token of the client, and
    JSON as content type and as accepted type. *)
Theorem doRequest_single_request c method path query body result sent :
  snd (doRequest c method path query body result sent)
  = snd (doRequestRaw c method path query body sent)
  ∧ (snd (doRequestRaw c method path query body sent) = sent
     ∨ ∃ req,
         snd (doRequestRaw c method path query body sent) = sent ++ [req]
         ∧ http.Method req = (if String.eqb method "" then "GET" else method)
         ∧ body_bytes body = Ok (http.Body req)
         ∧ http.Header req !! "Authorization" = Some ["Bearer " +:+ APIKey c]
         ∧ http.Header req !! "Content-Type" = Some ["application/json"]
         ∧ http.Header req !! "Accept" = Some ["application/json"]
         ∧ size (http.Header req) = 3%nat).
Proof.
  split; [apply doRequest_sent|].
  rewrite doRequestRaw_run.
  destruct (body_bytes body) as [reqBody|e]; [|by left].
  destruct (NewRequest_rejects _ _); [by left|].
  right. eexists. split; [reflexivity|]. repeat split.
Qed.

(** The outcome of [doRequestRaw] on a request that is answered. *)
Lemma doRequestRaw_answered c method path query body sent reqBody url resp data :
  body_bytes body = Ok reqBody ->
  requestURL c path query = url ->
  answered c method url reqBody resp data ->
  doRequestRaw c method path query body sent =
  (if (http.StatusCode resp <? 200) || (300 <=? http.StatusCode resp)
   then Err (ErrAPI {| StatusCode := http.StatusCode resp; Body := data |})
   else Ok data,
   sent ++ [outgoing c method url reqBody]).
Proof. intros Hbody <- (Hreq & Hdo & Hread). by apply doRequestRaw_answer. Qed.

Lemma requestURL_no_query c path :
  requestURL c path None = TrimRight (BaseURL c) "/" +:+ path.
Proof. unfold requestURL. by rewrite append_empty_r. Qed.

(** What a method without a result returns. *)
Lemma perform_result c method path query body sent :
  fst ((_ ← doRequest c method path query body ResultNil; mret ()) sent)
  = (_ ← fst (doRequestRaw c method path query body sent); Ok ()).
Proof.
  unfold mbind at 1, M_bind at 1.
  destruct (doRequestRaw c method path query body sent) as [[data|e] sent'] eqn:E.
  - by rewrite (doRequest_ok _ _ _ _ _ ResultNil _ _ _ E).
  - by rewrite (doRequest_error _ _ _ _ _ ResultNil _ _ _ E).
Qed.

(** X3. The deletes never look at the response body: once the response to
    the request of a delete has come back and been read, a 2xx status makes
    it succeed whatever the bytes are, and any other status gives the
    [APIError] with those bytes. *)
Theorem delete_outcome c sent resp data :
  let base := TrimRight (BaseURL c) "/" in
  let one shortURL :=
    "{" +:+ quoted "short_url" +:+ ":" +:+ appendString shortURL +:+ "}" in
  let outcome : result unit :=
    if (http.StatusCode resp <? 200) || (300 <=? http.StatusCode resp)
    then Err (ErrAPI {| StatusCode := http.StatusCode resp; Body := data |})
    else Ok () in
  (∀ id,
     answered c "DELETE" (base +:+ "/api/v1/link/pixel/" +:+ Itoa id) "" resp data ->
     fst (DeletePixel c id sent) = outcome)
  ∧ (∀ id,
       answered c "DELETE" (base +:+ "/api/v1/link/tag/" +:+ Itoa id) "" resp data ->
       fst (DeleteTag c id sent) = outcome)
  ∧ (∀ id,
       answered c "DELETE" (base +:+ "/api/v1/link/utm-preset/" +:+ Itoa id) ""
         resp data ->
       fst (DeleteUTMPreset c id sent) = outcome)
  ∧ (∀ shortURL,
       answered c "DELETE" (base +:+ "/api/v1/link") (one shortURL) resp data ->
       fst (DeleteShortLink c shortURL sent) = outcome)
  ∧ (∀ shortURL,
       answered c "DELETE" (base +:+ "/api/v1/onelink/stat") (one shortURL) resp data ->
       fst (DeleteOneLinkStats c shortURL sent) = outcome).
Proof.
  intros base one outcome.
  assert (∀ path body reqBody,
    body_bytes body = Ok reqBody ->
    answered c http.MethodDelete (base +:+ path) reqBody resp data ->
    fst ((_ ← doRequest c http.MethodDelete path None body ResultNil; mret ()) sent)
    = outcome) as H.
  { intros path body reqBody Hbody Hans. rewrite perform_result.
    rewrite (doRequestRaw_answered c _ path None body sent reqBody _ resp data
               Hbody (requestURL_no_query c path) Hans).
    simpl. subst outcome.
    by destruct ((http.StatusCode resp <? 200) || (300 <=? http.StatusCode resp)). }
  split; [|split; [|split; [|split]]]; intros x Hans.
  - by apply (H _ VNil "").
  - by apply (H _ VNil "").
  - by apply (H _ VNil "").
  - by apply (H "/api/v1/link" _ (one x)).
  - by apply (H "/api/v1/onelink/stat" _ (one x)).
Qed.

(** What a method that asks for the raw bytes returns. *)
Lemma raw_result c method path query body sent data sent' :
  doRequestRaw c method path query body sent = (Ok data, sent') ->
  (r ← doRequest c method path query body (ResultBytes ""); mret (bytes_at r)) sent
  = (Ok (if (String.length (TrimSpace data) =? 0)%nat then "" else data), sent').
Proof.
  intros E. unfold mbind at 1, M_bind at 1.
  rewrite (doRequest_ok _ _ _ _ _ (ResultBytes "") _ _ _ E).
  by destruct (String.length (TrimSpace data) =? 0)%nat.
Qed.

(** X4. The raw-payload methods return the bytes of a 2xx response to
    their request as they are, with one exception: a body that is empty
    after trimming white space is returned as the empty string, not as
    those bytes. *)
Theorem raw_methods_result c sent resp data :
  200 <= http.StatusCode resp < 300 ->
  let base := TrimRight (BaseURL c) "/" in
  let payload := if (String.length (TrimSpace data) =? 0)%nat then "" else data in
  (∀ queryParams,
     answered c "GET"
       (requestURL c "/api/v1/link/list" (Some (queryFromMap queryParams))) ""
       resp data ->
     fst (ListShortLinks c queryParams sent) = Ok payload)
  ∧ (∀ reqData reqBody,
       Marshal (VIface BulkShortenRequest reqData) = Ok reqBody ->
       answered c "POST" (base +:+ "/api/v1/link/bulk") reqBody resp data ->
       fst (BulkShortenLinks c reqData sent) = Ok payload)
  ∧ (∀ reqData reqBody,
       Marshal (VIface BulkUpdateRequest reqData) = Ok reqBody ->
       answered c "POST" (base +:+ "/api/v1/link/bulk/update") reqBody resp data ->
       fst (BulkUpdateLinks c reqData sent) = Ok payload)
  ∧ (blank data = true -> payload = "").
Proof.
  intros Hcode base payload.
  assert ((http.StatusCode resp <? 200) || (300 <=? http.StatusCode resp) = false)
    as Hb by (apply orb_false_iff; split; lia).
  assert (∀ method path query body reqBody url,
    body_bytes body = Ok reqBody ->
    requestURL c path query = url ->
    answered c method url reqBody resp data ->
    fst ((r ← doRequest c method path query body (ResultBytes ""); mret (bytes_at r)) sent)
    = Ok payload) as H.
  { intros method path query body reqBody url Hbody Hurl Hans.
    pose proof (doRequestRaw_answered c method path query body sent reqBody url
                  resp data Hbody Hurl Hans) as E.
    rewrite Hb in E. by rewrite (raw_result _ _ _ _ _ _ _ _ E). }
  split; [|split; [|split]].
  - intros queryParams Hans. by apply (H _ _ _ VNil "" _ eq_refl eq_refl).
  - intros reqData reqBody Hm Hans.
    by apply (H _ _ _ (VIface BulkShortenRequest reqData) reqBody _ Hm
                (requestURL_no_query c _)).
  - intros reqData reqBody Hm Hans.
    by apply (H _ _ _ (VIface BulkUpdateRequest reqData) reqBody _ Hm
                (requestURL_no_query c _)).
  - intros Hblank. subst payload. by rewrite (TrimSpace_blank _ Hblank).
Qed.

(** ** Further properties of the UTM preset decoding *)

(** After the JSON white space of a blank text nothing is left, or a
    vertical tab or form feed. *)
Lemma skip_space_blank (s : string) :
  blank s = true ->
  skip_space s = ""
  ∨ ∃ r, skip_space s = String "011" r ∨ skip_space s = String "012" r.
Proof.
  unfold blank. induction s as [|c s IH]; [by left|].
  simpl. intros [Hc Hs]%andb_prop. unfold in_range in Hc.
  assert (byte_val c = 9 ∨ byte_val c = 10 ∨ byte_val c = 11 ∨ byte_val c = 12
          ∨ byte_val c = 13 ∨ byte_val c = 32) as H by lia.
  destruct H as [H|[H|[H|[H|[H|H]]]]]; apply byte_val_inv in H; subst c;
    simpl; try (by apply IH); right; exists s; first [by left | by right].
Qed.

(** A blank text is not JSON. *)
Lemma parse_blank (data : string) : blank data = true -> parse data = None.
Proof.
  intros Hb. unfold parse.
  replace (2 * String.length data + 2)%nat
    with (S (2 * String.length data + 1)) by lia.
  cbn [parse_value].
  destruct (skip_space_blank data Hb) as [->|[r [->| ->]]]; reflexivity.
Qed.

(** X5. Every failure of the two-attempt decoding is the one fixed error
    of the function: the JSON error of either attempt is never returned.
    Bytes that are not JSON fail in this way, for the single preset and
    for the list. *)
Theorem decodeUTMPreset_errors data :
  (∀ e, decodeUTMPreset data = Err e ->
        e = Errorf "unable to decode UTM preset response")
  ∧ (∀ e, ListUTMPresets_decode data = Err e ->
          e = Errorf "unable to decode UTM preset list response")
  ∧ (parse data = None ->
     decodeUTMPreset data = Err (Errorf "unable to decode UTM preset response")
     ∧ ListUTMPresets_decode data
       = Err (Errorf "unable to decode UTM preset list response")).
Proof.
  split; [|split].
  - intros e. unfold decodeUTMPreset.
    destruct (Unmarshal data UTMPreset _); [done|].
    destruct (Unmarshal data wrapped_UTMPreset _); [done|]. by intros [= <-].
  - intros e. unfold ListUTMPresets_decode.
    destruct (Unmarshal data (TSlice UTMPreset) _); [done|].
    destruct (Unmarshal data wrapped_UTMPresets _); [done|]. by intros [= <-].
  - intros Hp. unfold decodeUTMPreset, ListUTMPresets_decode, Unmarshal.
    by rewrite Hp.
Qed.

(** What a method that decodes into a fresh variable returns. *)
Lemma typed_result c method path query body t sent data sent' :
  doRequestRaw c method path query body sent = (Ok data, sent') ->
  (r ← doRequest c method path query body (ResultJSON t (zero t)); mret (value_at r)) sent
  = (if (String.length (TrimSpace data) =? 0)%nat then Ok (zero t)
     else Unmarshal data t (zero t), sent').
Proof.
  intros E. unfold mbind at 1, M_bind at 1.
  rewrite (doRequest_ok _ _ _ _ _ (ResultJSON t (zero t)) _ _ _ E).
  destruct (String.length (TrimSpace data) =? 0)%nat; [done|].
  by destruct (Unmarshal data t (zero t)).
Qed.

(** Bytes that are not JSON fail both attempts. *)
Lemma decodeUTMPreset_not_json data :
  parse data = None ->
  decodeUTMPreset data = Err (Errorf "unable to decode UTM preset response")
  ∧ ListUTMPresets_decode data
    = Err (Errorf "unable to decode UTM preset list response").
Proof.
  intros Hp. unfold decodeUTMPreset, ListUTMPresets_decode, Unmarshal.
  by rewrite Hp.
Qed.

(** X6. The UTM preset reads have no shortcut for an empty body: on a 2xx
    response to their request whose body is blank, [GetUTMPreset] and
    [ListUTMPresets] fail with their decoding error, where the pixel reads,
    which go through [doRequest], return the zero pixel and the nil list. *)
Theorem utm_blank_body c sent resp data :
  200 <= http.StatusCode resp < 300 ->
  blank data = true ->
  let base := TrimRight (BaseURL c) "/" in
  (∀ id,
     answered c "GET" (base +:+ "/api/v1/link/utm-preset/" +:+ Itoa id) "" resp data ->
     fst (GetUTMPreset c id sent)
     = Err (Errorf "unable to decode UTM preset response"))
  ∧ (answered c "GET" (base +:+ "/api/v1/link/utm-preset") "" resp data ->
     fst (ListUTMPresets c sent)
     = Err (Errorf "unable to decode UTM preset list response"))
  ∧ (∀ id,
       answered c "GET" (base +:+ "/api/v1/link/pixel/" +:+ Itoa id) "" resp data ->
       fst (GetPixel c id sent) = Ok (zero Pixel))
  ∧ (answered c "GET" (base +:+ "/api/v1/link/pixel") "" resp data ->
     fst (ListPixels c sent) = Ok VNil).
Proof.
  intros Hcode Hblank base.
  assert ((http.StatusCode resp <? 200) || (300 <=? http.StatusCode resp) = false)
    as Hb by (apply orb_false_iff; split; lia).
  assert (∀ path, answered c http.MethodGet (base +:+ path) "" resp data ->
    doRequestRaw c http.MethodGet path None VNil sent
    = (Ok data, sent ++ [outgoing c http.MethodGet (base +:+ path) ""])) as H.
  { intros path Hans.
    rewrite (doRequestRaw_answered c _ path None VNil sent "" _ resp data eq_refl
               (requestURL_no_query c path) Hans). by rewrite Hb. }
  destruct (decodeUTMPreset_not_json _ (parse_blank _ Hblank)) as [Hone Hlist].
  split; [|split; [|split]].
  - intros id Hans. unfold GetUTMPreset, mbind, M_bind, lift.
    rewrite (H _ Hans). by rewrite Hone.
  - intros Hans. unfold ListUTMPresets, mbind, M_bind, lift.
    rewrite (H _ Hans). by rewrite Hlist.
  - intros id Hans. unfold GetPixel.
    rewrite (typed_result _ _ _ _ _ _ _ _ _ (H _ Hans)).
    by rewrite (TrimSpace_blank _ Hblank).
  - intros Hans. unfold ListPixels.
    rewrite (typed_result _ _ _ _ _ _ _ _ _ (H _ Hans)).
    by rewrite (TrimSpace_blank _ Hblank).
Qed.

(** An object none of whose keys names a field leaves a struct as it is. *)
Lemma decode_struct_unknown fs vs m :
  Forall (fun kv : string * jvalue => find_field fs (fst kv) = None) m ->
  decode (TStruct fs) (JObject m) (VStruct vs) = Ok (VStruct vs).
Proof.
  intros Hm. cbn [decode].
  match goal with
  | |- mbind _ (fold_left ?f m (Ok vs)) = _ =>
      assert (fold_left f m (Ok vs) = Ok vs) as ->; [|done]
  end.
  induction Hm as [|kv m Hkv Hm IH]; [done|].
  cbn [fold_left]. unfold mbind at 2, result_bind at 2. by rewrite Hkv.
Qed.

(** X7. Bytes that are a JSON object none of whose keys names a field of
    [UTMPreset], exactly or up to case, decode at the first attempt to the
    zero preset, so the wrapper is not tried for them; an object whose only
    key is [data] is such an object. *)
Theorem decodeUTMPreset_unknown_keys data m :
  parse data = Some (JObject m) ->
  Forall (fun kv : string * jvalue => find_field UTMPreset_fields (fst kv) = None) m ->
  decodeUTMPreset data = Ok (zero UTMPreset)
  ∧ find_field UTMPreset_fields "data" = None.
Proof.
  intros Hp Hm. split; [|by vm_compute].
  unfold decodeUTMPreset, Unmarshal. rewrite Hp.
  change UTMPreset with (TStruct UTMPreset_fields).
  change (zero (TStruct UTMPreset_fields))
    with (VStruct (map (fun f => let 'Field _ _ _ t := f in zero t) UTMPreset_fields)).
  by rewrite (decode_struct_unknown _ _ _ Hm).
Qed.

(** ** Further properties of the queries *)

(** [addIndexedIntSlice] leaves a key alone that is none of the keys of its
    indices. *)
Lemma addIndexedIntSlice_from_frame values : ∀ i0 (query : Values) key k,
  (∀ j, i0 <= j < i0 + Z.of_nat (length values) ->
        k ≠ key +:+ "[" +:+ Itoa j +:+ "]") ->
  addIndexedIntSlice_from i0 query key values !! k = query !! k.
Proof.
  induction values as [|v values IH]; intros i0 query key k Hk; [done|].
  cbn [addIndexedIntSlice_from]. cbn [length] in Hk. rewrite IH.
  - unfold Values_Set. rewrite lookup_insert_ne; [done|].
    intros Heq. apply (Hk i0); [lia|done].
  - intros j Hj. apply Hk. lia.
Qed.

(** X8. [addIndexedIntSlice] touches the keys of its indices and no other:
    a key that is not [key[j]] for a position [j] of the input keeps its
    binding, or its absence; a key is bound afterwards exactly when it was
    bound before or is the key of a position; with no values the query is
    returned as it was. *)
Theorem addIndexedIntSlice_frame (query : Values) key values k :
  ((∀ j, 0 <= j < Z.of_nat (length values) ->
         k ≠ key +:+ "[" +:+ Itoa j +:+ "]") ->
   addIndexedIntSlice query key values !! k = query !! k)
  ∧ (is_Some (addIndexedIntSlice query key values !! k)
     ↔ is_Some (query !! k)
       ∨ ∃ i v, values !! i = Some v
                ∧ k = key +:+ "[" +:+ Itoa (Z.of_nat i) +:+ "]")
  ∧ addIndexedIntSlice query key [] = query.
Proof.
  assert ((∀ j, 0 <= j < Z.of_nat (length values) ->
             k ≠ key +:+ "[" +:+ Itoa j +:+ "]") ->
          addIndexedIntSlice query key values !! k = query !! k) as Hframe.
  { intros Hk. unfold addIndexedIntSlice. by apply addIndexedIntSlice_from_frame. }
  split; [exact Hframe|]. split; [|done].
  destruct (decide (Exists (fun i => k = key +:+ "[" +:+ Itoa (Z.of_nat i) +:+ "]")
                      (seq 0 (length values)))) as [Hex|Hnex].
  - apply Exists_exists in Hex as (i & Hi & ->).
    apply elem_of_seq in Hi as [_ Hi]. simpl in Hi.
    destruct (lookup_lt_is_Some_2 values i Hi) as [v Hv].
    rewrite (addIndexedIntSlice_lookup query key values i v Hv).
    split; [|by eexists]. intros _. right. by exists i, v.
  - rewrite Hframe.
    + split; [by left|]. intros [H|(i & v & Hv & ->)]; [done|].
      exfalso. apply Hnex. apply Exists_exists. exists i. split; [|done].
      apply elem_of_seq. split; [lia|]. simpl. by eapply lookup_lt_Some.
    + intros j Hj Heq. apply Hnex. apply Exists_exists. exists (Z.to_nat j).
      split; [apply elem_of_seq; simpl; lia|]. by rewrite Z2Nat.id by lia.
Qed.

Lemma queryFromMap_lookup (params : gmap string string) k :
  queryFromMap params !! k = (fun v => [v]) <$> params !! k.
Proof.
  unfold queryFromMap. revert k.
  apply (map_fold_weak_ind
           (fun (r : Values) (m : gmap string string) =>
              ∀ k, r !! k = (fun v => [v]) <$> m !! k)).
  - intros k. by rewrite !lookup_empty.
  - intros i x m r Hi IH k. unfold Values_Set.
    destruct (decide (i = k)) as [->|Hne].
    + by rewrite !lookup_insert_eq.
    + by rewrite !lookup_insert_ne, IH.
Qed.

(** X9. [queryFromMap] turns a map of parameters into the query with the
    same keys, each bound to the one value of the parameter; each parameter
    is a pair of the encoded query; the empty map, and the nil map, give the
    empty query, for which the URL has no [?]. *)
Theorem queryFromMap_bindings (params : gmap string string) :
  (∀ k, queryFromMap params !! k = (fun v => [v]) <$> params !! k)
  ∧ (∀ k v, params !! k = Some v ->
       QueryEscape k +:+ "=" +:+ QueryEscape v ∈ Encode_pairs (queryFromMap params))
  ∧ size (queryFromMap params) = size params
  ∧ queryFromMap ∅ = ∅
  ∧ ∀ c path, requestURL c path (Some (queryFromMap ∅))
              = TrimRight (BaseURL c) "/" +:+ path.
Proof.
  split; [apply queryFromMap_lookup|]. split; [|split; [|split]].
  - intros k v Hk. apply (Encode_pairs_elem _ k [v]); [|apply list_elem_of_here].
    by rewrite queryFromMap_lookup, Hk.
  - rewrite <- (map_size_fmap (fun v : string => [v]) params). f_equal.
    apply map_eq. intros k. by rewrite queryFromMap_lookup, lookup_fmap.
  - reflexivity.
  - intros c path. unfold requestURL.
    replace (Nat.ltb 0 (size (queryFromMap ∅))) with false by reflexivity.
    by rewrite append_empty_r.
Qed.

Lemma Values_Set_if_lookup (b : bool) (query : Values) k v :
  (if b then Values_Set query k v else query) !! k
  = if b then Some [v] else query !! k.
Proof. destruct b; [|done]. unfold Values_Set. by rewrite lookup_insert_eq. Qed.

(** X10. The scalar filters of [ListShortLinksDetailed] are sent exactly
    when they are set: [search], [start_date] and [end_date] when the
    string is not empty, [page] when the number is positive (zero and
    negative pages are not sent).  The one GET of the method goes to the
    URL of its query, which binds each of the four keys in this way; when
    no list filter is set, the URL is the list path followed by the pairs
    of the filters that are set, in the byte order of their keys, and with
    no option set it is the list path alone. *)
Theorem ListShortLinksDetailed_scalar_filters c options sent :
  let base := TrimRight (BaseURL c) "/" in
  let q := ListShortLinksDetailed_query options in
  let url := requestURL c "/api/v1/link/list" (Some q) in
  (NewRequest_rejects http.MethodGet url = None ->
   snd (ListShortLinksDetailed c options sent) = sent ++ [outgoing c "GET" url ""])
  ∧ q !! "search"
    = (if nonempty (Search options) then Some [Search options] else None)
  ∧ q !! "start_date"
    = (if nonempty (StartDate options) then Some [StartDate options] else None)
  ∧ q !! "end_date"
    = (if nonempty (EndDate options) then Some [EndDate options] else None)
  ∧ q !! "page"
    = (if 0 <? Page options then Some [Itoa (Page options)] else None)
  ∧ (TagIDs options = [] -> PixelIDs options = [] -> Domains options = [] ->
     let listed :=
       base +:+ "/api/v1/link/list"
       +:+ match scalar_filters options with
           | [] => ""
           | pairs => "?" +:+ Join pairs "&"
           end in
     url = listed
     ∧ (NewRequest_rejects http.MethodGet listed = None ->
        snd (ListShortLinksDetailed c options sent)
        = sent ++ [outgoing c "GET" listed ""])
     ∧ (Search options = "" -> StartDate options = "" -> EndDate options = "" ->
        Page options <= 0 -> listed = base +:+ "/api/v1/link/list")).
Proof.
  intros base q url.
  assert (NewRequest_rejects http.MethodGet url = None ->
          snd (ListShortLinksDetailed c options sent)
          = sent ++ [outgoing c "GET" url ""]) as Hsent.
  { intros Hreq.
    rewrite ListShortLinksDetailed_unfold, (bind_ret_sent _ value_at), doRequest_sent.
    by apply doRequestRaw_sent. }
  split; [exact Hsent|].
  split; [|split; [|split; [|split]]].
  - subst q. unfold ListShortLinksDetailed_query.
    rewrite Values_Set_if_other by distinct_keys.
    rewrite addIndexedIntSlice_other by distinct_keys.
    rewrite !Values_Set_if_other by distinct_keys.
    rewrite !addIndexedIntSlice_other by distinct_keys.
    by rewrite Values_Set_if_lookup, lookup_empty.
  - subst q. unfold ListShortLinksDetailed_query.
    rewrite Values_Set_if_other by distinct_keys.
    rewrite addIndexedIntSlice_other by distinct_keys.
    rewrite Values_Set_if_other by distinct_keys.
    rewrite Values_Set_if_lookup.
    rewrite !addIndexedIntSlice_other by distinct_keys.
    by rewrite Values_Set_if_other, lookup_empty by distinct_keys.
  - subst q. unfold ListShortLinksDetailed_query.
    rewrite Values_Set_if_other by distinct_keys.
    rewrite addIndexedIntSlice_other by distinct_keys.
    rewrite Values_Set_if_lookup.
    rewrite Values_Set_if_other by distinct_keys.
    rewrite !addIndexedIntSlice_other by distinct_keys.
    by rewrite Values_Set_if_other, lookup_empty by distinct_keys.
  - subst q. unfold ListShortLinksDetailed_query.
    rewrite Values_Set_if_lookup.
    rewrite addIndexedIntSlice_other by distinct_keys.
    rewrite !Values_Set_if_other by distinct_keys.
    rewrite !addIndexedIntSlice_other by distinct_keys.
    by rewrite Values_Set_if_other, lookup_empty by distinct_keys.
  - intros Htags Hpixels Hdomains listed.
    assert (url = listed) as Hurl.
    { subst url q listed base. clear Hsent.
      destruct options as [search tags pixels startDate endDate domains page].
      cbn [TagIDs PixelIDs Domains] in Htags, Hpixels, Hdomains. subst.
      unfold scalar_filters, ListShortLinksDetailed_query.
      cbn [Search TagIDs PixelIDs StartDate EndDate Domains Page].
      match goal with |- ?lhs = _ => set (requested := lhs) end.
      try rewrite <- (QueryEscape_Itoa page). subst requested.
      destruct (nonempty search), (nonempty startDate), (nonempty endDate),
        (0 <? page); cbn [app Join];
        rewrite ?append_assoc, ?append_empty_r; reflexivity. }
    split; [exact Hurl|]. split.
    + rewrite <- Hurl. exact Hsent.
    + intros Hsearch Hstart Hend Hpage. subst listed. unfold scalar_filters.
      rewrite Hsearch, Hstart, Hend.
      assert ((0 <? Page options) = false) as -> by (apply Z.ltb_ge; lia).
      cbn [nonempty String.eqb negb app]. by rewrite append_empty_r.
Qed.

(** ** Further properties of the endpoint methods *)

Lemma bind_lift_sent {A B} (m : M A) (g : A -> result B) sent :
  snd ((x ← m; lift (g x)) sent) = snd (m sent).
Proof.
  unfold mbind, M_bind, lift. by destruct (m sent) as [[a|e] sent'].
Qed.

(** The one request of a method that goes through [doRequest]. *)
Lemma doRequest_request {A} c method path query body result (f : target -> A)
    sent reqBody url :
  body_bytes body = Ok reqBody ->
  requestURL c path query = url ->
  NewRequest_rejects method url = None ->
  snd ((r ← doRequest c method path query body result; mret (f r)) sent)
  = sent ++ [outgoing c method url reqBody].
Proof.
  intros Hbody <- Hreq. rewrite bind_ret_sent, doRequest_sent.
  by apply doRequestRaw_sent.
Qed.

(** The one request of a method that decodes after [doRequestRaw]. *)
Lemma doRequestRaw_request {B} c method path query body (g : string -> result B)
    sent reqBody url :
  body_bytes body = Ok reqBody ->
  requestURL c path query = url ->
  NewRequest_rejects method url = None ->
  snd ((data ← doRequestRaw c method path query body; lift (g data)) sent)
  = sent ++ [outgoing c method url reqBody].
Proof.
  intros Hbody <- Hreq. rewrite bind_lift_sent. by apply doRequestRaw_sent.
Qed.

(** X11. The stats methods send [short_url] always, even when it is empty,
    and each date only when it is not empty; in the URL the keys come in
    byte order, [end_date] before [short_url] before [start_date].
    [GetStatsWithRange] and [GetOneLinkStats] differ in the path only. *)
Theorem stats_range_requests c shortURL startDate endDate sent :
  let query := range_query shortURL startDate endDate in
  let stats := TrimRight (BaseURL c) "/" +:+ "/api/v1/link/stats?" +:+ query in
  let onelink := TrimRight (BaseURL c) "/" +:+ "/api/v1/onelink/stats?" +:+ query in
  (NewRequest_rejects http.MethodGet stats = None ->
   snd (GetStatsWithRange c
          {| Stats_ShortURL := shortURL; Stats_StartDate := startDate;
             Stats_EndDate := endDate |} sent)
   = sent ++ [outgoing c "GET" stats ""])
  ∧ (NewRequest_rejects http.MethodGet onelink = None ->
     snd (GetOneLinkStats c
            {| OneLink_ShortURL := shortURL; OneLink_StartDate := startDate;
               OneLink_EndDate := endDate |} sent)
     = sent ++ [outgoing c "GET" onelink ""])
  ∧ range_query "" "" "" = "short_url=".
Proof.
  intros query stats onelink. subst query stats onelink.
  split; [|split; [|reflexivity]]; intros Hreq.
  - unfold GetStatsWithRange. apply doRequest_request; [done| |done].
    unfold range_query. cbn [Stats_ShortURL Stats_StartDate Stats_EndDate].
    destruct (nonempty startDate), (nonempty endDate);
      rewrite ?append_assoc, ?append_empty_r; reflexivity.
  - unfold GetOneLinkStats. apply doRequest_request; [done| |done].
    unfold range_query. cbn [OneLink_ShortURL OneLink_StartDate OneLink_EndDate].
    destruct (nonempty startDate), (nonempty endDate);
      rewrite ?append_assoc, ?append_empty_r; reflexivity.
Qed.

(** X12. [ListOneLinks] sends the page only when it is positive: then the
    query is [page=<page>]; for zero and for negative pages the URL is the
    list path alone. *)
Theorem ListOneLinks_page c page sent :
  let url := TrimRight (BaseURL c) "/" +:+ "/api/v1/onelink/list"
             +:+ (if 0 <? page then "?page=" +:+ Itoa page else "") in
  NewRequest_rejects http.MethodGet url = None ->
  snd (ListOneLinks c page sent) = sent ++ [outgoing c "GET" url ""].
Proof.
  intros url Hreq. subst url. unfold ListOneLinks.
  apply doRequest_request; [done| |done].
  destruct (0 <? page); [|reflexivity].
  transitivity (TrimRight (BaseURL c) "/" +:+ "/api/v1/onelink/list"
                +:+ "?page=" +:+ QueryEscape (Itoa page)); [reflexivity|].
  by rewrite QueryEscape_Itoa.
Qed.

(** X13. The reads send one GET without a body: the lists to the fixed
    path of the resource, the reads by identifier to that path followed by
    the decimal identifier (with its minus sign when negative), and
    [GetShortLink] to [/api/v1/link] with the short URL as the one query
    parameter, escaped.  Each of them holds when [http.NewRequest] accepts
    the URL of that one request. *)
Theorem read_requests c sent :
  let base := TrimRight (BaseURL c) "/" in
  let get (requests : list http.Request) path :=
    NewRequest_rejects http.MethodGet (base +:+ path) = None ->
    requests = sent ++ [outgoing c "GET" (base +:+ path) ""] in
  get (snd (ListPixels c sent)) "/api/v1/link/pixel"
  ∧ get (snd (ListTags c sent)) "/api/v1/link/tag"
  ∧ get (snd (ListUTMPresets c sent)) "/api/v1/link/utm-preset"
  ∧ (∀ id, get (snd (GetPixel c id sent)) ("/api/v1/link/pixel/" +:+ Itoa id))
  ∧ (∀ id, get (snd (GetTag c id sent)) ("/api/v1/link/tag/" +:+ Itoa id))
  ∧ (∀ id, get (snd (GetUTMPreset c id sent))
             ("/api/v1/link/utm-preset/" +:+ Itoa id))
  ∧ (∀ shortURL, get (snd (GetShortLink c shortURL sent))
                   ("/api/v1/link?short_url=" +:+ QueryEscape shortURL))
  ∧ Itoa (-7) = "-7".
Proof.
  intros base get. subst get base. cbv beta.
  split; [intros Hreq|split; [intros Hreq|split; [intros Hreq|
    split; [intros x Hreq|split; [intros x Hreq|split; [intros x Hreq|
    split; [intros x Hreq|]]]]]]].
  - by apply doRequest_request; [|apply requestURL_no_query|].
  - by apply doRequest_request; [|apply requestURL_no_query|].
  - by apply doRequestRaw_request; [|apply requestURL_no_query|].
  - by apply doRequest_request; [|apply requestURL_no_query|].
  - by apply doRequest_request; [|apply requestURL_no_query|].
  - by apply doRequestRaw_request; [|apply requestURL_no_query|].
  - by apply doRequest_request.
  - reflexivity.
Qed.

(** X14. The methods that carry a request struct send it as the JSON that
    [json.Marshal] gives for it, unchanged, to the fixed path of the
    method; the UTM preset update puts its identifier in the path.  Each of
    them holds when [http.NewRequest] accepts the URL of that one
    request. *)
Theorem struct_body_requests c sent T reqData reqBody :
  Marshal (VIface T reqData) = Ok reqBody ->
  let base := TrimRight (BaseURL c) "/" in
  let request (requests : list http.Request) method path :=
    NewRequest_rejects method (base +:+ path) = None ->
    requests = sent ++ [outgoing c method (base +:+ path) reqBody] in
  (T = PixelCreateRequest ->
   request (snd (CreatePixel c reqData sent)) "POST" "/api/v1/link/pixel")
  ∧ (T = ShortLinkCreateRequest ->
     request (snd (CreateShortLink c reqData sent)) "POST" "/api/v1/link/shorten")
  ∧ (T = ShortLinkUpdateRequest ->
     request (snd (UpdateShortLink c reqData sent)) "PUT" "/api/v1/link")
  ∧ (T = ExpandRequest ->
     request (snd (ExpandShortLink c reqData sent)) "POST" "/api/v1/link/expand")
  ∧ (T = BulkShortenRequest ->
     request (snd (BulkShortenLinks c reqData sent)) "POST" "/api/v1/link/bulk")
  ∧ (T = BulkUpdateRequest ->
     request (snd (BulkUpdateLinks c reqData sent)) "POST" "/api/v1/link/bulk/update")
  ∧ (T = UTMPresetRequest ->
     request (snd (CreateUTMPreset c reqData sent)) "POST" "/api/v1/link/utm-preset"
     ∧ ∀ id, request (snd (UpdateUTMPreset c id reqData sent)) "PUT"
               ("/api/v1/link/utm-preset/" +:+ Itoa id))
  ∧ (T = QRCodeUpdateRequest ->
     request (snd (UpdateQRCode c reqData sent)) "PUT" "/api/v1/link/qr-code").
Proof.
  intros Hm base request. subst request base. cbv beta.
  split; [|split; [|split; [|split; [|split; [|split; [|split]]]]]];
    intros ->; [| | | | | |split; [|intros id]|]; intros Hreq.
  - by apply doRequest_request; [|apply requestURL_no_query|].
  - by apply doRequest_request; [|apply requestURL_no_query|].
  - by apply doRequest_request; [|apply requestURL_no_query|].
  - by apply doRequest_request; [|apply requestURL_no_query|].
  - by apply doRequest_request; [|apply requestURL_no_query|].
  - by apply doRequest_request; [|apply requestURL_no_query|].
  - by apply doRequestRaw_request; [|apply requestURL_no_query|].
  - by apply doRequestRaw_request; [|apply requestURL_no_query|].
  - by apply doRequest_request; [|apply requestURL_no_query|].
Qed.

(** X15. [UpdatePixel] takes the identifier of the path from the request
    itself and sends it in the body as well; the body has all four members
    of the struct, whatever their values, an empty string included. *)
Theorem UpdatePixel_request c id name pixelID pixelType sent :
  let reqData := VStruct [VInt id; VString name; VString pixelID; VString pixelType] in
  let url := TrimRight (BaseURL c) "/" +:+ "/api/v1/link/pixel/" +:+ Itoa id in
  let reqBody :=
    "{" +:+ quoted "id" +:+ ":" +:+ Itoa id +:+ ","
    +:+ quoted "name" +:+ ":" +:+ appendString name +:+ ","
    +:+ quoted "pixel_id" +:+ ":" +:+ appendString pixelID +:+ ","
    +:+ quoted "pixel_type" +:+ ":" +:+ appendString pixelType +:+ "}" in
  NewRequest_rejects http.MethodPut url = None ->
  snd (UpdatePixel c reqData sent) = sent ++ [outgoing c "PUT" url reqBody].
Proof.
  intros reqData url reqBody Hreq. subst reqData url reqBody.
  unfold UpdatePixel.
  apply doRequest_request; [|apply requestURL_no_query|done].
  transitivity (Ok (A := string)
                  (object [("id", Itoa id); ("name", appendString name);
                           ("pixel_id", appendString pixelID);
                           ("pixel_type", appendString pixelType)]));
    [reflexivity|].
  unfold object, member. cbn [fmap list_fmap Join fst snd].
  rewrite !append_assoc. reflexivity.
Qed.

(** X16. The tag writes and the OneLink stats delete send a JSON object
    with one member: [tag] bound to the tag text, or [short_url] bound to
    the short URL; [UpdateTag] puts the identifier in the path.  Each of
    them holds when [http.NewRequest] accepts the URL of that one
    request. *)
Theorem one_member_requests c sent :
  let base := TrimRight (BaseURL c) "/" in
  let one key value := "{" +:+ quoted key +:+ ":" +:+ appendString value +:+ "}" in
  (∀ tagValue,
     NewRequest_rejects http.MethodPost (base +:+ "/api/v1/link/tag") = None ->
     snd (CreateTag c tagValue sent)
     = sent ++ [outgoing c "POST" (base +:+ "/api/v1/link/tag") (one "tag" tagValue)])
  ∧ (∀ id tagValue,
       NewRequest_rejects http.MethodPut (base +:+ "/api/v1/link/tag/" +:+ Itoa id)
       = None ->
       snd (UpdateTag c id tagValue sent)
       = sent ++ [outgoing c "PUT" (base +:+ "/api/v1/link/tag/" +:+ Itoa id)
                    (one "tag" tagValue)])
  ∧ (∀ shortURL,
       NewRequest_rejects http.MethodDelete (base +:+ "/api/v1/onelink/stat") = None ->
       snd (DeleteOneLinkStats c shortURL sent)
       = sent ++ [outgoing c "DELETE" (base +:+ "/api/v1/onelink/stat")
                    (one "short_url" shortURL)]).
Proof.
  intros base one. subst one base.
  split; [intros x Hreq|split; [intros x y Hreq|intros x Hreq]].
  - by apply doRequest_request; [|apply requestURL_no_query|].
  - by apply doRequest_request; [|apply requestURL_no_query|].
  - by apply doRequest_request; [|apply requestURL_no_query|].
Qed.

(** ** Further properties of the request bodies *)

(** X17. A field without [omitempty] has its member in the body of any
    struct whatever its value: a UTM preset request with only its name set
    sends the five other members as empty strings, and a bulk request
    without links sends [links] as [null]. *)
Theorem required_fields_written fs vs body :
  Marshal (VIface (TStruct fs) (VStruct vs)) = Ok body ->
  (∃ members,
     body = object members
     ∧ ∀ i f v, fs !! i = Some f -> vs !! i = Some v ->
                field_omitempty f = false -> field_json f ∈ members.*1)
  ∧ Marshal (VIface UTMPresetRequest named_preset)
    = Ok ("{" +:+ quoted "name" +:+ ":" +:+ quoted "x" +:+ ","
          +:+ quoted "source" +:+ ":" +:+ quoted "" +:+ ","
          +:+ quoted "medium" +:+ ":" +:+ quoted "" +:+ ","
          +:+ quoted "campaign" +:+ ":" +:+ quoted "" +:+ ","
          +:+ quoted "content" +:+ ":" +:+ quoted "" +:+ ","
          +:+ quoted "term" +:+ ":" +:+ quoted "" +:+ "}")
  ∧ Marshal (VIface BulkShortenRequest bulk_without_links)
    = Ok ("{" +:+ quoted "domain" +:+ ":" +:+ quoted "t.ly" +:+ ","
          +:+ quoted "links" +:+ ":null}").
Proof.
  intros Hm. split; [|split; by vm_compute].
  change (Marshal (VIface (TStruct fs) (VStruct vs)))
    with (marshal (VStruct vs) (TStruct fs)) in Hm.
  rewrite marshal_struct in Hm.
  destruct (sequence (struct_members vs fs)) as [members|e] eqn:E; [|done].
  injection Hm as <-. exists members. split; [done|].
  rewrite (sequence_struct_members _ _ _ E).
  intros i f v Hf Hv Ho. by eapply written_keys_required.
Qed.

(** The struct encoder does not tell two empty values of an [omitempty]
    field apart. *)
Lemma struct_members_empty fs : ∀ vs i f v v',
  fs !! i = Some f -> field_omitempty f = true ->
  vs !! i = Some v -> isEmptyValue v = true -> isEmptyValue v' = true ->
  struct_members (<[i := v']> vs) fs = struct_members vs fs.
Proof.
  induction fs as [|[n j o t] fs IH]; intros vs i f v v' Hf Ho Hv He He'; [done|].
  destruct vs as [|v0 vs]; [done|]. destruct i as [|i]; simplify_eq/=.
  - by rewrite He, He'.
  - by rewrite (IH vs i f v v').
Qed.

(** X18. For an [omitempty] field only emptiness counts: putting an empty
    list, or any other empty value, where the field held an empty value
    gives the same body.  So a list field set to the empty list is left out
    like an unset one, and a string field set to the empty string like an
    unset one. *)
Theorem empty_values_alike fs vs i f v v' :
  fs !! i = Some f -> field_omitempty f = true ->
  vs !! i = Some v -> isEmptyValue v = true -> isEmptyValue v' = true ->
  Marshal (VIface (TStruct fs) (VStruct (<[i := v']> vs)))
  = Marshal (VIface (TStruct fs) (VStruct vs))
  ∧ isEmptyValue (VSlice []) = true ∧ isEmptyValue VNil = true
  ∧ isEmptyValue (VString "") = true
  ∧ ∀ p, isEmptyValue (VPtr p) = false.
Proof.
  intros Hf Ho Hv He He'. split; [|done].
  change (marshal (VStruct (<[i := v']> vs)) (TStruct fs)
          = marshal (VStruct vs) (TStruct fs)).
  by rewrite !marshal_struct, (struct_members_empty fs vs i f v v').
Qed.

(** Slashes at the end of a string do not count for [TrimRight]. *)
Lemma TrimRight_slash (s : string) : TrimRight (s +:+ "/") "/" = TrimRight s "/".
Proof.
  induction s as [|a s IH]; [done|].
  rewrite append_cons. cbn [TrimRight]. by rewrite IH.
Qed.

(** X19. The slashes at the end of the base URL do not matter: a client
    whose base URL has one more slash at its end sends the same requests
    and returns the same results. *)
Theorem base_url_trailing_slash c method path query body result sent :
  doRequestRaw (with_slash c) method path query body sent
  = doRequestRaw c method path query body sent
  ∧ doRequest (with_slash c) method path query body result sent
    = doRequest c method path query body result sent
  ∧ ∀ path query, requestURL (with_slash c) path query = requestURL c path query.
Proof.
  assert (∀ path query, requestURL (with_slash c) path query = requestURL c path query)
    as Hurl.
  { intros p q. unfold requestURL, with_slash. cbn [BaseURL].
    by rewrite TrimRight_slash. }
  assert (∀ sent, doRequestRaw (with_slash c) method path query body sent
                  = doRequestRaw c method path query body sent) as Hraw.
  { intros s. by rewrite !doRequestRaw_run, Hurl. }
  split; [apply Hraw|]. split; [|exact Hurl].
  unfold doRequest, mbind, M_bind. by rewrite Hraw.
Qed.

(** X20. A method that decodes into a typed result returns, for a 2xx
    response to its request, the zero value when the body is empty after
    trimming, and otherwise what [json.Unmarshal] gives for the body, its
    error included, unchanged. *)
Theorem typed_methods_result c sent resp data :
  200 <= http.StatusCode resp < 300 ->
  let base := TrimRight (BaseURL c) "/" in
  let decoded t :=
    if (String.length (TrimSpace data) =? 0)%nat then Ok (zero t)
    else Unmarshal data t (zero t) in
  (∀ shortURL,
     answered c "GET" (base +:+ "/api/v1/link?short_url=" +:+ QueryEscape shortURL) ""
       resp data ->
     fst (GetShortLink c shortURL sent) = decoded ShortLink)
  ∧ (∀ id,
       answered c "GET" (base +:+ "/api/v1/link/pixel/" +:+ Itoa id) "" resp data ->
       fst (GetPixel c id sent) = decoded Pixel)
  ∧ (∀ id,
       answered c "GET" (base +:+ "/api/v1/link/tag/" +:+ Itoa id) "" resp data ->
       fst (GetTag c id sent) = decoded Tag)
  ∧ (answered c "GET" (base +:+ "/api/v1/link/pixel") "" resp data ->
     fst (ListPixels c sent) = decoded (TSlice Pixel))
  ∧ (answered c "GET" (base +:+ "/api/v1/link/tag") "" resp data ->
     fst (ListTags c sent) = decoded (TSlice Tag))
  ∧ (∀ shortURL,
       answered c "GET"
         (base +:+ "/api/v1/link/stats?short_url=" +:+ QueryEscape shortURL) ""
         resp data ->
       fst (GetStats c shortURL sent) = decoded Stats)
  ∧ (∀ page,
       answered c "GET"
         (base +:+ "/api/v1/onelink/list"
          +:+ (if 0 <? page then "?page=" +:+ Itoa page else "")) "" resp data ->
       fst (ListOneLinks c page sent) = decoded OneLinkListResponse)
  ∧ (∀ options,
       answered c "GET"
         (requestURL c "/api/v1/link/list"
            (Some (ListShortLinksDetailed_query options))) "" resp data ->
       fst (ListShortLinksDetailed c options sent) = decoded ShortLinkListResponse).
Proof.
  intros Hcode base decoded.
  assert ((http.StatusCode resp <? 200) || (300 <=? http.StatusCode resp) = false)
    as Hb by (apply orb_false_iff; split; lia).
  assert (∀ path query t url,
    requestURL c path query = url ->
    answered c http.MethodGet url "" resp data ->
    fst ((r ← doRequest c http.MethodGet path query VNil (ResultJSON t (zero t));
          mret (value_at r)) sent) = decoded t) as H.
  { intros path query t url Hurl Hans.
    pose proof (doRequestRaw_answered c http.MethodGet path query VNil sent ""
                  url resp data eq_refl Hurl Hans) as E.
    rewrite Hb in E. by rewrite (typed_result _ _ _ _ _ _ _ _ _ E). }
  split; [intros x Hans|split; [intros x Hans|split; [intros x Hans|
    split; [intros Hans|split; [intros Hans|split; [intros x Hans|
    split; [intros x Hans|intros x Hans]]]]]]].
  - by apply (H _ _ _ _ eq_refl).
  - by apply (H _ _ _ _ (requestURL_no_query c _)).
  - by apply (H _ _ _ _ (requestURL_no_query c _)).
  - by apply (H _ _ _ _ (requestURL_no_query c _)).
  - by apply (H _ _ _ _ (requestURL_no_query c _)).
  - by apply (H _ _ _ _ eq_refl).
  - unfold ListOneLinks. eapply H; [|exact Hans].
    destruct (0 <? x); [|reflexivity].
    transitivity (TrimRight (BaseURL c) "/" +:+ "/api/v1/onelink/list"
                  +:+ "?page=" +:+ QueryEscape (Itoa x)); [reflexivity|].
    by rewrite QueryEscape_Itoa.
  - rewrite ListShortLinksDetailed_unfold. by apply (H _ _ _ _ eq_refl).
Qed.

(** X21. [GetQRCode] sends [short_url] always and [output] and [format]
    when they are not empty, in the byte order of the keys.  It returns the
    bytes of a 2xx response exactly as read, a blank body included: there
    is no trimming on this path. *)
Theorem GetQRCode_request c reqData sent :
  let url := TrimRight (BaseURL c) "/" +:+ "/api/v1/link/qr-code?"
             +:+ qr_query reqData in
  NewRequest_rejects http.MethodGet url = None ->
  snd (GetQRCode c reqData sent) = sent ++ [outgoing c "GET" url ""]
  ∧ ∀ resp data,
      http.Do (HTTP c) (outgoing c "GET" url "") = Ok resp ->
      http.ReadAll resp = Ok data ->
      200 <= http.StatusCode resp < 300 ->
      fst (GetQRCode c reqData sent) = Ok data.
Proof.
  intros url Hreq. subst url. destruct reqData as [shortURL output format].
  unfold GetQRCode, qr_query in *.
  cbn [QR_ShortURL Output Format] in *.
  match goal with
  | |- context [doRequestRaw c _ _ (Some ?q) VNil sent] => set (query := q)
  end.
  assert (requestURL c "/api/v1/link/qr-code" (Some query)
          = TrimRight (BaseURL c) "/" +:+ "/api/v1/link/qr-code?"
            +:+ (if nonempty format then "format=" +:+ QueryEscape format +:+ "&" else "")
            +:+ (if nonempty output then "output=" +:+ QueryEscape output +:+ "&" else "")
            +:+ "short_url=" +:+ QueryEscape shortURL) as Hurl.
  { subst query.
    destruct (nonempty format), (nonempty output);
      rewrite ?append_assoc, ?append_empty_r; reflexivity. }
  rewrite <- !append_assoc in Hreq. rewrite !append_assoc in Hreq.
  split.
  - rewrite (doRequestRaw_sent c http.MethodGet "/api/v1/link/qr-code"
               (Some query) VNil sent "" eq_refl); rewrite Hurl;
      by rewrite ?append_assoc.
  - intros resp data Hdo Hread Hcode.
    rewrite (doRequestRaw_answer c http.MethodGet "/api/v1/link/qr-code"
               (Some query) VNil sent "" resp data eq_refl).
    + assert ((http.StatusCode resp <? 200) || (300 <=? http.StatusCode resp) = false)
        as -> by (apply orb_false_iff; split; lia).
      done.
    + rewrite Hurl. by rewrite ?append_assoc.
    + rewrite Hurl. by rewrite ?append_assoc in *.
    + done.
Qed.

End client.

(** ** The statements at concrete inputs *)

(** C2 at a 404 answer and at a 200 answer. *)
Lemma doRequestRaw_status_witness :
  (fst (doRequestRaw no_rejection (example_client (always 404 "not found"))
          "GET" "/api/v1/link" None VNil [])
   = Err (ErrAPI {| StatusCode := 404; Body := "not found" |})
   ∧ ∀ result,
       fst (doRequest no_rejection (example_client (always 404 "not found"))
              "GET" "/api/v1/link" None VNil result [])
       = Err (ErrAPI {| StatusCode := 404; Body := "not found" |}))
  ∧ fst (doRequestRaw no_rejection (example_client (always 200 "{}"))
           "GET" "/api/v1/link" None VNil []) = Ok "{}".
Proof.
  split.
  - apply (doRequestRaw_status no_rejection
             (example_client (always 404 "not found")) "GET" "/api/v1/link"
             None VNil [] ""
             {| http.StatusCode := 404; http.ReadAll := Ok "not found" |}
             "not found" eq_refl eq_refl eq_refl eq_refl).
    right. simpl. lia.
  - apply (doRequestRaw_status no_rejection
             (example_client (always 200 "{}")) "GET" "/api/v1/link"
             None VNil [] ""
             {| http.StatusCode := 200; http.ReadAll := Ok "{}" |}
             "{}" eq_refl eq_refl eq_refl eq_refl).
    simpl. lia.
Defined.

(** C6 at a create request whose metadata is a channel. *)
Lemma doRequestRaw_marshal_error_witness :
  Marshal (VIface ShortLinkCreateRequest chan_link)
  = Err (ErrMarshal "json: unsupported type")
  ∧ doRequestRaw no_rejection (example_client (always 200 "{}"))
      "POST" "/api/v1/link/shorten" None
      (VIface ShortLinkCreateRequest chan_link) []
    = (Err (ErrMarshal "json: unsupported type"), []).
Proof.
  split; [reflexivity|].
  apply (doRequestRaw_marshal_error no_rejection
           (example_client (always 200 "{}")) "POST" "/api/v1/link/shorten"
           None (VIface ShortLinkCreateRequest chan_link) []
           (ErrMarshal "json: unsupported type")).
  reflexivity.
Defined.

(** C4 at a 200 answer whose body is white space, which is not JSON. *)
Lemma doRequest_blank_body_witness :
  Unmarshal blank_body ShortLink (zero ShortLink) = Err ErrSyntax
  ∧ fst (doRequest no_rejection (example_client (always 200 blank_body))
           "GET" "/api/v1/link" None VNil
           (ResultJSON ShortLink (zero ShortLink)) [])
    = Ok (ResultJSON ShortLink (zero ShortLink)).
Proof.
  split; [reflexivity|].
  rewrite (doRequest_blank_body no_rejection
             (example_client (always 200 blank_body)) "GET" "/api/v1/link"
             None VNil ShortLink (zero ShortLink) [] blank_body
             [outgoing (example_client (always 200 blank_body)) "GET"
                "https://api.t.ly/api/v1/link" ""]).
  - reflexivity.
  - reflexivity.
  - left. reflexivity.
Defined.

(** C9 at the query with the one key [page]. *)
Lemma doRequestRaw_url_witness :
  requestURL (example_client (always 200 "{}")) "/api/v1/onelink/list"
    (Some {["page" := ["2"]]})
  = "https://api.t.ly/api/v1/onelink/list?page=2".
Proof.
  rewrite (proj2 (proj2 (proj2
             (doRequestRaw_url no_rejection (example_client (always 200 "{}"))
                "GET" "/api/v1/onelink/list" None VNil [])))
             {["page" := ["2"]]}).
  - reflexivity.
  - intros H. apply (f_equal (fun m : Values => m !! "page")) in H.
    vm_compute in H. discriminate H.
Defined.

(** C9 as stated fails for a base URL that ends in a slash: the URL
    requested is not the base URL followed by the path. *)
Lemma doRequestRaw_url_counterexample :
  http.URL <$> snd (doRequestRaw no_rejection (slash_client (always 200 "{}"))
                      "GET" "/api/v1/link" None VNil [])
  = ["https://api.t.ly/api/v1/link"]
  ∧ "https://api.t.ly/api/v1/link"
    ≠ BaseURL (slash_client (always 200 "{}")) +:+ "/api/v1/link".
Proof. split; [reflexivity | discriminate]. Qed.

(** C3 at the second of the tag identifiers [[5, 9]], alone in the query
    and as the tag filter of a list request. *)
Lemma addIndexedIntSlice_encoded_witness :
  addIndexedIntSlice ∅ "tag_ids" [5; 9] !! "tag_ids[1]" = Some ["9"]
  ∧ "tag_ids%5B1%5D=9" ∈ Encode_pairs (addIndexedIntSlice ∅ "tag_ids" [5; 9])
  ∧ "tag_ids%5B1%5D=9" ∈ Encode_pairs (ListShortLinksDetailed_query tag_filter)
  ∧ snd (ListShortLinksDetailed no_rejection (example_client (always 200 "{}"))
           tag_filter [])
    = [outgoing (example_client (always 200 "{}")) "GET"
         "https://api.t.ly/api/v1/link/list?tag_ids%5B0%5D=5&tag_ids%5B1%5D=9" ""].
Proof.
  pose proof (addIndexedIntSlice_encoded no_rejection ∅ "tag_ids" [5; 9] 1 9
                eq_refl) as (H1 & H2 & H3 & _).
  destruct (H3 (example_client (always 200 "{}")) tag_filter [])
    as (Htag & _ & _ & Hsent).
  split; [exact H1|]. split; [exact H2|]. split; [exact (Htag eq_refl)|].
  exact (Hsent (or_introl eq_refl) eq_refl).
Defined.

(** C3 as stated fails: the URL that lists the links tagged 5 and 9 does
    not contain [tag_ids[0]=5&tag_ids[1]=9]; its brackets are
    percent-encoded. *)
Lemma addIndexedIntSlice_counterexample :
  http.URL <$> snd (ListShortLinksDetailed no_rejection
                      (example_client (always 200 "{}")) tag_filter [])
  = ["https://api.t.ly/api/v1/link/list?tag_ids%5B0%5D=5&tag_ids%5B1%5D=9"]
  ∧ Contains "https://api.t.ly/api/v1/link/list?tag_ids%5B0%5D=5&tag_ids%5B1%5D=9"
      "tag_ids[0]=5&tag_ids[1]=9" = false.
Proof. split; reflexivity. Qed.

(** C8 at the short URL [https://t.ly/abc] and an answer of image bytes. *)
Lemma GetQRCode_eps_witness :
  GetQRCode no_rejection (example_client (always 200 "%!PS-Adobe-3.0 EPSF-3.0"))
    qr_eps []
  = (Ok "%!PS-Adobe-3.0 EPSF-3.0",
     [outgoing (example_client (always 200 "%!PS-Adobe-3.0 EPSF-3.0")) "GET"
        "https://api.t.ly/api/v1/link/qr-code?format=eps&short_url=https%3A%2F%2Ft.ly%2Fabc"
        ""]).
Proof.
  destruct (GetQRCode_eps no_rejection
              (example_client (always 200 "%!PS-Adobe-3.0 EPSF-3.0")) qr_eps []
              eq_refl eq_refl eq_refl) as [Hsent Hok].
  specialize (Hok {| http.StatusCode := 200;
                     http.ReadAll := Ok "%!PS-Adobe-3.0 EPSF-3.0" |}
                "%!PS-Adobe-3.0 EPSF-3.0" eq_refl eq_refl).
  assert (200 <= 200 < 300) as Hcode by lia. specialize (Hok Hcode).
  destruct (GetQRCode _ _ _ _) as [r sent]. simpl in Hsent, Hok.
  rewrite Hsent, Hok. reflexivity.
Defined.

(** C8 as stated fails: in the URL requested, [format=eps] comes before
    [short_url], not after it. *)
Lemma GetQRCode_eps_counterexample :
  http.URL <$> snd (GetQRCode no_rejection (example_client (always 200 "")) qr_eps [])
  = ["https://api.t.ly/api/v1/link/qr-code?format=eps&short_url=https%3A%2F%2Ft.ly%2Fabc"]
  ∧ Contains
      "https://api.t.ly/api/v1/link/qr-code?format=eps&short_url=https%3A%2F%2Ft.ly%2Fabc"
      ("short_url=" +:+ QueryEscape "https://t.ly/abc" +:+ "&format=eps") = false.
Proof. split; reflexivity. Qed.

(** C7 at the short URL [https://t.ly/abc] and at the identifier 42. *)
Lemma delete_requests_witness :
  snd (DeleteShortLink no_rejection (example_client (always 200 "")) "https://t.ly/abc" [])
  = [outgoing (example_client (always 200 "")) "DELETE" "https://api.t.ly/api/v1/link"
       ("{" +:+ quoted "short_url" +:+ ":" +:+ quoted "https://t.ly/abc" +:+ "}")]
  ∧ snd (DeletePixel no_rejection (example_client (always 200 "")) 42 [])
    = [outgoing (example_client (always 200 "")) "DELETE"
         "https://api.t.ly/api/v1/link/pixel/42" ""].
Proof.
  pose proof (delete_requests no_rejection (example_client (always 200 "")) []) as H.
  cbv zeta in H. destruct H as (Hlink & _ & Hpixel & _).
  split; [exact (Hlink "https://t.ly/abc" eq_refl) | exact (Hpixel 42 eq_refl)].
Defined.

(** C10 at the short URL [https://t.ly/abc]. *)
Lemma GetStats_GetStatsWithRange_witness :
  snd (GetStats no_rejection (example_client (always 200 "{}")) "https://t.ly/abc" [])
  = [outgoing (example_client (always 200 "{}")) "GET"
       "https://api.t.ly/api/v1/link/stats?short_url=https%3A%2F%2Ft.ly%2Fabc" ""].
Proof.
  destruct (GetStats_GetStatsWithRange no_rejection
              (example_client (always 200 "{}")) "https://t.ly/abc" [])
    as [_ H].
  destruct (H eq_refl) as [H1 _]. exact H1.
Defined.

(** C5 at the short link of the scenario, where [short_id] is unset, and
    at an update whose tags are the empty list: neither has a member. *)
Lemma optional_fields_omitted_witness :
  (∃ members,
     example_link_body = object members
     ∧ Forall2 member_of members
         (kept example_link_fields (fields_of ShortLinkCreateRequest))
     ∧ object_keys example_link_body = Some (members.*1)
     ∧ "short_id" ∉ members.*1)
  ∧ (∃ members,
       bare_update_body = object members
       ∧ Forall2 member_of members
           (kept (values_of empty_tags_update) (fields_of ShortLinkUpdateRequest))
       ∧ object_keys bare_update_body = Some (members.*1)
       ∧ "tags" ∉ members.*1).
Proof.
  split.
  - destruct (optional_fields_omitted no_rejection ShortLinkCreateRequest
                (fields_of ShortLinkCreateRequest)
                example_link_fields example_link_body)
      as [(members & Hb & Hkept & Hkeys & _ & Hno & _) _].
    + unfold request_structs. do 2 apply list_elem_of_further. apply list_elem_of_here.
    + reflexivity.
    + reflexivity.
    + exists members. split; [exact Hb|]. split; [exact Hkept|].
      split; [apply Hkeys; [reflexivity | discriminate]|].
      apply (Hno 1%nat (Field "ShortID" "short_id" true (TPtr TString)));
        reflexivity.
  - destruct (optional_fields_omitted no_rejection ShortLinkUpdateRequest
                (fields_of ShortLinkUpdateRequest)
                (values_of empty_tags_update) bare_update_body)
      as [(members & Hb & Hkept & Hkeys & _ & _ & _ & _ & Hno) _].
    + unfold request_structs. do 3 apply list_elem_of_further. apply list_elem_of_here.
    + reflexivity.
    + reflexivity.
    + exists members. split; [exact Hb|]. split; [exact Hkept|].
      split; [apply Hkeys; [reflexivity | discriminate]|].
      apply (Hno 8%nat (Field "Tags" "tags" true (TSlice TInt)));
        [reflexivity | reflexivity | left; reflexivity].
Defined.

(** C5 as stated fails: in an update whose tags are set to the empty list
    the field is present, it is not the nil list of an unset field, and yet
    the body has no [tags] member; it is the body of the update that leaves
    the tags unset.  For a list field the value decides, not the presence. *)
Lemma optional_fields_counterexample :
  select ShortLinkUpdateRequest empty_tags_update "Tags" = VSlice []
  ∧ select ShortLinkUpdateRequest bare_update "Tags" = VNil
  ∧ VSlice [] ≠ VNil
  ∧ Marshal (VIface ShortLinkUpdateRequest empty_tags_update) = Ok bare_update_body
  ∧ Marshal (VIface ShortLinkUpdateRequest bare_update) = Ok bare_update_body
  ∧ object_keys bare_update_body = Some ["short_url"; "long_url"].
Proof. repeat split; first [reflexivity | discriminate]. Qed.

(** C1 at bytes that decode at the first attempt, at bytes that decode at
    the second, and at bytes that are not JSON. *)
Lemma decodeUTMPreset_attempts_witness :
  decodeUTMPreset preset_bytes = Ok preset_x
  ∧ decodeUTMPreset mistyped_wrapped_bytes = Ok preset_x
  ∧ ListUTMPresets_decode wrapped_list_bytes = Ok (VSlice [preset_x])
  ∧ decodeUTMPreset "not json"
    = Err (Errorf "unable to decode UTM preset response").
Proof.
  split; [|split; [|split]].
  - apply (proj1 (decodeUTMPreset_attempts preset_bytes)). reflexivity.
  - destruct (decodeUTMPreset_attempts mistyped_wrapped_bytes) as (_ & H & _).
    apply (H (ErrUnmarshalType "string") (VStruct [preset_x])); reflexivity.
  - destruct (decodeUTMPreset_attempts wrapped_list_bytes) as (_ & _ & _ & _ & H & _).
    apply (H (ErrUnmarshalType "object") (VStruct [VSlice [preset_x]])); reflexivity.
  - destruct (decodeUTMPreset_attempts "not json") as (_ & _ & H & _).
    apply (H ErrSyntax ErrSyntax); reflexivity.
Defined.

(** C1 as stated fails: the bytes [{"foo":1}] do not fail to decode; the
    unknown key is skipped and the zero preset is returned. *)
Lemma decodeUTMPreset_counterexample :
  decodeUTMPreset foo_bytes = Ok (zero UTMPreset)
  ∧ ¬ ∃ e, decodeUTMPreset foo_bytes = Err e.
Proof. split; [reflexivity | intros [e H]; discriminate H]. Qed.

(** On the wrapped single preset [{"data":{"id":1,"name":"x"}}] the first
    attempt does not fail either: [data] names no field of [UTMPreset], so
    the zero preset is returned and the wrapper is never tried. *)
Example decodeUTMPreset_wrapped_single :
  Unmarshal wrapped_preset_bytes UTMPreset (zero UTMPreset) = Ok (zero UTMPreset)
  ∧ decodeUTMPreset wrapped_preset_bytes = Ok (zero UTMPreset)
  ∧ Unmarshal wrapped_preset_bytes wrapped_UTMPreset (zero wrapped_UTMPreset)
    = Ok (VStruct [preset_x]).
Proof. repeat split; reflexivity. Qed.

(** The pairs of a query are written in the byte order of their keys: from
    eleven values on, index 10 comes before index 1. *)
Example Encode_indexed_order :
  Encode (addIndexedIntSlice ∅ "t" [0; 1; 2; 3; 4; 5; 6; 7; 8; 9; 10])
  = "t%5B0%5D=0&t%5B10%5D=10&t%5B1%5D=1&t%5B2%5D=2&t%5B3%5D=3&t%5B4%5D=4"
    +:+ "&t%5B5%5D=5&t%5B6%5D=6&t%5B7%5D=7&t%5B8%5D=8&t%5B9%5D=9".
Proof. by vm_compute. Qed.

(** ** The further properties at concrete inputs *)

(** X1 at a rejected request, a refused connection and an unreadable body
    of a 500 response. *)
Lemma doRequestRaw_failures_witness :
  doRequestRaw reject_all (example_client (always 200 "{}")) "GET" "/api/v1/link"
    None VNil []
  = (Err (ErrNewRequest "invalid URL"), [])
  ∧ doRequestRaw no_rejection (example_client refusing) "GET" "/api/v1/link"
      None VNil []
    = (Err (ErrTransport "connection refused"),
       [outgoing (example_client refusing) "GET" "https://api.t.ly/api/v1/link" ""])
  ∧ doRequestRaw no_rejection (example_client (unreadable 500)) "GET"
      "/api/v1/link" None VNil []
    = (Err (ErrRead "unexpected EOF"),
       [outgoing (example_client (unreadable 500)) "GET"
          "https://api.t.ly/api/v1/link" ""]).
Proof.
  split; [|split].
  - destruct (doRequestRaw_failures reject_all (example_client (always 200 "{}"))
                "GET" "/api/v1/link" None VNil [] "" eq_refl) as [H _].
    exact (H "invalid URL" eq_refl).
  - destruct (doRequestRaw_failures no_rejection (example_client refusing)
                "GET" "/api/v1/link" None VNil [] "" eq_refl) as [_ H].
    destruct (H eq_refl) as [H1 _].
    exact (H1 (ErrTransport "connection refused") eq_refl).
  - destruct (doRequestRaw_failures no_rejection (example_client (unreadable 500))
                "GET" "/api/v1/link" None VNil [] "" eq_refl) as [_ H].
    destruct (H eq_refl) as [_ H2].
    exact (H2 {| http.StatusCode := 500; http.ReadAll := Err (ErrRead "unexpected EOF") |}
              (ErrRead "unexpected EOF") eq_refl eq_refl).
Defined.

(** X3 at a 204 answer whose body is not JSON. *)
Lemma delete_outcome_witness :
  fst (DeleteTag no_rejection (example_client (always 204 "not json")) 7 []) = Ok ()
  ∧ fst (DeleteShortLink no_rejection (example_client (always 204 "not json"))
           "https://t.ly/abc" []) = Ok ().
Proof.
  pose proof (delete_outcome no_rejection (example_client (always 204 "not json")) []
                {| http.StatusCode := 204; http.ReadAll := Ok "not json" |} "not json")
    as H.
  cbv zeta in H. destruct H as (_ & Htag & _ & Hlink & _).
  split.
  - exact (Htag 7 (conj eq_refl (conj eq_refl eq_refl))).
  - exact (Hlink "https://t.ly/abc" (conj eq_refl (conj eq_refl eq_refl))).
Defined.

(** X4 at a 200 answer with a blank body. *)
Lemma raw_methods_result_witness :
  fst (ListShortLinks no_rejection (example_client (always 200 blank_body)) ∅ [])
  = Ok ""
  ∧ fst (BulkShortenLinks no_rejection (example_client (always 200 blank_body))
           bulk_without_links []) = Ok "".
Proof.
  assert (200 <= 200 < 300) as Hcode by lia.
  pose proof (raw_methods_result no_rejection (example_client (always 200 blank_body)) []
                {| http.StatusCode := 200; http.ReadAll := Ok blank_body |} blank_body
                Hcode) as H.
  cbv zeta in H. destruct H as (Hlist & Hbulk & _ & Hblank).
  split.
  - rewrite (Hlist ∅ (conj eq_refl (conj eq_refl eq_refl))).
    by rewrite (Hblank eq_refl).
  - rewrite (Hbulk bulk_without_links
               ("{" +:+ quoted "domain" +:+ ":" +:+ quoted "t.ly" +:+ ","
                +:+ quoted "links" +:+ ":null}") eq_refl
               (conj eq_refl (conj eq_refl eq_refl))).
    by rewrite (Hblank eq_refl).
Defined.

(** X5 at bytes that are not JSON. *)
Lemma decodeUTMPreset_errors_witness :
  decodeUTMPreset "not json" = Err (Errorf "unable to decode UTM preset response")
  ∧ ListUTMPresets_decode "not json"
    = Err (Errorf "unable to decode UTM preset list response").
Proof.
  destruct (decodeUTMPreset_errors "not json") as (_ & _ & H).
  exact (H eq_refl).
Defined.

(** X6 at a 200 answer with a blank body. *)
Lemma utm_blank_body_witness :
  fst (GetUTMPreset no_rejection (example_client (always 200 blank_body)) 7 [])
  = Err (Errorf "unable to decode UTM preset response")
  ∧ fst (GetPixel no_rejection (example_client (always 200 blank_body)) 7 [])
    = Ok (zero Pixel).
Proof.
  assert (200 <= 200 < 300) as Hcode by lia.
  pose proof (utm_blank_body no_rejection (example_client (always 200 blank_body)) []
                {| http.StatusCode := 200; http.ReadAll := Ok blank_body |} blank_body
                Hcode eq_refl) as H.
  cbv zeta in H. destruct H as (Hutm & _ & Hpixel & _).
  split.
  - exact (Hutm 7 (conj eq_refl (conj eq_refl eq_refl))).
  - exact (Hpixel 7 (conj eq_refl (conj eq_refl eq_refl))).
Defined.

(** X7 at the wrapped single preset. *)
Lemma decodeUTMPreset_unknown_keys_witness :
  decodeUTMPreset wrapped_preset_bytes = Ok (zero UTMPreset).
Proof.
  apply (decodeUTMPreset_unknown_keys wrapped_preset_bytes
           [("data", JObject [("id", JNumber "1"); ("name", JString "x")])]).
  - reflexivity.
  - apply Forall_cons. split; [reflexivity | apply Forall_nil_2].
Defined.

(** X8 at a query that has a search text already. *)
Lemma addIndexedIntSlice_frame_witness :
  addIndexedIntSlice {["search" := ["x"]]} "tag_ids" [5; 9] !! "search"
  = Some ["x"].
Proof.
  rewrite (proj1 (addIndexedIntSlice_frame {["search" := ["x"]]} "tag_ids" [5; 9]
                    "search")).
  - reflexivity.
  - intros j _ H. rewrite ?append_cons in H. discriminate H.
Defined.

(** X9 at one parameter with a space in its value. *)
Lemma queryFromMap_bindings_witness :
  "search=a+b" ∈ Encode_pairs (queryFromMap {["search" := "a b"]}).
Proof.
  destruct (queryFromMap_bindings {["search" := "a b"]}) as (_ & H & _).
  exact (H "search" "a b" eq_refl).
Defined.

(** X10 at options with a search text, an end date and a page, and at
    options with nothing set. *)
Lemma ListShortLinksDetailed_scalar_filters_witness :
  snd (ListShortLinksDetailed no_rejection (example_client (always 200 "{}"))
         scalar_filter [])
  = [outgoing (example_client (always 200 "{}")) "GET"
       "https://api.t.ly/api/v1/link/list?end_date=2025-08-31&page=2&search=a+b" ""]
  ∧ snd (ListShortLinksDetailed no_rejection (example_client (always 200 "{}"))
           no_filter [])
    = [outgoing (example_client (always 200 "{}")) "GET"
         "https://api.t.ly/api/v1/link/list" ""].
Proof.
  split.
  - pose proof (ListShortLinksDetailed_scalar_filters no_rejection
                  (example_client (always 200 "{}")) scalar_filter []) as H.
    cbv zeta in H. destruct H as (_ & _ & _ & _ & _ & H).
    destruct (H eq_refl eq_refl eq_refl) as (_ & Hsent & _). exact (Hsent eq_refl).
  - pose proof (ListShortLinksDetailed_scalar_filters no_rejection
                  (example_client (always 200 "{}")) no_filter []) as H.
    cbv zeta in H. destruct H as (_ & _ & _ & _ & _ & H).
    destruct (H eq_refl eq_refl eq_refl) as (_ & Hsent & _). exact (Hsent eq_refl).
Defined.

(** X11 at the stats of August 2025. *)
Lemma stats_range_requests_witness :
  snd (GetStatsWithRange no_rejection (example_client (always 200 "{}"))
         {| Stats_ShortURL := "https://t.ly/abc"; Stats_StartDate := "2025-08-01";
            Stats_EndDate := "2025-08-31" |} [])
  = [outgoing (example_client (always 200 "{}")) "GET"
       ("https://api.t.ly/api/v1/link/stats?end_date=2025-08-31"
        +:+ "&short_url=https%3A%2F%2Ft.ly%2Fabc&start_date=2025-08-01") ""]
  ∧ snd (GetOneLinkStats no_rejection (example_client (always 200 "{}"))
           {| OneLink_ShortURL := ""; OneLink_StartDate := "";
              OneLink_EndDate := "" |} [])
    = [outgoing (example_client (always 200 "{}")) "GET"
         "https://api.t.ly/api/v1/onelink/stats?short_url=" ""].
Proof.
  split.
  - destruct (stats_range_requests no_rejection (example_client (always 200 "{}"))
                "https://t.ly/abc" "2025-08-01" "2025-08-31" []) as (H & _).
    exact (H eq_refl).
  - destruct (stats_range_requests no_rejection (example_client (always 200 "{}"))
                "" "" "" []) as (_ & H & _).
    exact (H eq_refl).
Defined.

(** X12 at the second page and at page zero. *)
Lemma ListOneLinks_page_witness :
  snd (ListOneLinks no_rejection (example_client (always 200 "{}")) 2 [])
  = [outgoing (example_client (always 200 "{}")) "GET"
       "https://api.t.ly/api/v1/onelink/list?page=2" ""]
  ∧ snd (ListOneLinks no_rejection (example_client (always 200 "{}")) 0 [])
    = [outgoing (example_client (always 200 "{}")) "GET"
         "https://api.t.ly/api/v1/onelink/list" ""].
Proof.
  split.
  - exact (ListOneLinks_page no_rejection (example_client (always 200 "{}")) 2 []
             eq_refl).
  - exact (ListOneLinks_page no_rejection (example_client (always 200 "{}")) 0 []
             eq_refl).
Defined.

(** X13 at the pixel 42 and at a short URL. *)
Lemma read_requests_witness :
  snd (GetPixel no_rejection (example_client (always 200 "{}")) 42 [])
  = [outgoing (example_client (always 200 "{}")) "GET"
       "https://api.t.ly/api/v1/link/pixel/42" ""]
  ∧ snd (GetShortLink no_rejection (example_client (always 200 "{}"))
           "https://t.ly/abc" [])
    = [outgoing (example_client (always 200 "{}")) "GET"
         "https://api.t.ly/api/v1/link?short_url=https%3A%2F%2Ft.ly%2Fabc" ""].
Proof.
  pose proof (read_requests no_rejection (example_client (always 200 "{}")) []) as H.
  cbv beta zeta in H. destruct H as (_ & _ & _ & Hpixel & _ & _ & Hlink & _).
  split; [exact (Hpixel 42 eq_refl) | exact (Hlink "https://t.ly/abc" eq_refl)].
Defined.

(** X14 at a UTM preset request with only its name set. *)
Lemma struct_body_requests_witness :
  snd (UpdateUTMPreset no_rejection (example_client (always 200 "{}")) 7
         named_preset [])
  = [outgoing (example_client (always 200 "{}")) "PUT"
       "https://api.t.ly/api/v1/link/utm-preset/7" named_preset_body].
Proof.
  pose proof (struct_body_requests no_rejection (example_client (always 200 "{}")) []
                UTMPresetRequest named_preset named_preset_body eq_refl) as H.
  cbv beta zeta in H. destruct H as (_ & _ & _ & _ & _ & _ & H & _).
  destruct (H eq_refl) as [_ Hupdate]. exact (Hupdate 7 eq_refl).
Defined.

(** X15 at the pixel 7 with an empty name. *)
Lemma UpdatePixel_request_witness :
  snd (UpdatePixel no_rejection (example_client (always 200 "{}"))
         (VStruct [VInt 7; VString ""; VString "GTM-1"; VString "gtm"]) [])
  = [outgoing (example_client (always 200 "{}")) "PUT"
       "https://api.t.ly/api/v1/link/pixel/7"
       ("{" +:+ quoted "id" +:+ ":7," +:+ quoted "name" +:+ ":" +:+ quoted "" +:+ ","
        +:+ quoted "pixel_id" +:+ ":" +:+ quoted "GTM-1" +:+ ","
        +:+ quoted "pixel_type" +:+ ":" +:+ quoted "gtm" +:+ "}")].
Proof.
  exact (UpdatePixel_request no_rejection (example_client (always 200 "{}")) 7
           "" "GTM-1" "gtm" [] eq_refl).
Defined.

(** X16 at the tag [news]. *)
Lemma one_member_requests_witness :
  snd (UpdateTag no_rejection (example_client (always 200 "{}")) 3 "news" [])
  = [outgoing (example_client (always 200 "{}")) "PUT"
       "https://api.t.ly/api/v1/link/tag/3"
       ("{" +:+ quoted "tag" +:+ ":" +:+ quoted "news" +:+ "}")].
Proof.
  pose proof (one_member_requests no_rejection (example_client (always 200 "{}")) [])
    as H.
  cbv beta zeta in H. destruct H as (_ & H & _).
  exact (H 3 "news" eq_refl).
Defined.

(** X17 at a UTM preset request with only its name set: [source] is in the
    body. *)
Lemma required_fields_written_witness :
  ∃ members,
    named_preset_body = object members ∧ "source" ∈ members.*1.
Proof.
  destruct (required_fields_written (fields_of UTMPresetRequest)
              (values_of named_preset) named_preset_body eq_refl)
    as [(members & Hb & Hin) _].
  exists members. split; [exact Hb|].
  exact (Hin 1%nat (Field "Source" "source" false TString) (VString "")
           eq_refl eq_refl eq_refl).
Defined.

(** X18 at an update whose tags are the empty list instead of nil. *)
Lemma empty_values_alike_witness :
  Marshal (VIface ShortLinkUpdateRequest
             (VStruct (<[8%nat := VSlice []]> (values_of bare_update))))
  = Marshal (VIface ShortLinkUpdateRequest bare_update).
Proof.
  destruct (empty_values_alike (fields_of ShortLinkUpdateRequest)
              (values_of bare_update) 8%nat
              (Field "Tags" "tags" true (TSlice TInt)) VNil (VSlice [])
              eq_refl eq_refl eq_refl eq_refl eq_refl) as [H _].
  exact H.
Defined.

(** X20 at a tag answer. *)
Lemma typed_methods_result_witness :
  fst (GetTag no_rejection (example_client (always 200 tag_bytes)) 3 [])
  = Ok (literal Tag [("ID", VInt 3); ("Tag", VString "news")]).
Proof.
  assert (200 <= 200 < 300) as Hcode by lia.
  pose proof (typed_methods_result no_rejection (example_client (always 200 tag_bytes)) []
                {| http.StatusCode := 200; http.ReadAll := Ok tag_bytes |} tag_bytes
                Hcode) as H.
  cbv zeta in H. destruct H as (_ & _ & Htag & _).
  rewrite (Htag 3 (conj eq_refl (conj eq_refl eq_refl))). reflexivity.
Defined.

(** X21 at a request with output and format, answered with a blank body. *)
Lemma GetQRCode_request_witness :
  GetQRCode no_rejection (example_client (always 200 blank_body)) qr_base64 []
  = (Ok blank_body,
     [outgoing (example_client (always 200 blank_body)) "GET"
        ("https://api.t.ly/api/v1/link/qr-code?format=eps&output=base64"
         +:+ "&short_url=https%3A%2F%2Ft.ly%2Fabc") ""]).
Proof.
  destruct (GetQRCode_request no_rejection (example_client (always 200 blank_body))
              qr_base64 [] eq_refl) as [Hsent Hok].
  specialize (Hok {| http.StatusCode := 200; http.ReadAll := Ok blank_body |}
                blank_body eq_refl eq_refl).
  assert (200 <= 200 < 300) as Hcode by lia. specialize (Hok Hcode).
  destruct (GetQRCode _ _ _ _) as [r sent]. simpl in Hsent, Hok.
  rewrite Hsent, Hok. reflexivity.
Defined.
